(** * pacgo: the game loop, the maze and the power pill, verified

    A shallow embedding of [source/main.go] (the revision with ghosts
    that turn blue, lines 330-900 of the file) and the properties of its
    movement, dot accounting, collision handling, input handling and
    pill timer.

    Conventions of the embedding:
    - a Go [int] is a [Z] on which every arithmetic operation wraps
      around at 64 bits ([Int.add], [Int.sub]);
    - a Go [string] is a [string] of bytes; [s[i]] is [String.get], a
      slice expression is [String.substring];
    - an index or a slice bound out of range, and a nil dereference,
      make the program panic: [Panics];
    - a goroutine that waits for a lock or a channel does not move:
      [Blocks];
    - the globals of the program and the state of the Go runtime that
      the program can observe (locks, timers, goroutines, the input
      channel, what was printed) are the fields of one record [state];
    - the goroutines are interleaved by an explicit schedule, a list of
      [label]s. *)

From Stdlib Require Import ZArith Lia Ascii String.
From stdpp Require Import base option list strings.

Local Open Scope Z_scope.

(** ** Go integers *)

Module Int.

Definition min_int : Z := - 2 ^ 63.
Definition max_int : Z := 2 ^ 63 - 1.

(** The value of an [int] computation whose exact result is [z]. *)
Definition wrap (z : Z) : Z := (z + 2 ^ 63) mod 2 ^ 64 - 2 ^ 63.

Definition add (x y : Z) : Z := wrap (x + y).
Definition sub (x y : Z) : Z := wrap (x - y).
Definition mul (x y : Z) : Z := wrap (x * y).

Definition fits (z : Z) : Prop := min_int <= z <= max_int.

End Int.

(** ** Results of a piece of code *)

Inductive outcome (A : Type) : Type :=
| Done (a : A)
| Panics
| Blocks.

Arguments Done {A} a.
Arguments Panics {A}.
Arguments Blocks {A}.

#[global] Instance outcome_ret : MRet outcome := fun A a => Done a.

#[global] Instance outcome_bind : MBind outcome := fun A B f m =>
  match m with
  | Done a => f a
  | Panics => Panics
  | Blocks => Blocks
  end.

(** ** Slices and strings *)

Definition len {A} (l : list A) : Z := Z.of_nat (length l).
Definition slen (s : string) : Z := Z.of_nat (String.length s).

(** [l[i]] *)
Definition index {A} (l : list A) (i : Z) : outcome A :=
  if i <? 0 then Panics
  else match l !! Z.to_nat i with
       | Some x => Done x
       | None => Panics
       end.

(** [s[i]] *)
Definition byteAt (s : string) (i : Z) : outcome ascii :=
  if i <? 0 then Panics
  else match String.get (Z.to_nat i) s with
       | Some c => Done c
       | None => Panics
       end.

(** [s[lo:hi]] *)
Definition slice (s : string) (lo hi : Z) : outcome string :=
  if (0 <=? lo) && (lo <=? hi) && (hi <=? slen s)
  then Done (String.substring (Z.to_nat lo) (Z.to_nat (hi - lo)) s)
  else Panics.

(** [l[i] = x] *)
Definition assign {A} (l : list A) (i : Z) (x : A) : outcome (list A) :=
  if (0 <=? i) && (i <? len l) then Done (<[Z.to_nat i := x]> l) else Panics.

(** [maze[row][col]] *)
Definition cell (maze : list string) (row col : Z) : outcome ascii :=
  line ← index maze row; byteAt line col.

(** ** Movement: [makeMove] *)

(** The [switch dir] of [makeMove] (lines 570-591): one step in the
    direction, re-entering at the opposite edge. *)
Definition wraparound (maze : list string) (oldRow oldCol : Z) (dir : string)
  : outcome (Z * Z) :=
  if String.eqb dir "UP" then
    let newRow := Int.sub oldRow 1 in
    Done (if newRow <? 0 then Int.sub (len maze) 1 else newRow, oldCol)
  else if String.eqb dir "DOWN" then
    let newRow := Int.add oldRow 1 in
    Done (if newRow =? len maze then 0 else newRow, oldCol)
  else if String.eqb dir "RIGHT" then
    let newCol := Int.add oldCol 1 in
    line0 ← index maze 0;
    Done (oldRow, if newCol =? slen line0 then 0 else newCol)
  else if String.eqb dir "LEFT" then
    let newCol := Int.sub oldCol 1 in
    if newCol <? 0 then
      line0 ← index maze 0; Done (oldRow, Int.sub (slen line0) 1)
    else Done (oldRow, newCol)
  else Done (oldRow, oldCol).

(** [makeMove] (lines 566-602). *)
Definition makeMove (maze : list string) (oldRow oldCol : Z) (dir : string)
  : outcome (Z * Z) :=
  '(newRow, newCol) ← wraparound maze oldRow oldCol dir;
  c ← cell maze newRow newCol;
  if Ascii.eqb c "#" then Done (oldRow, oldCol) else Done (newRow, newCol).

(** ** Grids *)

Definition rowCount (maze : list string) : Z := len maze.

Definition colCount (maze : list string) : Z :=
  match maze with
  | line0 :: _ => slen line0
  | [] => 0
  end.

Definition inBounds (maze : list string) (row col : Z) : Prop :=
  0 <= row < rowCount maze /\ 0 <= col < colCount maze.

(** All rows have the length of the first one, and the two lengths are
    values of type [int]. *)
Definition rectangular (maze : list string) : Prop :=
  Forall (fun line => slen line = colCount maze) maze /\
  rowCount maze <= Int.max_int /\ colCount maze <= Int.max_int.

(** The lengths of a slice of strings are values of type [int]. *)
Definition representable (maze : list string) : Prop :=
  rowCount maze <= Int.max_int /\
  Forall (fun line => slen line <= Int.max_int) maze.

Definition isDirection (dir : string) : Prop :=
  dir = "UP"%string \/ dir = "DOWN"%string \/
  dir = "RIGHT"%string \/ dir = "LEFT"%string.

(** ** The data of the game *)

Record sprite : Type := mkSprite {
  row : Z;
  col : Z;
  startRow : Z;
  startCol : Z
}.

Inductive GhostStatus : Type :=
| GhostStatusNormal
| GhostStatusBlue.

Record ghost : Type := mkGhost {
  position : sprite;
  status : GhostStatus
}.

(** A [time.Timer]: [active] until it fires or is stopped; [fired] while
    the value it sent waits in its channel [C]. *)
Record timer : Type := mkTimer {
  duration : Z;
  active : bool;
  fired : bool
}.

(** Where a [processPill] goroutine stands (lines 669-682). *)
Inductive pillpc : Type :=
| PillLock            (* 670  pillMx.Lock() *)
| PillBlue            (* 671  updateGhosts(ghosts, GhostStatusBlue) *)
| PillArm             (* 672-675  stop the old timer, install a new one *)
| PillUnlock          (* 676  pillMx.Unlock() *)
| PillChan            (* 677  evaluate pillTimer.C *)
| PillRecv (t : nat)  (* 677  receive from the channel of timer t *)
| PillRelock          (* 678  pillMx.Lock() *)
| PillStop            (* 679  pillTimer.Stop() *)
| PillNormal          (* 680  updateGhosts(ghosts, GhostStatusNormal) *)
| PillRelease         (* 681  pillMx.Unlock() *)
| PillDone.

(** Where the game loop of [main] stands (lines 846-900). *)
Inductive phase : Type :=
| PSelect             (* 848-855 *)
| PGhosts             (* 857 *)
| PCollide (i : nat)  (* 864-877, for ghost i *)
| PEat (i : nat)      (* 878-879, for ghost i *)
| PScreen             (* 885-899 *)
| PExit.              (* after the break *)

(** What the player sees, apart from the maze itself. *)
Inductive event : Type :=
| EDeath (r c : Z)    (* cfg.Death printed at a cell *)
| EScreen             (* printScreen *)
| ESleep (ms : Z).    (* time.Sleep *)

Record state : Type := mkState {
  (* globals, lines 460-471 *)
  maze : list string;
  player : sprite;
  ghosts : list ghost;
  pillDurationSecs : Z;            (* cfg.PillDurationSecs *)
  score : Z;
  numDots : Z;
  lives : Z;
  pillTimer : option nat;          (* nil, or a pointer into [timers] *)
  pillMx : bool;                   (* held *)
  ghostStatusMx : nat;             (* read locks held *)
  (* the runtime *)
  timers : list timer;
  procs : list pillpc;             (* the processPill goroutines *)
  sending : list string;           (* what the reader goroutine has to send *)
  mainpc : phase;
  out : list event                 (* newest first *)
}.

Definition set_maze (v : list string) (s : state) : state :=
  mkState v (player s) (ghosts s) (pillDurationSecs s) (score s) (numDots s)
    (lives s) (pillTimer s) (pillMx s) (ghostStatusMx s) (timers s) (procs s)
    (sending s) (mainpc s) (out s).

Definition set_player (v : sprite) (s : state) : state :=
  mkState (maze s) v (ghosts s) (pillDurationSecs s) (score s) (numDots s)
    (lives s) (pillTimer s) (pillMx s) (ghostStatusMx s) (timers s) (procs s)
    (sending s) (mainpc s) (out s).

Definition set_ghosts (v : list ghost) (s : state) : state :=
  mkState (maze s) (player s) v (pillDurationSecs s) (score s) (numDots s)
    (lives s) (pillTimer s) (pillMx s) (ghostStatusMx s) (timers s) (procs s)
    (sending s) (mainpc s) (out s).

Definition set_score (v : Z) (s : state) : state :=
  mkState (maze s) (player s) (ghosts s) (pillDurationSecs s) v (numDots s)
    (lives s) (pillTimer s) (pillMx s) (ghostStatusMx s) (timers s) (procs s)
    (sending s) (mainpc s) (out s).

Definition set_numDots (v : Z) (s : state) : state :=
  mkState (maze s) (player s) (ghosts s) (pillDurationSecs s) (score s) v
    (lives s) (pillTimer s) (pillMx s) (ghostStatusMx s) (timers s) (procs s)
    (sending s) (mainpc s) (out s).

Definition set_lives (v : Z) (s : state) : state :=
  mkState (maze s) (player s) (ghosts s) (pillDurationSecs s) (score s)
    (numDots s) v (pillTimer s) (pillMx s) (ghostStatusMx s) (timers s)
    (procs s) (sending s) (mainpc s) (out s).

Definition set_pillTimer (v : option nat) (s : state) : state :=
  mkState (maze s) (player s) (ghosts s) (pillDurationSecs s) (score s)
    (numDots s) (lives s) v (pillMx s) (ghostStatusMx s) (timers s)
    (procs s) (sending s) (mainpc s) (out s).

Definition set_pillMx (v : bool) (s : state) : state :=
  mkState (maze s) (player s) (ghosts s) (pillDurationSecs s) (score s)
    (numDots s) (lives s) (pillTimer s) v (ghostStatusMx s) (timers s)
    (procs s) (sending s) (mainpc s) (out s).

Definition set_ghostStatusMx (v : nat) (s : state) : state :=
  mkState (maze s) (player s) (ghosts s) (pillDurationSecs s) (score s)
    (numDots s) (lives s) (pillTimer s) (pillMx s) v (timers s)
    (procs s) (sending s) (mainpc s) (out s).

Definition set_timers (v : list timer) (s : state) : state :=
  mkState (maze s) (player s) (ghosts s) (pillDurationSecs s) (score s)
    (numDots s) (lives s) (pillTimer s) (pillMx s) (ghostStatusMx s) v
    (procs s) (sending s) (mainpc s) (out s).

Definition set_procs (v : list pillpc) (s : state) : state :=
  mkState (maze s) (player s) (ghosts s) (pillDurationSecs s) (score s)
    (numDots s) (lives s) (pillTimer s) (pillMx s) (ghostStatusMx s)
    (timers s) v (sending s) (mainpc s) (out s).

Definition set_sending (v : list string) (s : state) : state :=
  mkState (maze s) (player s) (ghosts s) (pillDurationSecs s) (score s)
    (numDots s) (lives s) (pillTimer s) (pillMx s) (ghostStatusMx s)
    (timers s) (procs s) v (mainpc s) (out s).

Definition set_mainpc (v : phase) (s : state) : state :=
  mkState (maze s) (player s) (ghosts s) (pillDurationSecs s) (score s)
    (numDots s) (lives s) (pillTimer s) (pillMx s) (ghostStatusMx s)
    (timers s) (procs s) (sending s) v (out s).

Definition emit (e : event) (s : state) : state :=
  mkState (maze s) (player s) (ghosts s) (pillDurationSecs s) (score s)
    (numDots s) (lives s) (pillTimer s) (pillMx s) (ghostStatusMx s)
    (timers s) (procs s) (sending s) (mainpc s) (e :: out s).

(** [sp.row, sp.col = r, c] *)
Definition moveTo (r c : Z) (sp : sprite) : sprite :=
  mkSprite r c (startRow sp) (startCol sp).

(** ** Loading: [loadMaze] (lines 520-531)

    The loop [for col, char := range line] decodes runes; the three
    characters it looks for are ASCII, a byte below 128 is never part of
    a longer rune, and [col] is the byte offset, so the loop is the same
    loop over the bytes of the line. *)

Fixpoint scanLine (r c : Z) (line : string) (s : state) : state :=
  match line with
  | EmptyString => s
  | String char rest =>
      let s' :=
        if Ascii.eqb char "P" then set_player (mkSprite r c r c) s
        else if Ascii.eqb char "G" then
          set_ghosts (ghosts s ++ [mkGhost (mkSprite r c r c) GhostStatusNormal]) s
        else if Ascii.eqb char "." then set_numDots (Int.add (numDots s) 1) s
        else s in
      scanLine r (c + 1) rest s'
  end.

Fixpoint scanMaze (r : Z) (lines : list string) (s : state) : state :=
  match lines with
  | [] => s
  | line :: rest => scanMaze (r + 1) rest (scanLine r 0 line s)
  end.

(** The globals before [main] runs. *)
Definition initial : state :=
  mkState [] (mkSprite 0 0 0 0) [] 0 0 0 3 None false 0%nat [] [] [] PSelect [].

(** [lines] are the lines of the maze file. *)
Definition loadMaze (lines : list string) (s : state) : state :=
  let s' := set_maze (maze s ++ lines) s in
  scanMaze 0 (maze s') s'.

(** The state in which the game loop starts: maze loaded, configuration
    decoded ([secs] is [pill_duration_secs]), reader goroutine started. *)
Definition boot (lines : list string) (secs : Z) : state :=
  let s := loadMaze lines initial in
  mkState (maze s) (player s) (ghosts s) secs (score s) (numDots s)
    (lives s) (pillTimer s) (pillMx s) (ghostStatusMx s) (timers s) (procs s)
    (sending s) (mainpc s) (out s).

(** ** The player: [movePlayer] (lines 608-627) *)

(** The closure [removeDot] (lines 612-614). *)
Definition removeDot (r c : Z) (s : state) : outcome state :=
  line ← index (maze s) r;
  before ← slice line 0 c;
  after ← slice line (Int.add c 1) (slen line);
  m ← assign (maze s) r (before +:+ " " +:+ after);
  Done (set_maze m s).

(** [go processPill()] *)
Definition spawn (s : state) : state := set_procs (procs s ++ [PillLock]) s.

Definition movePlayer (dir : string) (s : state) : outcome state :=
  '(r, c) ← makeMove (maze s) (row (player s)) (col (player s)) dir;
  let s := set_player (moveTo r c (player s)) s in
  char ← cell (maze s) r c;
  if Ascii.eqb char "." then
    let s := set_numDots (Int.sub (numDots s) 1) s in
    let s := set_score (Int.add (score s) 1) s in
    removeDot r c s
  else if Ascii.eqb char "X" then
    let s := set_score (Int.add (score s) 10) s in
    s ← removeDot r c s;
    Done (spawn s)
  else Done s.

(** ** The ghosts *)

(** [drawDirection] (lines 632-643); [n] is what [rand.Intn(4)] returned. *)
Definition drawDirection (n : Z) : string :=
  match n with
  | 0 => "UP"
  | 1 => "DOWN"
  | 2 => "RIGHT"
  | 3 => "LEFT"
  | _ => ""
  end.

(** The loop of [moveGhosts] (lines 648-653); [draws] are the random
    numbers drawn, one for each ghost. *)
Fixpoint moveEach (m : list string) (gs : list ghost) (draws : list Z)
  : outcome (list ghost) :=
  match gs with
  | [] => Done []
  | g :: gs' =>
      let dir := drawDirection (hd 0 draws) in
      '(r, c) ← makeMove m (row (position g)) (col (position g)) dir;
      rest ← moveEach m gs' (tl draws);
      Done (mkGhost (moveTo r c (position g)) (status g) :: rest)
  end.

Definition moveGhosts (draws : list Z) (s : state) : outcome state :=
  gs ← moveEach (maze s) (ghosts s) draws;
  Done (set_ghosts gs s).

(** [g.status = ghostStatus] for the ghost that pointer [i] refers to. *)
Definition setStatus (ghostStatus : GhostStatus) (gs : list ghost) (i : nat)
  : list ghost :=
  match gs !! i with
  | Some g => <[i := mkGhost (position g) ghostStatus]> gs
  | None => gs
  end.

(** [updateGhosts] (lines 658-664). Its argument is a slice of pointers:
    [sel] lists the ghosts they point to. The write lock is granted when
    no read lock is held, and it is released on return. *)
Definition updateGhosts (sel : list nat) (ghostStatus : GhostStatus) (s : state)
  : outcome state :=
  match ghostStatusMx s with
  | O => Done (set_ghosts (foldl (setStatus ghostStatus) (ghosts s) sel) s)
  | S _ => Blocks
  end.

(** The slice [ghosts] itself. *)
Definition allGhosts (s : state) : list nat := seq 0 (length (ghosts s)).

(** ** Collisions (lines 863-882) *)

(** [ghostStatusMx.RLock()]: one more read lock is held. A reader is
    granted the lock at once. Of [sync.RWMutex] this leaves out that a
    reader also waits while a writer waits in [Lock()]. A writer of this
    program waits only while a read lock is held; [updateGhosts] then
    does not move, which is also what a writer does that has not called
    [Lock()] yet. So every run of the embedding is a run of the program
    (one in which the writers that find a read lock held come to
    [Lock()] late), and the program has further runs, in which the game
    loop waits behind a waiting writer. What holds of every state the
    embedding reaches holds of every state of the program; that a step
    of the game loop returns is, where a read lock may be held
    beforehand, a fact about the runs in which no writer waits. *)
Definition RLock (s : state) : state :=
  set_ghostStatusMx (S (ghostStatusMx s)) s.

Definition RUnlock (s : state) : outcome state :=
  match ghostStatusMx s with
  | O => Panics
  | S n => Done (set_ghostStatusMx n s)
  end.

(** Lines 864-877 for ghost [i]: everything up to and including the
    release of the read lock in the branch of a blue ghost. The boolean
    tells whether lines 878-879 are to follow. *)
Definition collideHead (i : nat) (s : state) : outcome (state * bool) :=
  match ghosts s !! i with
  | None => Panics
  | Some g =>
      if (row (player s) =? row (position g)) &&
         (col (player s) =? col (position g)) then
        let s := RLock s in
        match status g with
        | GhostStatusNormal =>
            let s := set_lives (Int.sub (lives s) 1) s in
            if negb (lives s =? 0) then
              let s := emit (EDeath (row (player s)) (col (player s))) s in
              s ← RUnlock s;
              let s := emit (ESleep 1000) s in
              let p := player s in
              Done (set_player (moveTo (startRow p) (startRow p) p) s, false)
            else Done (s, false)
        | GhostStatusBlue =>
            s ← RUnlock s;
            Done (s, true)
        end
      else Done (s, false)
  end.

(** Lines 878-879 for ghost [i]. *)
Definition collideEat (i : nat) (s : state) : outcome state :=
  s ← updateGhosts [i] GhostStatusNormal s;
  match ghosts s !! i with
  | None => Panics
  | Some g =>
      let p := position g in
      let g' := mkGhost (moveTo (startRow p) (startCol p) p) (status g) in
      Done (set_ghosts (<[i := g']> (ghosts s)) s)
  end.

(** One iteration of the loop over the ghosts. *)
Definition collideGhost (i : nat) (s : state) : outcome state :=
  '(s, eat) ← collideHead i s;
  if (eat : bool) then collideEat i s else Done s.

Fixpoint collideFrom (sel : list nat) (s : state) : outcome state :=
  match sel with
  | [] => Done s
  | i :: rest => s ← collideGhost i s; collideFrom rest s
  end.

(** The whole loop, when no other goroutine runs meanwhile. *)
Definition collisions (s : state) : outcome state :=
  collideFrom (allGhosts s) s.

(** ** Input (lines 765-793 and 833-855) *)

(** [buffer[i]] of the 100 bytes buffer, of which only the bytes read
    are listed: the others are still zero. *)
Definition bufferAt (buffer : list ascii) (i : nat) : ascii :=
  nth i buffer zero.

(** [readInput]; [buffer], [cnt] and [err] are what [os.Stdin.Read] left
    and returned. The result is the command and whether it is an error. *)
Definition readInput (buffer : list ascii) (cnt : Z) (err : bool)
  : string * bool :=
  if err then (""%string, true)
  else if (cnt =? 1) && Ascii.eqb (bufferAt buffer 0) (ascii_of_nat 27) then
    ("ESC"%string, false)
  else if (3 <=? cnt) && Ascii.eqb (bufferAt buffer 0) (ascii_of_nat 27)
          && Ascii.eqb (bufferAt buffer 1) "[" then
    if Ascii.eqb (bufferAt buffer 2) "A" then ("UP"%string, false)
    else if Ascii.eqb (bufferAt buffer 2) "B" then ("DOWN"%string, false)
    else if Ascii.eqb (bufferAt buffer 2) "C" then ("RIGHT"%string, false)
    else if Ascii.eqb (bufferAt buffer 2) "D" then ("LEFT"%string, false)
    else (""%string, false)
  else (""%string, false).

(** What one iteration of the reader goroutine (lines 836-841) sends on
    the channel, in this order. *)
Definition publishes (buffer : list ascii) (cnt : Z) (err : bool)
  : list string :=
  let '(input, failed) := readInput buffer cnt err in
  if failed then ["ESC"%string; input] else [input].

(** The reader goroutine performs its next read once it has sent all it
    had to send. *)
Definition readerStep (buffer : list ascii) (cnt : Z) (err : bool) (s : state)
  : outcome state :=
  match sending s with
  | [] => Done (set_sending (publishes buffer cnt err) s)
  | _ :: _ => Blocks
  end.

(** Lines 850-853. *)
Definition handleInput (inp : string) (s : state) : outcome state :=
  let s := if String.eqb inp "ESC" then set_lives 0 s else s in
  movePlayer inp s.

(** The [select] (lines 848-855): the channel has no buffer, so a value
    is received exactly when the reader is waiting to send one. *)
Definition selectInput (s : state) : outcome state :=
  match sending s with
  | inp :: rest => handleInput inp (set_sending rest s)
  | [] => Done s
  end.

(** ** The end of a tick (lines 885-899) *)

(** [printScreen] (lines 700-746): it draws the ghosts under a read lock;
    of what it prints only the fact that the screen was redrawn is kept. *)
Definition printScreen (s : state) : outcome state :=
  RUnlock (emit EScreen (RLock s)).

Definition gameOver (s : state) : bool :=
  (numDots s =? 0) || (lives s <=? 0).

(** Lines 888-899. The boolean tells whether the loop was left. *)
Definition checkGameOver (s : state) : state * bool :=
  if gameOver s then
    (if lives s =? 0
     then emit (EDeath (row (player s)) (col (player s))) s else s, true)
  else (emit (ESleep 150) s, false).

(** ** The pill: [processPill] (lines 669-682) *)

Definition setTimer (t : nat) (tm : timer) (s : state) : state :=
  set_timers (<[t := tm]> (timers s)) s.

(** [t.Stop()]: the timer will not fire any more; a value it has already
    sent stays in its channel. *)
Definition stopTimer (t : nat) (s : state) : state :=
  match timers s !! t with
  | Some tm => setTimer t (mkTimer (duration tm) false (fired tm)) s
  | None => s
  end.

(** [pillTimer = time.NewTimer(time.Second * cfg.PillDurationSecs)] *)
Definition newTimer (s : state) : state :=
  let d := Int.mul 1000000000 (pillDurationSecs s) in
  set_pillTimer (Some (length (timers s)))
    (set_timers (timers s ++ [mkTimer d true false]) s).

Definition goto (j : nat) (pc : pillpc) (s : state) : state :=
  set_procs (<[j := pc]> (procs s)) s.

(** The next step of the [j]-th [processPill] goroutine. *)
Definition procStep (j : nat) (s : state) : outcome state :=
  match procs s !! j with
  | None => Blocks
  | Some pc =>
      match pc with
      | PillLock =>
          if pillMx s then Blocks else Done (goto j PillBlue (set_pillMx true s))
      | PillBlue =>
          s ← updateGhosts (allGhosts s) GhostStatusBlue s;
          Done (goto j PillArm s)
      | PillArm =>
          let s := match pillTimer s with
                   | Some t => stopTimer t s
                   | None => s
                   end in
          Done (goto j PillUnlock (newTimer s))
      | PillUnlock => Done (goto j PillChan (set_pillMx false s))
      | PillChan =>
          match pillTimer s with
          | Some t => Done (goto j (PillRecv t) s)
          | None => Panics
          end
      | PillRecv t =>
          match timers s !! t with
          | Some tm =>
              if fired tm
              then Done (goto j PillRelock
                           (setTimer t (mkTimer (duration tm) (active tm) false) s))
              else Blocks
          | None => Blocks
          end
      | PillRelock =>
          if pillMx s then Blocks else Done (goto j PillStop (set_pillMx true s))
      | PillStop =>
          match pillTimer s with
          | Some t => Done (goto j PillNormal (stopTimer t s))
          | None => Panics
          end
      | PillNormal =>
          s ← updateGhosts (allGhosts s) GhostStatusNormal s;
          Done (goto j PillRelease s)
      | PillRelease => Done (goto j PillDone (set_pillMx false s))
      | PillDone => Blocks
      end
  end.

(** The runtime fires timer [t]: its duration has elapsed and it was not
    stopped. *)
Definition fireStep (t : nat) (s : state) : outcome state :=
  match timers s !! t with
  | Some tm =>
      if active tm then Done (setTimer t (mkTimer (duration tm) false true) s)
      else Blocks
  | None => Blocks
  end.

(** ** The whole program, one step at a time *)

(** The phase in which the loop over the ghosts continues with ghost [i]. *)
Definition collideNext (i : nat) (s : state) : phase :=
  if (i <? length (ghosts s))%nat then PCollide i else PScreen.

(** The next step of the game loop; [draws] is used by [moveGhosts]. *)
Definition mainStep (draws : list Z) (s : state) : outcome state :=
  match mainpc s with
  | PSelect =>
      s ← selectInput s; Done (set_mainpc PGhosts s)
  | PGhosts =>
      s ← moveGhosts draws s; Done (set_mainpc (collideNext 0 s) s)
  | PCollide i =>
      '(s, eat) ← collideHead i s;
      Done (set_mainpc (if (eat : bool) then PEat i else collideNext (S i) s) s)
  | PEat i =>
      s ← collideEat i s; Done (set_mainpc (collideNext (S i) s) s)
  | PScreen =>
      s ← printScreen s;
      let '(s, over) := checkGameOver s in
      Done (set_mainpc (if (over : bool) then PExit else PSelect) s)
  | PExit => Blocks
  end.

Inductive label : Type :=
| LMain (draws : list Z)
| LRead (buffer : list ascii) (cnt : Z) (err : bool)
| LProc (j : nat)
| LFire (t : nat).

Definition step (l : label) (s : state) : outcome state :=
  match l with
  | LMain draws => mainStep draws s
  | LRead buffer cnt err => readerStep buffer cnt err s
  | LProc j => procStep j s
  | LFire t => fireStep t s
  end.

Fixpoint exec (ls : list label) (s : state) : outcome state :=
  match ls with
  | [] => Done s
  | l :: rest => s ← step l s; exec rest s
  end.

(** The states the program can be in after it loaded a maze. *)
Definition reachable (s : state) : Prop :=
  exists lines secs ls, exec ls (boot lines secs) = Done s.

(** One iteration of the game loop when no other goroutine runs during
    it. The boolean tells whether the loop was left. *)
Definition tick (draws : list Z) (s : state) : outcome (state * bool) :=
  s ← selectInput s;
  s ← moveGhosts draws s;
  s ← collisions s;
  s ← printScreen s;
  Done (checkGameOver s).

(** ** Counting cells *)

Fixpoint countByte (b : ascii) (s : string) : nat :=
  match s with
  | EmptyString => 0
  | String a rest => (if Ascii.eqb a b then 1 else 0) + countByte b rest
  end.

Fixpoint countCells (b : ascii) (m : list string) : nat :=
  match m with
  | [] => 0
  | line :: rest => countByte b line + countCells b rest
  end.

(** The Dot cells and the Pill cells present in a grid. *)
Definition dotCells (m : list string) : Z := Z.of_nat (countCells "." m).
Definition pillCells (m : list string) : Z := Z.of_nat (countCells "X" m).

(** What the score is when everything in the grid has been eaten. *)
Definition worth (m : list string) : Z := dotCells m + 10 * pillCells m.

(** The line that [removeDot] builds from [line] for column [n]. *)
Definition blanked (line : string) (n : nat) : string :=
  String.substring 0 n line +:+ " " +:+
  String.substring (S n) (String.length line - S n) line.

(** The state [movePlayer] leaves when the player lands on the cell
    (r, c) of line [line], which holds [ch]. *)
Definition landed (r c : Z) (line : string) (ch : ascii) (s : state) : state :=
  let s := set_player (moveTo r c (player s)) s in
  let m := <[Z.to_nat r := blanked line (Z.to_nat c)]> (maze s) in
  if Ascii.eqb ch "." then
    set_maze m (set_score (Int.add (score s) 1)
                  (set_numDots (Int.sub (numDots s) 1) s))
  else if Ascii.eqb ch "X" then
    spawn (set_maze m (set_score (Int.add (score s) 10) s))
  else s.

(** The books are in order: the counter of dots is the number of Dot
    cells, and the score is what has been eaten of a grid worth [total]. *)
Record accounted (total : Z) (s : state) : Prop := mkAccounted {
  acc_grid : representable (maze s);
  acc_dots : numDots s = dotCells (maze s);
  acc_score : score s + worth (maze s) = total;
  acc_nonneg : 0 <= score s;
  acc_total : total <= Int.max_int
}.

(** What the accounting is about. *)
Definition ledger (s : state) : list string * Z * Z :=
  (maze s, numDots s, score s).

(** A state in which a tick can be played: the grid is rectangular, the
    player and the ghosts are on it, the slice of ghosts has an [int]
    length and no read lock is held. *)
Definition onGrid (m : list string) (sp : sprite) : Prop :=
  inBounds m (row sp) (col sp).

Record playable (s : state) : Prop := mkPlayable {
  play_grid : rectangular (maze s);
  play_player : onGrid (maze s) (player s);
  play_ghosts : Forall (fun g => onGrid (maze s) (position g)) (ghosts s);
  play_count : len (ghosts s) <= Int.max_int;
  play_unlocked : ghostStatusMx s = 0%nat
}.

(** What only the game loop writes. *)
Definition loopView (s : state) : phase * Z * Z * sprite :=
  (mainpc s, numDots s, lives s, player s).

(** A ghost after [g.status = st]. *)
Definition repaint (st : GhostStatus) (g : ghost) : ghost :=
  mkGhost (position g) st.

(** What only the [processPill] goroutines and the runtime write. *)
Definition timerView (s : state) : list timer * option nat :=
  (timers s, pillTimer s).

(** A timer that runs is the one [pillTimer] points to. *)
Definition oneTimer (s : state) : Prop :=
  forall t tm, timers s !! t = Some tm -> active tm = true ->
               pillTimer s = Some t.

(** A step that is not one of the game loop. *)
Definition aside (l : label) : Prop :=
  match l with
  | LMain _ => False
  | _ => True
  end.

(** ** Mazes and schedules to run the program on *)

(** A pill next to the player and a ghost next to the pill. *)
Definition lane : list string := ["######"; "#PXG.#"; "######"]%string.

(** Two pills in a row. *)
Definition corridor : list string := ["#######"; "#PXX.G#"; "#######"]%string.

(** A ghost next to a player whose start row and start column differ. *)
Definition alley : list string := ["######"; "#.PG.#"; "######"]%string.

(** The reader goroutine reads the three bytes of an arrow key. *)
Definition pressed (key : ascii) : label :=
  LRead [ascii_of_nat 27; "["%char; key] 3 false.

(** One iteration of the game loop in a maze with one ghost, for which
    [draw] is drawn, while the other goroutines stand still. *)
Definition round (draw : Z) : list label :=
  [LMain []; LMain [draw]; LMain []; LMain []].

(** The first three phases of such an iteration, up to the end of the
    loop over the ghosts when the ghost is not blue. *)
Definition upToCollisions (draw : Z) : list label :=
  [LMain []; LMain [draw]; LMain []].

(** In [lane]: Right is pressed and the player eats the pill. *)
Definition eatsPill : list label := [pressed "C"; LMain []].

(** In [lane], after [eatsPill]: the goroutine of the pill turns the
    ghost blue, and then the ghost steps onto the player. *)
Definition blueGhostArrives : list label := [LProc 0; LProc 0; LMain [3]].

(** In [lane], after [eatsPill]: the ghost steps onto the player, and
    the game loop looks at it, before the goroutine of the pill ran. *)
Definition ghostArrivesFirst : list label := [LMain [3]; LMain []].

(** In [alley]: nothing is pressed and the ghost steps onto the player. *)
Definition ghostArrives : list label := [LMain []; LMain [3]].

(** In [alley]: two ticks in each of which the ghost steps onto the
    player, and a third in which it stays on the player, up to the loop
    over the ghosts. *)
Definition lastLife : list label := round 3 ++ round 3 ++ [LMain []; LMain [0]].

(** The goroutine [j] takes [n] steps. *)
Definition steps (n : nat) (j : nat) : list label := replicate n (LProc j).

(** In [corridor]: the player eats the first pill; its goroutine arms
    timer 0 and waits; the timer fires and the goroutine receives from
    it; then the player eats the second pill, whose goroutine stops
    timer 0, arms timer 1 and waits for it. *)
Definition secondPillAtExpiry : list label :=
  [pressed "C"] ++ round 0 ++ steps 5 0 ++ [LFire 0; LProc 0] ++
  [pressed "C"] ++ round 0 ++ steps 5 1.

(** A ghost above a player whose start row is beyond the last column. *)
Definition tall : list string :=
  ["####"; "#. #"; "#  #"; "#G #"; "#P #"; "####"]%string.

(** The read of the reader goroutine fails. *)
Definition readFails : label := LRead [] 0 true.

(** A pill below the player, a ghost beside the player and a ghost
    below the pill. *)
Definition crossroads : list string :=
  ["####"; "#PG#"; "#X #"; "#G.#"; "####"]%string.

(** [n] steps of the game loop, each given the same draws. *)
Definition beat (n : nat) (draws : list Z) : list label :=
  replicate n (LMain draws).

(** In [crossroads]. The first ghost steps onto the player and stays
    there for the next tick: two lives are lost. Down is pressed, the
    player eats the pill and the goroutine of the pill turns both ghosts
    blue and waits for its timer. The first ghost follows the player, is
    eaten and is Normal again; it comes back by the start cell of the
    player; then both ghosts step onto the player in the same tick, and
    the loop over the ghosts looks at the first and at the second. *)
Definition lostWithBlueGhost : list label :=
  beat 5 [3; 1] ++ beat 5 [0; 1] ++
  [pressed "B"] ++ beat 5 [0; 1] ++ steps 5 0 ++
  beat 6 [1; 1] ++ beat 5 [3; 1] ++ beat 4 [1; 0].

(** ** The locks *)

(** The places where a [processPill] goroutine holds [pillMx]: after
    line 670 up to line 676, and after line 678 up to line 681. *)
Definition holdsPillMx (pc : pillpc) : bool :=
  match pc with
  | PillBlue | PillArm | PillUnlock | PillStop | PillNormal | PillRelease => true
  | PillLock | PillChan | PillRecv _ | PillRelock | PillDone => false
  end.

Fixpoint countHolders (l : list pillpc) : nat :=
  match l with
  | [] => 0
  | pc :: rest => (if holdsPillMx pc then 1 else 0) + countHolders rest
  end.

(** The mutex is held exactly when one goroutine is between a Lock and
    the Unlock that follows it. *)
Definition pillMxKept (s : state) : Prop :=
  countHolders (procs s) = if pillMx s then 1%nat else 0%nat.

(** ** Where the game loop stands and what it has left *)

(** A read lock is left held only when the lives are used up. *)
Definition lockLeft (s : state) : Prop :=
  ghostStatusMx s = 0%nat \/ (ghostStatusMx s = 1%nat /\ lives s <= 0).

(** With [n] ghosts: the lives the loop can have at each of its phases.
    The loop over the ghosts has taken at most one life for each ghost
    it has looked at. *)
Definition livesAt (n : nat) (s : state) : Prop :=
  match mainpc s with
  | PSelect => 1 <= lives s <= 3 /\ ghostStatusMx s = 0%nat
  | PGhosts => 0 <= lives s <= 3 /\ ghostStatusMx s = 0%nat
  | PCollide i | PEat i =>
      (i < n)%nat /\ - Z.of_nat i <= lives s <= 3 /\ lockLeft s
  | PScreen => - Z.of_nat n <= lives s <= 3 /\ lockLeft s
  | PExit =>
      - Z.of_nat n <= lives s <= 3 /\ lockLeft s /\
      (numDots s = 0 \/ lives s <= 0)
  end.

Definition ticking (n : nat) (s : state) : Prop :=
  length (ghosts s) = n /\ livesAt n s.

(** ** Sprites on the board *)

(** A cell of the grid that is not a wall. *)
Definition offWall (m : list string) (r c : Z) : Prop :=
  inBounds m r c /\ cell m r c <> Done "#"%char.

(** A ghost whose cell and whose start cell are cells of the grid that
    are not walls. *)
Definition ghostPlaced (m : list string) (sp : sprite) : Prop :=
  offWall m (row sp) (col sp) /\ offWall m (startRow sp) (startCol sp).

(** The places of [processPill] before a timer was installed. *)
Definition early (pc : pillpc) : bool :=
  match pc with
  | PillLock | PillBlue | PillArm => true
  | _ => false
  end.

(** What keeps the program from indexing out of range and from
    dereferencing a nil timer. *)
Record grounded (s : state) : Prop := mkGrounded {
  gr_grid : rectangular (maze s);
  gr_player : onGrid (maze s) (player s);
  gr_respawn : inBounds (maze s) (startRow (player s)) (startRow (player s));
  gr_ghosts : Forall (ghostPlaced (maze s)) (position <$> ghosts s);
  gr_phase : match mainpc s with
             | PCollide i | PEat i => (i < length (ghosts s))%nat
             | _ => True
             end;
  gr_timer : pillTimer s = None -> Forall (fun pc => early pc = true) (procs s)
}.

(** The grid is rectangular and every ghost is placed on it. *)
Definition ghostsPlaced (s : state) : Prop :=
  rectangular (maze s) /\ Forall (ghostPlaced (maze s)) (position <$> ghosts s).

(** ** The lives on the screen: [getLivesAsEmoji] (lines 753-759) *)

(** The loop [for i := lives; i > 0; i--] with [fuel] iterations at
    most; [glyph] is [cfg.Player]. *)
Fixpoint writeLives (fuel : nat) (i : Z) (glyph buf : string) : string :=
  match fuel with
  | O => buf
  | S fuel' =>
      if 0 <? i then writeLives fuel' (Int.sub i 1) glyph (buf +:+ glyph)
      else buf
  end.

(** The loop ends after [lives] iterations, if any. *)
Definition getLivesAsEmoji (glyph : string) (s : state) : string :=
  writeLives (Z.to_nat (lives s)) (lives s) glyph "".

(** [n] copies of a string. *)
Fixpoint copies (n : nat) (glyph : string) : string :=
  match n with
  | O => ""
  | S n' => glyph +:+ copies n' glyph
  end.

(** ** The earlier revision of the game (lines 1-330 of the file)

    It has no pills, no status of the ghosts and no start positions:
    a sprite is a row and a column, the game starts with one life, and
    the only goroutine beside the game loop is the reader. [makeMove],
    [drawDirection] and [readInput] are the same functions as above. *)

Module Early.

Record sprite : Type := mkSprite {
  row : Z;
  col : Z
}.

Record state : Type := mkState {
  maze : list string;
  player : sprite;
  ghosts : list sprite;
  score : Z;
  numDots : Z;
  lives : Z;
  sending : list string
}.

(** [loadMaze] (lines 83-94). *)
Fixpoint scanLine (r c : Z) (line : string) (s : state) : state :=
  match line with
  | EmptyString => s
  | String char rest =>
      let s' :=
        if Ascii.eqb char "P" then
          mkState (maze s) (mkSprite r c) (ghosts s) (score s) (numDots s)
            (lives s) (sending s)
        else if Ascii.eqb char "G" then
          mkState (maze s) (player s) (ghosts s ++ [mkSprite r c]) (score s)
            (numDots s) (lives s) (sending s)
        else if Ascii.eqb char "." then
          mkState (maze s) (player s) (ghosts s) (score s)
            (Int.add (numDots s) 1) (lives s) (sending s)
        else s in
      scanLine r (c + 1) rest s'
  end.

Fixpoint scanMaze (r : Z) (lines : list string) (s : state) : state :=
  match lines with
  | [] => s
  | line :: rest => scanMaze (r + 1) rest (scanLine r 0 line s)
  end.

(** The globals before [main] runs (lines 38-44), and after the maze
    was loaded. *)
Definition initial : state := mkState [] (mkSprite 0 0) [] 0 0 1 [].

Definition boot (lines : list string) : state :=
  scanMaze 0 lines
    (mkState lines (player initial) (ghosts initial) (score initial)
       (numDots initial) (lives initial) (sending initial)).

(** [movePlayer] (lines 146-156). *)
Definition movePlayer (dir : string) (s : state) : outcome state :=
  '(r, c) ← makeMove (maze s) (row (player s)) (col (player s)) dir;
  char ← cell (maze s) r c;
  if Ascii.eqb char "." then
    line ← index (maze s) r;
    before ← slice line 0 c;
    after ← slice line (Int.add c 1) (slen line);
    m ← assign (maze s) r (before +:+ " " +:+ after);
    Done (mkState m (mkSprite r c) (ghosts s) (Int.add (score s) 1)
            (Int.sub (numDots s) 1) (lives s) (sending s))
  else
    Done (mkState (maze s) (mkSprite r c) (ghosts s) (score s) (numDots s)
            (lives s) (sending s)).

(** The loop of [moveGhosts] (lines 177-182). *)
Fixpoint moveEach (m : list string) (gs : list sprite) (draws : list Z)
  : outcome (list sprite) :=
  match gs with
  | [] => Done []
  | g :: gs' =>
      let dir := drawDirection (hd 0 draws) in
      '(r, c) ← makeMove m (row g) (col g) dir;
      rest ← moveEach m gs' (tl draws);
      Done (mkSprite r c :: rest)
  end.

(** [player == *g] *)
Definition same (a b : sprite) : bool :=
  (row a =? row b) && (col a =? col b).

(** The loop over the ghosts (lines 313-317), on the lives. *)
Fixpoint collide (p : sprite) (gs : list sprite) (l : Z) : Z :=
  match gs with
  | [] => l
  | g :: gs' => collide p gs' (if same p g then Int.sub l 1 else l)
  end.

(** One iteration of the game loop (lines 299-329). The boolean tells
    whether the loop was left. *)
Definition tick (draws : list Z) (s : state) : outcome (state * bool) :=
  s ← match sending s with
      | inp :: rest =>
          movePlayer inp
            (mkState (maze s) (player s) (ghosts s) (score s) (numDots s)
               (if String.eqb inp "ESC" then 0 else lives s) rest)
      | [] => Done s
      end;
  gs ← moveEach (maze s) (ghosts s) draws;
  let l := collide (player s) gs (lives s) in
  let s := mkState (maze s) (player s) gs (score s) (numDots s) l (sending s) in
  Done (s, (numDots s =? 0) || (lives s <=? 0)).

End Early.

(** What the earlier revision keeps of a ghost and of a state of the
    later one. *)
Definition earlierGhost (g : ghost) : Early.sprite :=
  Early.mkSprite (row (position g)) (col (position g)).

Definition earlier (s : state) : Early.state :=
  Early.mkState (maze s)
    (Early.mkSprite (row (player s)) (col (player s)))
    (earlierGhost <$> ghosts s)
    (score s) (numDots s) (lives s) (sending s).

(** The ghosts that stand where [p] stands. *)
Definition ghostsAt (p : Early.sprite) (gs : list Early.sprite) : nat :=
  length (filter (fun g => Early.same p g = true) gs).

(** * Properties *)

(** ** Integers that do not overflow *)

Lemma wrap_fits z : Int.fits z -> Int.wrap z = z.
Proof.
  unfold Int.fits, Int.min_int, Int.max_int, Int.wrap. intros H.
  rewrite Z.mod_small; lia.
Qed.

Lemma add_fits x y : Int.fits (x + y) -> Int.add x y = x + y.
Proof. apply wrap_fits. Qed.

Lemma sub_fits x y : Int.fits (x - y) -> Int.sub x y = x - y.
Proof. apply wrap_fits. Qed.

Lemma fits_range z : Int.fits z <-> - 2 ^ 63 <= z <= 2 ^ 63 - 1.
Proof. reflexivity. Qed.

(** Rewrites the additions and subtractions of the goal that stay in
    range. *)
Ltac int_exact :=
  repeat first
    [ rewrite add_fits by (apply fits_range; unfold Int.max_int in *; lia)
    | rewrite sub_fits by (apply fits_range; unfold Int.max_int in *; lia) ].

(** ** Wraparound *)

Lemma index_head {A} (x : A) (l : list A) : index (x :: l) 0 = Done x.
Proof. reflexivity. Qed.

Lemma inBounds_nonempty m r c :
  inBounds m r c -> exists line0 rest, m = line0 :: rest.
Proof.
  intros [Hr _]. destruct m as [|line0 rest]; [|eauto].
  unfold rowCount, len in Hr. simpl in Hr. lia.
Qed.

Section Wraparound.

Variable m : list string.
Variables r c : Z.
Hypothesis Hrect : rectangular m.
Hypothesis Hin : inBounds m r c.

Lemma wraparound_up :
  wraparound m r c "UP" = Done (if r =? 0 then rowCount m - 1 else r - 1, c).
Proof.
  destruct Hrect as (_ & Hrows & _), Hin as [Hr _].
  unfold wraparound, rowCount in *. simpl String.eqb. cbv iota.
  int_exact.
  destruct (Z.eqb_spec r 0), (Z.ltb_spec (r - 1) 0); try lia; reflexivity.
Qed.

Lemma wraparound_down :
  wraparound m r c "DOWN" = Done (if r =? rowCount m - 1 then 0 else r + 1, c).
Proof.
  destruct Hrect as (_ & Hrows & _), Hin as [Hr _].
  unfold wraparound, rowCount in *. simpl String.eqb. cbv iota.
  int_exact.
  destruct (Z.eqb_spec r (len m - 1)), (Z.eqb_spec (r + 1) (len m));
    try lia; reflexivity.
Qed.

Lemma wraparound_right :
  wraparound m r c "RIGHT" = Done (r, if c =? colCount m - 1 then 0 else c + 1).
Proof.
  destruct (inBounds_nonempty _ _ _ Hin) as (line0 & rest & ->).
  destruct Hrect as (_ & _ & Hcols), Hin as [_ Hc].
  unfold wraparound. simpl String.eqb. cbv iota.
  rewrite index_head. simpl in *.
  int_exact.
  destruct (Z.eqb_spec c (slen line0 - 1)), (Z.eqb_spec (c + 1) (slen line0));
    try lia; reflexivity.
Qed.

Lemma wraparound_left :
  wraparound m r c "LEFT" = Done (r, if c =? 0 then colCount m - 1 else c - 1).
Proof.
  destruct (inBounds_nonempty _ _ _ Hin) as (line0 & rest & ->).
  destruct Hrect as (_ & _ & Hcols), Hin as [_ Hc].
  unfold wraparound. simpl String.eqb. cbv iota. simpl in *.
  int_exact.
  destruct (Z.eqb_spec c 0), (Z.ltb_spec (c - 1) 0); try lia; reflexivity.
Qed.

Lemma wraparound_other dir :
  ~ isDirection dir -> wraparound m r c dir = Done (r, c).
Proof.
  intros Hdir. unfold wraparound, isDirection in *.
  destruct (String.eqb_spec dir "UP"); [tauto|].
  destruct (String.eqb_spec dir "DOWN"); [tauto|].
  destruct (String.eqb_spec dir "RIGHT"); [tauto|].
  destruct (String.eqb_spec dir "LEFT"); [tauto|].
  reflexivity.
Qed.

Lemma wraparound_inBounds dir :
  exists r' c', wraparound m r c dir = Done (r', c') /\ inBounds m r' c'.
Proof.
  destruct (String.eqb_spec dir "UP") as [->|Hnu];
    [|destruct (String.eqb_spec dir "DOWN") as [->|Hnd];
      [|destruct (String.eqb_spec dir "RIGHT") as [->|Hnr];
        [|destruct (String.eqb_spec dir "LEFT") as [->|Hnl]]]].
  - eexists _, _. split; [apply wraparound_up|].
    destruct Hin as [Hr Hc]. split; [|exact Hc].
    destruct (Z.eqb_spec r 0); lia.
  - eexists _, _. split; [apply wraparound_down|].
    destruct Hin as [Hr Hc]. split; [|exact Hc].
    destruct (Z.eqb_spec r (rowCount m - 1)); lia.
  - eexists _, _. split; [apply wraparound_right|].
    destruct Hin as [Hr Hc]. split; [exact Hr|].
    destruct (Z.eqb_spec c (colCount m - 1)); lia.
  - eexists _, _. split; [apply wraparound_left|].
    destruct Hin as [Hr Hc]. split; [exact Hr|].
    destruct (Z.eqb_spec c 0); lia.
  - eexists _, _. split; [|exact Hin].
    apply wraparound_other. unfold isDirection. tauto.
Qed.

End Wraparound.

(** ** Cells of a rectangular grid *)

Lemma get_in_range (s : string) : forall n : nat,
  (n < String.length s)%nat -> exists ch, String.get n s = Some ch.
Proof.
  induction s as [|a s IH]; intros n Hn; simpl in Hn; [lia|].
  destruct n as [|n]; simpl; [eauto|]. apply IH. lia.
Qed.

Lemma get_some_range (s : string) : forall (n : nat) ch,
  String.get n s = Some ch -> (n < String.length s)%nat.
Proof.
  induction s as [|a s IH]; intros n ch Hn; simpl in *; [discriminate|].
  destruct n as [|n]; [lia|]. apply IH in Hn. lia.
Qed.

Lemma index_done {A} (l : list A) (i : Z) (x : A) :
  index l i = Done x <-> 0 <= i /\ l !! Z.to_nat i = Some x.
Proof.
  unfold index. destruct (Z.ltb_spec i 0).
  - split; [discriminate|lia].
  - destruct (l !! Z.to_nat i) eqn:E; split.
    + intros [= ->]. auto.
    + intros [_ [= ->]]. reflexivity.
    + discriminate.
    + intros [_ [=]].
Qed.

Lemma byteAt_done (s : string) (i : Z) (ch : ascii) :
  byteAt s i = Done ch <-> 0 <= i /\ String.get (Z.to_nat i) s = Some ch.
Proof.
  unfold byteAt. destruct (Z.ltb_spec i 0).
  - split; [discriminate|lia].
  - destruct (String.get (Z.to_nat i) s) eqn:E; split.
    + intros [= ->]. auto.
    + intros [_ [= ->]]. reflexivity.
    + discriminate.
    + intros [_ [=]].
Qed.

Lemma index_in_range {A} (l : list A) (i : Z) :
  0 <= i < len l -> exists x, index l i = Done x.
Proof.
  intros Hi. unfold len in Hi.
  destruct (lookup_lt_is_Some_2 l (Z.to_nat i)) as [x Hx]; [lia|].
  exists x. apply index_done. split; [lia|exact Hx].
Qed.

Lemma cell_done m r c ch :
  cell m r c = Done ch <->
  exists line, index m r = Done line /\ byteAt line c = Done ch.
Proof.
  unfold cell. destruct (index m r) as [line| |]; simpl.
  - split; [eauto|]. intros (line' & E & H). congruence.
  - split; [discriminate|]. intros (line' & E & _). discriminate.
  - split; [discriminate|]. intros (line' & E & _). discriminate.
Qed.

Lemma rectangular_row m r line :
  rectangular m -> index m r = Done line -> slen line = colCount m.
Proof.
  intros (Hall & _) Hline. apply index_done in Hline as [_ Hline].
  rewrite Forall_lookup in Hall. exact (Hall _ _ Hline).
Qed.

Lemma cell_in_bounds m r c :
  rectangular m -> inBounds m r c -> exists ch, cell m r c = Done ch.
Proof.
  intros Hrect [Hr Hc].
  destruct (index_in_range m r Hr) as [line Hline].
  pose proof (rectangular_row _ _ _ Hrect Hline) as Hlen.
  destruct (get_in_range line (Z.to_nat c)) as [ch Hch].
  { unfold slen in Hlen. lia. }
  exists ch. apply cell_done. exists line. split; [exact Hline|].
  apply byteAt_done. split; [lia|exact Hch].
Qed.

Lemma makeMove_in_bounds m r c dir :
  rectangular m -> inBounds m r c ->
  exists r' c' ch,
    wraparound m r c dir = Done (r', c') /\ inBounds m r' c' /\
    cell m r' c' = Done ch /\
    makeMove m r c dir = Done (if Ascii.eqb ch "#" then (r, c) else (r', c')).
Proof.
  intros Hrect Hin.
  destruct (wraparound_inBounds m r c Hrect Hin dir) as (r' & c' & Hw & Hin').
  destruct (cell_in_bounds m r' c' Hrect Hin') as [ch Hch].
  exists r', c', ch. repeat split; try assumption; try apply Hin'.
  unfold makeMove. rewrite Hw. simpl. rewrite Hch. simpl.
  destruct (Ascii.eqb ch "#"); reflexivity.
Qed.

(** A move made from a cell of the grid ends in a cell of the grid. *)
Lemma makeMove_stays m r c dir :
  rectangular m -> inBounds m r c ->
  exists r' c', makeMove m r c dir = Done (r', c') /\ inBounds m r' c'.
Proof.
  intros Hrect Hin.
  destruct (makeMove_in_bounds m r c dir Hrect Hin)
    as (r' & c' & ch & _ & Hin' & _ & Hmove).
  rewrite Hmove. destruct (Ascii.eqb ch "#"); eauto.
Qed.

(** ** Removing what the player eats *)

Lemma substring_whole s : String.substring 0 (String.length s) s = s.
Proof. induction s as [|a s IH]; simpl; [reflexivity|]. now rewrite IH. Qed.

Lemma blanked_cons a line n :
  blanked (String a line) (S n) = String a (blanked line n).
Proof. reflexivity. Qed.

Lemma blanked_here a line : blanked (String a line) 0 = String " " line.
Proof.
  unfold blanked. simpl. rewrite Nat.sub_0_r. now rewrite substring_whole.
Qed.

Lemma blanked_length line : forall n ch,
  String.get n line = Some ch ->
  String.length (blanked line n) = String.length line.
Proof.
  induction line as [|a line IH]; intros n ch Hget; [discriminate|].
  destruct n as [|n].
  - now rewrite blanked_here.
  - rewrite blanked_cons. simpl. f_equal. exact (IH n ch Hget).
Qed.

Lemma blanked_get line : forall n ch,
  String.get n line = Some ch -> String.get n (blanked line n) = Some " "%char.
Proof.
  induction line as [|a line IH]; intros n ch Hget; [discriminate|].
  destruct n as [|n].
  - now rewrite blanked_here.
  - rewrite blanked_cons. simpl. exact (IH n ch Hget).
Qed.

Lemma blanked_count b line : forall n ch,
  String.get n line = Some ch -> b <> " "%char ->
  (countByte b (blanked line n) + (if Ascii.eqb ch b then 1 else 0)
   = countByte b line)%nat.
Proof.
  induction line as [|a line IH]; intros n ch Hget Hb; [discriminate|].
  destruct n as [|n].
  - rewrite blanked_here. cbn [countByte String.get] in *.
    inversion Hget; subst.
    destruct (Ascii.eqb_spec " " b); [congruence|]. lia.
  - rewrite blanked_cons. cbn [countByte String.get] in *.
    specialize (IH n ch Hget Hb). lia.
Qed.

Lemma countCells_insert b (m : list string) : forall (i : nat) line line',
  m !! i = Some line ->
  (countCells b (<[i := line']> m) + countByte b line
   = countCells b m + countByte b line')%nat.
Proof.
  induction m as [|l m IH]; intros i line line' Hi; [discriminate|].
  destruct i as [|i]; simpl in *.
  - inversion Hi; subst. lia.
  - specialize (IH i line line' Hi). lia.
Qed.

Lemma slice_done s lo hi :
  0 <= lo <= hi -> hi <= slen s ->
  slice s lo hi = Done (String.substring (Z.to_nat lo) (Z.to_nat (hi - lo)) s).
Proof.
  intros H1 H2. unfold slice.
  destruct (Z.leb_spec 0 lo), (Z.leb_spec lo hi), (Z.leb_spec hi (slen s));
    try lia. reflexivity.
Qed.

Lemma assign_done {A} (l : list A) (i : Z) (x : A) :
  0 <= i < len l -> assign l i x = Done (<[Z.to_nat i := x]> l).
Proof.
  intros H. unfold assign.
  destruct (Z.leb_spec 0 i), (Z.ltb_spec i (len l)); try lia. reflexivity.
Qed.

(** [removeDot] at a cell that exists blanks that cell. *)
Lemma removeDot_done r c s line ch :
  index (maze s) r = Done line -> byteAt line c = Done ch ->
  slen line <= Int.max_int ->
  removeDot r c s =
  Done (set_maze (<[Z.to_nat r := blanked line (Z.to_nat c)]> (maze s)) s).
Proof.
  intros Hline Hch Hmax. unfold removeDot. rewrite Hline. simpl.
  apply index_done in Hline as [Hr Hline].
  apply byteAt_done in Hch as [Hc Hch].
  pose proof (get_some_range _ _ _ Hch) as Hlt.
  pose proof (lookup_lt_Some _ _ _ Hline) as Hrow.
  assert (Hfit : Int.add c 1 = c + 1).
  { apply add_fits, fits_range. unfold slen, Int.max_int in *. lia. }
  rewrite Hfit.
  rewrite slice_done by (unfold slen; lia). simpl.
  rewrite slice_done by (unfold slen; lia). simpl.
  rewrite assign_done by (unfold len; lia). simpl.
  unfold blanked.
  replace (Z.to_nat (c - 0)) with (Z.to_nat c) by lia.
  replace (Z.to_nat (c + 1)) with (S (Z.to_nat c)) by lia.
  replace (Z.to_nat (slen line - (c + 1)))
    with (String.length line - S (Z.to_nat c))%nat by (unfold slen; lia).
  reflexivity.
Qed.

Lemma representable_row m r line :
  representable m -> index m r = Done line -> slen line <= Int.max_int.
Proof.
  intros [_ Hall] Hline. apply index_done in Hline as [_ Hline].
  rewrite Forall_lookup in Hall. exact (Hall _ _ Hline).
Qed.

Lemma rectangular_representable m : rectangular m -> representable m.
Proof.
  intros (Hall & Hrows & Hcols). split; [exact Hrows|].
  eapply Forall_impl; [exact Hall|]. simpl. intros line ->. exact Hcols.
Qed.

(** ** [movePlayer] *)

Lemma movePlayer_lands dir s r c line ch :
  representable (maze s) ->
  makeMove (maze s) (row (player s)) (col (player s)) dir = Done (r, c) ->
  index (maze s) r = Done line -> byteAt line c = Done ch ->
  movePlayer dir s = Done (landed r c line ch s).
Proof.
  intros Hrep Hmove Hline Hch. unfold movePlayer, landed.
  rewrite Hmove. simpl. unfold cell. rewrite Hline. simpl. rewrite Hch. simpl.
  pose proof (representable_row _ _ _ Hrep Hline) as Hmax.
  destruct (Ascii.eqb ch ".").
  - erewrite removeDot_done; [reflexivity| exact Hline | exact Hch | exact Hmax].
  - destruct (Ascii.eqb ch "X"); [|reflexivity].
    erewrite removeDot_done; [reflexivity| exact Hline | exact Hch | exact Hmax].
Qed.

(** Blanking a cell takes it out of the count of its kind. *)
Lemma countCells_blanked b m r c line ch :
  index m r = Done line -> byteAt line c = Done ch -> b <> " "%char ->
  (countCells b (<[Z.to_nat r := blanked line (Z.to_nat c)]> m)
   + (if Ascii.eqb ch b then 1 else 0) = countCells b m)%nat.
Proof.
  intros Hline Hch Hb.
  apply index_done in Hline as [_ Hline].
  apply byteAt_done in Hch as [_ Hch].
  pose proof (countCells_insert b m _ _ (blanked line (Z.to_nat c)) Hline).
  pose proof (blanked_count b line _ _ Hch Hb). lia.
Qed.

Lemma representable_blanked m r c line ch :
  representable m -> index m r = Done line -> byteAt line c = Done ch ->
  representable (<[Z.to_nat r := blanked line (Z.to_nat c)]> m).
Proof.
  intros Hrep Hline Hch.
  pose proof (representable_row _ _ _ Hrep Hline) as Hmax.
  destruct Hrep as [Hrows Hall].
  apply byteAt_done in Hch as [_ Hch].
  split.
  - unfold rowCount, len in *. now rewrite length_insert.
  - apply Forall_insert; [exact Hall|].
    unfold slen in *. now rewrite (blanked_length _ _ _ Hch).
Qed.

Lemma landed_accounted total r c line ch s :
  accounted total s ->
  index (maze s) r = Done line -> byteAt line c = Done ch ->
  accounted total (landed r c line ch s).
Proof.
  intros [Hrep Hdots Hscore Hpos Htotal] Hline Hch.
  assert (Hd := countCells_blanked "." (maze s) r c line ch Hline Hch).
  assert (Hp := countCells_blanked "X" (maze s) r c line ch Hline Hch).
  specialize (Hd ltac:(discriminate)). specialize (Hp ltac:(discriminate)).
  pose proof (representable_blanked _ _ _ _ _ Hrep Hline Hch) as Hrep'.
  unfold landed.
  destruct (Ascii.eqb_spec ch ".") as [->|Hnd].
  - change (Ascii.eqb "." "X") with false in Hp.
    split; try assumption;
      unfold worth, dotCells, pillCells, Int.max_int in *; simpl;
      int_exact; lia.
  - destruct (Ascii.eqb_spec ch "X") as [->|Hnp].
    + change (Ascii.eqb "X" ".") with false in Hd.
      split; try assumption;
        unfold worth, dotCells, pillCells, Int.max_int in *; simpl;
        int_exact; lia.
    + split; simpl; assumption.
Qed.

(** ** Taking apart a run that returned *)

Lemma bind_done {A B} (m : outcome A) (f : A -> outcome B) (b : B) :
  (m ≫= f) = Done b <-> exists a, m = Done a /\ f a = Done b.
Proof.
  destruct m as [a| |]; simpl; split.
  - eauto.
  - intros (a' & [= ->] & H). exact H.
  - discriminate.
  - intros (a' & [=] & _).
  - discriminate.
  - intros (a' & [=] & _).
Qed.

Lemma bind_now {A B} (a : A) (f : A -> outcome B) : (Done a ≫= f) = f a.
Proof. reflexivity. Qed.

(** Splits the hypotheses that say that some code returned, up to the
    point where each says what one call returned. *)
Ltac returned :=
  repeat match goal with
  | H : Done _ = Done _ |- _ => inversion H; subst; clear H
  | H : (_, _) = (_, _) |- _ => inversion H; subst; clear H
  | H : Panics = Done _ |- _ => discriminate H
  | H : Blocks = Done _ |- _ => discriminate H
  | H : (_ ≫= _) = Done _ |- _ =>
      apply bind_done in H; destruct H as (? & ? & H)
  | H : (match ?x with _ => _ end) = Done _ |- _ => destruct x eqn:?
  | H : (match ?x with _ => _ end) = (_, _) |- _ => destruct x eqn:?
  end.

Lemma movePlayer_returned dir s s' :
  representable (maze s) -> movePlayer dir s = Done s' ->
  exists r c line ch,
    makeMove (maze s) (row (player s)) (col (player s)) dir = Done (r, c) /\
    index (maze s) r = Done line /\ byteAt line c = Done ch /\
    s' = landed r c line ch s.
Proof.
  intros Hrep Hrun.
  destruct (makeMove (maze s) (row (player s)) (col (player s)) dir)
    as [[r c]| |] eqn:Hmove;
    try (unfold movePlayer in Hrun; rewrite Hmove in Hrun; discriminate).
  destruct (cell (maze s) r c) as [ch| |] eqn:Hcell;
    try (unfold movePlayer in Hrun; rewrite Hmove in Hrun; simpl in Hrun;
         rewrite Hcell in Hrun; discriminate).
  apply cell_done in Hcell as (line & Hline & Hch).
  rewrite (movePlayer_lands dir s r c line ch Hrep Hmove Hline Hch) in Hrun.
  exists r, c, line, ch. inversion Hrun. auto.
Qed.

Lemma movePlayer_accounted total dir s s' :
  accounted total s -> movePlayer dir s = Done s' -> accounted total s'.
Proof.
  intros Hacc Hrun.
  destruct (movePlayer_returned dir s s' (acc_grid _ _ Hacc) Hrun)
    as (r & c & line & ch & _ & Hline & Hch & ->).
  now apply landed_accounted.
Qed.

(** ** What leaves the books alone *)

Lemma accounted_ledger total s s' :
  ledger s' = ledger s -> accounted total s -> accounted total s'.
Proof.
  unfold ledger. intros [= Hm Hd Hs] [Hrep Hdots Hscore Hpos Htotal].
  split; congruence.
Qed.

Lemma moveGhosts_ledger draws s s' :
  moveGhosts draws s = Done s' -> ledger s' = ledger s.
Proof. unfold moveGhosts. intros H. returned. reflexivity. Qed.

Lemma updateGhosts_ledger sel st s s' :
  updateGhosts sel st s = Done s' -> ledger s' = ledger s.
Proof. unfold updateGhosts. intros H. returned. reflexivity. Qed.

Lemma collideHead_ledger i s s' eat :
  collideHead i s = Done (s', eat) -> ledger s' = ledger s.
Proof.
  unfold collideHead, RUnlock, RLock. intros H.
  returned; simpl in *; returned; reflexivity.
Qed.

Lemma collideEat_ledger i s s' :
  collideEat i s = Done s' -> ledger s' = ledger s.
Proof.
  unfold collideEat. intros H. returned.
  match goal with H : updateGhosts _ _ _ = _ |- _ =>
    apply updateGhosts_ledger in H; rewrite <- H end.
  reflexivity.
Qed.

Lemma printScreen_ledger s s' :
  printScreen s = Done s' -> ledger s' = ledger s.
Proof. unfold printScreen, RUnlock, RLock. simpl. intros [= <-]. reflexivity. Qed.

Lemma checkGameOver_ledger s s' over :
  checkGameOver s = (s', over) -> ledger s' = ledger s.
Proof.
  unfold checkGameOver. intros H.
  destruct (gameOver s); [destruct (lives s =? 0)|]; inversion H; reflexivity.
Qed.

Lemma stopTimer_ledger t s : ledger (stopTimer t s) = ledger s.
Proof. unfold stopTimer. destruct (timers s !! t); reflexivity. Qed.

Lemma goto_ledger j pc s : ledger (goto j pc s) = ledger s.
Proof. reflexivity. Qed.

Lemma newTimer_ledger s : ledger (newTimer s) = ledger s.
Proof. reflexivity. Qed.

Lemma procStep_ledger j s s' :
  procStep j s = Done s' -> ledger s' = ledger s.
Proof.
  unfold procStep. intros H. returned;
    rewrite ?goto_ledger, ?newTimer_ledger;
    try match goal with H : updateGhosts _ _ _ = _ |- _ =>
      apply updateGhosts_ledger in H; rewrite <- H end;
    try reflexivity.
  - destruct (pillTimer s); [apply stopTimer_ledger|reflexivity].
  - apply stopTimer_ledger.
Qed.

Lemma fireStep_ledger t s s' :
  fireStep t s = Done s' -> ledger s' = ledger s.
Proof. unfold fireStep. intros H. returned. reflexivity. Qed.

Lemma readerStep_ledger buffer cnt err s s' :
  readerStep buffer cnt err s = Done s' -> ledger s' = ledger s.
Proof. unfold readerStep. intros H. returned. reflexivity. Qed.

Lemma selectInput_accounted total s s' :
  accounted total s -> selectInput s = Done s' -> accounted total s'.
Proof.
  unfold selectInput, handleInput. intros Hacc H.
  destruct (sending s) as [|inp rest]; [now inversion H; subst|].
  eapply movePlayer_accounted; [|exact H].
  eapply accounted_ledger; [|exact Hacc].
  destruct (String.eqb inp "ESC"); reflexivity.
Qed.

Lemma mainStep_accounted total draws s s' :
  accounted total s -> mainStep draws s = Done s' -> accounted total s'.
Proof.
  unfold mainStep. intros Hacc H.
  destruct (mainpc s) eqn:Hpc.
  - apply bind_done in H as (s1 & Hrun & [= <-]).
    eapply accounted_ledger with (s := s1); [reflexivity|].
    eapply selectInput_accounted; eassumption.
  - apply bind_done in H as (s1 & Hrun & [= <-]).
    eapply accounted_ledger; [|exact Hacc].
    apply moveGhosts_ledger in Hrun. rewrite <- Hrun. reflexivity.
  - apply bind_done in H as ([s1 eat] & Hrun & [= <-]).
    eapply accounted_ledger; [|exact Hacc].
    apply collideHead_ledger in Hrun. rewrite <- Hrun. reflexivity.
  - apply bind_done in H as (s1 & Hrun & [= <-]).
    eapply accounted_ledger; [|exact Hacc].
    apply collideEat_ledger in Hrun. rewrite <- Hrun. reflexivity.
  - apply bind_done in H as (s1 & Hrun & H).
    destruct (checkGameOver s1) as [s2 over] eqn:Hover.
    injection H as <-.
    eapply accounted_ledger; [|exact Hacc].
    apply printScreen_ledger in Hrun. rewrite <- Hrun.
    apply checkGameOver_ledger in Hover. rewrite <- Hover. reflexivity.
  - discriminate.
Qed.

Lemma step_accounted total l s s' :
  accounted total s -> step l s = Done s' -> accounted total s'.
Proof.
  intros Hacc H. destruct l as [draws|buffer cnt err|j|t]; simpl in H.
  - eapply mainStep_accounted; eassumption.
  - eapply accounted_ledger; [|exact Hacc]. eapply readerStep_ledger, H.
  - eapply accounted_ledger; [|exact Hacc]. eapply procStep_ledger, H.
  - eapply accounted_ledger; [|exact Hacc]. eapply fireStep_ledger, H.
Qed.

Lemma exec_accounted total ls : forall s s',
  accounted total s -> exec ls s = Done s' -> accounted total s'.
Proof.
  induction ls as [|l ls IH]; intros s s' Hacc H; simpl in H.
  - now inversion H; subst.
  - apply bind_done in H as (s1 & Hstep & Hrest).
    eapply IH; [|exact Hrest]. eapply step_accounted; eassumption.
Qed.

(** ** The books after loading *)

Lemma scanLine_books line : forall r c s,
  0 <= numDots s ->
  numDots s + Z.of_nat (countByte "." line) <= Int.max_int ->
  maze (scanLine r c line s) = maze s /\
  score (scanLine r c line s) = score s /\
  numDots (scanLine r c line s) = numDots s + Z.of_nat (countByte "." line).
Proof.
  induction line as [|a line IH]; intros r c s Hpos Hmax.
  - simpl. repeat split; lia.
  - cbn [scanLine countByte] in *.
    destruct (Ascii.eqb_spec a "P") as [->|HP];
      [|destruct (Ascii.eqb_spec a "G") as [->|HG];
        [|destruct (Ascii.eqb_spec a ".") as [->|HD]]].
    + change (Ascii.eqb "P" ".") with false in Hmax. simpl in Hmax.
      specialize (IH r (c + 1) (set_player (mkSprite r c r c) s)
                    ltac:(simpl; lia) ltac:(simpl; lia)).
      simpl in IH. destruct IH as (Hm & Hs & Hd). repeat split; auto.
    + change (Ascii.eqb "G" ".") with false in Hmax. simpl in Hmax.
      specialize (IH r (c + 1)
        (set_ghosts (ghosts s ++ [mkGhost (mkSprite r c r c) GhostStatusNormal]) s)
        ltac:(simpl; lia) ltac:(simpl; lia)).
      simpl in IH. destruct IH as (Hm & Hs & Hd). repeat split; auto.
    + change (Ascii.eqb "." ".") with true in *.
      assert (Hfit : Int.add (numDots s) 1 = numDots s + 1).
      { apply add_fits, fits_range. unfold Int.max_int in *. lia. }
      specialize (IH r (c + 1) (set_numDots (Int.add (numDots s) 1) s)).
      simpl in IH. rewrite Hfit in *.
      destruct IH as (Hm & Hs & Hd); [lia|lia|]. repeat split; auto. lia.
    + specialize (IH r (c + 1) s ltac:(lia) ltac:(simpl in Hmax; lia)).
      destruct IH as (Hm & Hs & Hd). repeat split; auto.
Qed.

Lemma scanMaze_books lines : forall r s,
  0 <= numDots s ->
  numDots s + Z.of_nat (countCells "." lines) <= Int.max_int ->
  maze (scanMaze r lines s) = maze s /\
  score (scanMaze r lines s) = score s /\
  numDots (scanMaze r lines s) = numDots s + Z.of_nat (countCells "." lines).
Proof.
  induction lines as [|line lines IH]; intros r s Hpos Hmax.
  - simpl. repeat split; lia.
  - cbn [scanMaze countCells] in *.
    pose proof (scanLine_books line r 0 s ltac:(lia) ltac:(lia))
      as (Hm & Hs & Hd).
    pose proof (IH (r + 1) (scanLine r 0 line s) ltac:(lia) ltac:(lia))
      as (Hm' & Hs' & Hd').
    repeat split; try congruence. lia.
Qed.

Lemma boot_accounted lines secs :
  representable lines -> worth lines <= Int.max_int ->
  accounted (worth lines) (boot lines secs).
Proof.
  intros Hrep Hworth.
  assert (Hdots : dotCells lines <= Int.max_int).
  { unfold worth, dotCells, pillCells in *. lia. }
  pose proof (scanMaze_books lines 0 (set_maze lines initial)
                ltac:(simpl; lia) ltac:(exact Hdots)) as (Hm & Hs & Hd).
  unfold boot, loadMaze. simpl.
  split; simpl; rewrite ?Hm, ?Hs, ?Hd; simpl; try assumption; try lia.
  reflexivity.
Qed.

(** In every state the program reaches the books are in order. *)
Lemma reachable_accounted lines secs ls s :
  representable lines -> worth lines <= Int.max_int ->
  exec ls (boot lines secs) = Done s -> accounted (worth lines) s.
Proof.
  intros Hrep Hworth Hrun.
  eapply exec_accounted; [|exact Hrun]. now apply boot_accounted.
Qed.

(** No Dot cell is left exactly when none is counted. *)
Lemma countByte_zero b line :
  countByte b line = 0%nat <->
  forall n, String.get n line <> Some b.
Proof.
  induction line as [|a line IH]; simpl.
  - split; [intros _ n; destruct n; discriminate|reflexivity].
  - destruct (Ascii.eqb_spec a b) as [->|Hab]; split.
    + discriminate.
    + intros H. now specialize (H 0%nat).
    + intros H [|n]; [congruence|]. simpl in H. now apply IH.
    + intros H. simpl. apply IH. intros n. exact (H (S n)).
Qed.

Lemma countCells_zero b m :
  countCells b m = 0%nat <-> forall r c, cell m r c <> Done b.
Proof.
  induction m as [|line m IH]; simpl.
  - split; [|reflexivity]. intros _ r c. unfold cell, index.
    destruct (r <? 0); [discriminate|]. now rewrite lookup_nil.
  - split.
    + intros H r c Hcell.
      assert (Hl : countByte b line = 0%nat) by lia.
      assert (Hm : countCells b m = 0%nat) by lia.
      apply cell_done in Hcell as (l & Hline & Hch).
      apply index_done in Hline as [Hr Hline].
      apply byteAt_done in Hch as [Hc Hch].
      destruct (Z.to_nat r) as [|k] eqn:Hk; simpl in Hline.
      * inversion Hline; subst. rewrite countByte_zero in Hl. now apply Hl in Hch.
      * rewrite IH in Hm. apply (Hm (Z.of_nat k) c).
        apply cell_done. exists l. split.
        -- apply index_done. split; [lia|]. now rewrite Nat2Z.id.
        -- apply byteAt_done. auto.
    + intros H.
      assert (Hl : countByte b line = 0%nat).
      { apply countByte_zero. intros n Hn. apply (H 0 (Z.of_nat n)).
        apply cell_done. exists line. split; [reflexivity|].
        apply byteAt_done. split; [lia|]. now rewrite Nat2Z.id. }
      assert (Hm : countCells b m = 0%nat).
      { apply IH. intros r c Hcell.
        apply cell_done in Hcell as (l & Hline & Hch).
        apply index_done in Hline as [Hr Hline].
        apply (H (r + 1) c). apply cell_done. exists l. split; [|exact Hch].
        apply index_done. split; [lia|].
        replace (Z.to_nat (r + 1)) with (S (Z.to_nat r)) by lia. exact Hline. }
      lia.
Qed.

(** ** A tick can be played *)

Lemma blanked_rectangular m r c line ch :
  rectangular m -> index m r = Done line -> byteAt line c = Done ch ->
  let m' := <[Z.to_nat r := blanked line (Z.to_nat c)]> m in
  rectangular m' /\ rowCount m' = rowCount m /\ colCount m' = colCount m.
Proof.
  intros Hrect Hline Hch m'.
  pose proof (rectangular_row _ _ _ Hrect Hline) as Hlen.
  destruct Hrect as (Hall & Hrows & Hcols).
  apply index_done in Hline as [Hr Hline].
  apply byteAt_done in Hch as [Hc Hch].
  pose proof (blanked_length _ _ _ Hch) as Hsame.
  assert (Hcol : colCount m' = colCount m).
  { unfold m'. destruct m as [|line0 rest]; [reflexivity|].
    destruct (Z.to_nat r) as [|k]; simpl in *; [|reflexivity].
    inversion Hline; subst. unfold slen. now rewrite Hsame. }
  assert (Hrow : rowCount m' = rowCount m).
  { unfold m', rowCount, len. now rewrite length_insert. }
  repeat split; try congruence.
  rewrite Hcol. apply Forall_insert; [exact Hall|].
  unfold slen in *. now rewrite Hsame.
Qed.

Lemma landed_frame r c line ch s :
  lives (landed r c line ch s) = lives s /\
  ghosts (landed r c line ch s) = ghosts s /\
  ghostStatusMx (landed r c line ch s) = ghostStatusMx s /\
  sending (landed r c line ch s) = sending s /\
  out (landed r c line ch s) = out s /\
  player (landed r c line ch s) = moveTo r c (player s).
Proof.
  unfold landed. destruct (Ascii.eqb ch "."); [repeat split|].
  destruct (Ascii.eqb ch "X"); repeat split.
Qed.

Lemma landed_grid r c line ch s :
  rectangular (maze s) ->
  index (maze s) r = Done line -> byteAt line c = Done ch ->
  rectangular (maze (landed r c line ch s)) /\
  rowCount (maze (landed r c line ch s)) = rowCount (maze s) /\
  colCount (maze (landed r c line ch s)) = colCount (maze s).
Proof.
  intros Hrect Hline Hch.
  pose proof (blanked_rectangular _ _ _ _ _ Hrect Hline Hch) as Hb.
  unfold landed. destruct (Ascii.eqb ch "."); [exact Hb|].
  destruct (Ascii.eqb ch "X"); [exact Hb|]. auto.
Qed.

(** A command that is not a direction leaves the player in place. *)
Lemma makeMove_other m r c dir :
  rectangular m -> inBounds m r c -> ~ isDirection dir ->
  makeMove m r c dir = Done (r, c).
Proof.
  intros Hrect Hin Hdir.
  destruct (makeMove_in_bounds m r c dir Hrect Hin)
    as (r' & c' & ch & Hw & _ & _ & Hmove).
  rewrite wraparound_other in Hw by assumption. inversion Hw; subst.
  rewrite Hmove. now destruct (Ascii.eqb ch "#").
Qed.

Lemma moveEach_total m gs : forall draws,
  rectangular m -> Forall (fun g => onGrid m (position g)) gs ->
  exists gs',
    moveEach m gs draws = Done gs' /\ length gs' = length gs /\
    Forall (fun g => onGrid m (position g)) gs'.
Proof.
  induction gs as [|g gs IH]; intros draws Hrect Hall.
  - exists []. repeat split. constructor.
  - inversion Hall as [|? ? Hg Hgs]; subst.
    destruct (makeMove_stays m _ _ (drawDirection (hd 0 draws)) Hrect Hg)
      as (r' & c' & Hmove & Hin').
    destruct (IH (tl draws) Hrect Hgs) as (gs' & Hrest & Hlen & Hall').
    eexists. cbn [moveEach]. rewrite Hmove. simpl. rewrite Hrest. simpl.
    repeat split; [simpl; now rewrite Hlen|].
    constructor; [exact Hin'|exact Hall'].
Qed.

(** ** Collisions *)

Lemma setStatus_length st gs i : length (setStatus st gs i) = length gs.
Proof.
  unfold setStatus. destruct (gs !! i); [apply length_insert|reflexivity].
Qed.

Lemma setStatus_lookup st gs i g :
  gs !! i = Some g ->
  setStatus st gs i !! i = Some (mkGhost (position g) st).
Proof.
  intros Hg. unfold setStatus. rewrite Hg.
  apply list_lookup_insert_eq. eapply lookup_lt_Some, Hg.
Qed.

Lemma setStatus_other st gs i j :
  i <> j -> setStatus st gs i !! j = gs !! j.
Proof.
  intros Hij. unfold setStatus. destruct (gs !! i); [|reflexivity].
  now apply list_lookup_insert_ne.
Qed.

(** The ghost that the player meets is blue: it is eaten. *)
Lemma collideGhost_blue i s g :
  ghosts s !! i = Some g -> status g = GhostStatusBlue ->
  row (player s) = row (position g) -> col (player s) = col (position g) ->
  ghostStatusMx s = 0%nat ->
  exists s',
    collideGhost i s = Done s' /\
    ghosts s' =
      <[i := mkGhost (moveTo (startRow (position g)) (startCol (position g))
                        (position g)) GhostStatusNormal]> (ghosts s) /\
    ledger s' = ledger s /\ lives s' = lives s /\ player s' = player s /\
    ghostStatusMx s' = 0%nat /\ procs s' = procs s /\ out s' = out s.
Proof.
  intros Hg Hblue Hr Hc Hfree.
  unfold collideGhost, collideHead. rewrite Hg, Hr, Hc, !Z.eqb_refl, Hblue.
  simpl. unfold collideEat, updateGhosts. simpl. rewrite Hfree. simpl.
  rewrite (setStatus_lookup _ _ _ _ Hg). simpl.
  eexists. split; [reflexivity|]. simpl.
  repeat split; try assumption.
  unfold setStatus. rewrite Hg. now rewrite list_insert_insert_eq.
Qed.

(** The ghost that the player meets is not blue: a life is lost. *)
Lemma collideGhost_normal i s g :
  ghosts s !! i = Some g -> status g = GhostStatusNormal ->
  row (player s) = row (position g) -> col (player s) = col (position g) ->
  exists s',
    collideGhost i s = Done s' /\
    lives s' = Int.sub (lives s) 1 /\ ghosts s' = ghosts s /\
    ledger s' = ledger s /\ procs s' = procs s /\
    (lives s' = 0 ->
     ghostStatusMx s' = S (ghostStatusMx s) /\ player s' = player s /\
     out s' = out s) /\
    (lives s' <> 0 ->
     ghostStatusMx s' = ghostStatusMx s /\
     player s' = moveTo (startRow (player s)) (startRow (player s)) (player s) /\
     out s' = ESleep 1000 :: EDeath (row (player s)) (col (player s)) :: out s).
Proof.
  intros Hg Hnormal Hr Hc.
  unfold collideGhost, collideHead. rewrite Hg, Hr, Hc, !Z.eqb_refl, Hnormal.
  simpl. destruct (Z.eqb_spec (Int.sub (lives s) 1) 0) as [Hz|Hnz]; simpl.
  - eexists. split; [reflexivity|]. simpl. repeat split; auto; contradiction.
  - eexists. split; [reflexivity|]. simpl. rewrite Hr, Hc.
    repeat split; auto; contradiction.
Qed.

(** The player is elsewhere: nothing happens. *)
Lemma collideGhost_apart i s g :
  ghosts s !! i = Some g ->
  (row (player s) =? row (position g)) && (col (player s) =? col (position g))
    = false ->
  collideGhost i s = Done s.
Proof.
  intros Hg Hfar. unfold collideGhost, collideHead. rewrite Hg, Hfar.
  reflexivity.
Qed.

(** Once the lives are used up no collision takes a read lock for good. *)
Lemma collideGhost_dead i s :
  (i < length (ghosts s))%nat -> ghostStatusMx s = 0%nat ->
  Int.min_int < lives s <= 0 ->
  exists s',
    collideGhost i s = Done s' /\ ghostStatusMx s' = 0%nat /\
    lives s - 1 <= lives s' <= lives s /\
    length (ghosts s') = length (ghosts s).
Proof.
  intros Hi Hfree Hlives.
  destruct (lookup_lt_is_Some_2 _ _ Hi) as [g Hg].
  destruct ((row (player s) =? row (position g)) &&
            (col (player s) =? col (position g))) eqn:Hnear.
  - apply andb_true_iff in Hnear as [Hr Hc].
    apply Z.eqb_eq in Hr, Hc.
    destruct (status g) eqn:Hst.
    + destruct (collideGhost_normal i s g Hg Hst Hr Hc)
        as (s' & Hrun & Hl & Hgs & _ & _ & _ & Hnz).
      assert (Hfit : Int.sub (lives s) 1 = lives s - 1).
      { apply sub_fits, fits_range. unfold Int.min_int in *. lia. }
      rewrite Hfit in Hl.
      destruct Hnz as (Hmx & _); [lia|].
      exists s'. repeat split; try congruence; lia.
    + destruct (collideGhost_blue i s g Hg Hst Hr Hc Hfree)
        as (s' & Hrun & Hgs & _ & Hl & _ & Hmx & _).
      exists s'. repeat split; try assumption; try lia.
      rewrite Hgs. apply length_insert.
  - exists s. rewrite (collideGhost_apart i s g Hg Hnear).
    repeat split; auto; lia.
Qed.

Lemma collideFrom_dead sel : forall s,
  Forall (fun i => (i < length (ghosts s))%nat) sel ->
  ghostStatusMx s = 0%nat ->
  Int.min_int + len sel < lives s <= 0 ->
  exists s', collideFrom sel s = Done s' /\ lives s' <= 0.
Proof.
  induction sel as [|i sel IH]; intros s Hsel Hfree Hlives.
  - exists s. split; [reflexivity|lia].
  - inversion Hsel as [|? ? Hi Hrest]; subst.
    unfold len in Hlives. simpl length in Hlives.
    destruct (collideGhost_dead i s Hi Hfree) as (s1 & Hrun & Hfree1 & Hl1 & Hlen1).
    { lia. }
    destruct (IH s1) as (s' & Hrun' & Hl').
    + rewrite Hlen1. exact Hrest.
    + exact Hfree1.
    + unfold len. lia.
    + exists s'. cbn [collideFrom]. rewrite Hrun. simpl. auto.
Qed.

(** ** The end of a tick, and the tick in which Escape arrives *)

Lemma gameOver_spec s : gameOver s = true <-> numDots s = 0 \/ lives s <= 0.
Proof.
  unfold gameOver. rewrite orb_true_iff, Z.eqb_eq, Z.leb_le. reflexivity.
Qed.

Lemma checkGameOver_spec s :
  exists s',
    checkGameOver s = (s', gameOver s) /\
    lives s' = lives s /\ numDots s' = numDots s /\ score s' = score s /\
    mainpc s' = mainpc s /\
    (gameOver s = false -> out s' = ESleep 150 :: out s).
Proof.
  unfold checkGameOver. destruct (gameOver s).
  - destruct (lives s =? 0); eexists; (split; [reflexivity|]);
      repeat split; discriminate.
  - eexists. split; [reflexivity|]. repeat split.
Qed.

Lemma printScreen_spec s :
  exists s',
    printScreen s = Done s' /\
    lives s' = lives s /\ numDots s' = numDots s /\ score s' = score s /\
    mainpc s' = mainpc s /\ ghostStatusMx s' = ghostStatusMx s /\
    out s' = EScreen :: out s.
Proof. eexists. split; [reflexivity|]. repeat split. Qed.

Lemma seq_below n : Forall (fun i => (i < n)%nat) (seq 0 n).
Proof. apply Forall_forall. intros i Hi. apply elem_of_seq in Hi. lia. Qed.

Lemma escape_is_no_direction : ~ isDirection "ESC".
Proof. unfold isDirection. intros [H|[H|[H|H]]]; discriminate. Qed.

Lemma tick_escape draws s rest :
  playable s -> sending s = "ESC"%string :: rest ->
  exists s1 s',
    handleInput "ESC" (set_sending rest s) = Done s1 /\ lives s1 = 0 /\
    tick draws s = Done (s', true) /\ lives s' <= 0.
Proof.
  intros [Hrect Hplayer Hghosts Hcount Hfree] Hsend.
  set (s0 := set_lives 0 (set_sending rest s)).
  (* the player does not move and looks at the cell it stands on *)
  pose proof (makeMove_other (maze s0) _ _ "ESC" Hrect Hplayer
                escape_is_no_direction) as Hmove.
  destruct (cell_in_bounds _ _ _ Hrect Hplayer) as [ch Hcell].
  apply cell_done in Hcell as (line & Hline & Hch).
  pose proof (movePlayer_lands "ESC" s0 _ _ line ch
                (rectangular_representable _ Hrect) Hmove Hline Hch) as Hland.
  set (s1 := landed (row (player s)) (col (player s)) line ch s0) in *.
  destruct (landed_frame (row (player s)) (col (player s)) line ch s0)
    as (Hl1 & Hg1 & Hmx1 & _).
  destruct (landed_grid (row (player s)) (col (player s)) line ch s0
              Hrect Hline Hch) as (Hrect1 & Hrows1 & Hcols1).
  fold s1 in Hl1, Hg1, Hmx1, Hrect1, Hrows1, Hcols1.
  (* the ghosts move *)
  assert (Hghosts1 : Forall (fun g => onGrid (maze s1) (position g)) (ghosts s1)).
  { rewrite Hg1. eapply Forall_impl; [exact Hghosts|].
    intros g. unfold onGrid, inBounds. rewrite Hrows1, Hcols1. auto. }
  destruct (moveEach_total (maze s1) (ghosts s1) draws Hrect1 Hghosts1)
    as (gs' & Hmoved & Hlen & _).
  (* the collisions cost lives that are not there any more *)
  set (s2 := set_ghosts gs' s1).
  destruct (collideFrom_dead (allGhosts s2) s2) as (s3 & Hcoll & Hl3).
  { apply seq_below. }
  { change (ghostStatusMx s1 = 0%nat). rewrite Hmx1. exact Hfree. }
  { change (lives s2) with (lives s1). rewrite Hl1.
    unfold allGhosts, len in *. rewrite length_seq.
    change (length (ghosts s2)) with (length gs'). rewrite Hlen, Hg1.
    change (ghosts s0) with (ghosts s). change (lives s0) with 0.
    unfold Int.min_int, Int.max_int in *. lia. }
  destruct (printScreen_spec s3) as (s4 & Hprint & Hl4 & _).
  destruct (checkGameOver_spec s4) as (s5 & Hcheck & Hl5 & _).
  assert (Hover : gameOver s4 = true).
  { apply gameOver_spec. right. lia. }
  exists s1, s5. split; [exact Hland|]. split; [exact Hl1|]. split; [|lia].
  unfold tick, selectInput. rewrite Hsend.
  change (handleInput "ESC" (set_sending rest s)) with (movePlayer "ESC" s0).
  rewrite Hland, bind_now. unfold moveGhosts. rewrite Hmoved, !bind_now.
  fold s2. unfold collisions. rewrite Hcoll, bind_now, Hprint, bind_now.
  rewrite Hcheck, Hover. reflexivity.
Qed.

(** ** What the other goroutines leave to the game loop *)

Lemma updateGhosts_loop sel st s s' :
  updateGhosts sel st s = Done s' -> loopView s' = loopView s.
Proof. unfold updateGhosts. intros H. returned. reflexivity. Qed.

Lemma stopTimer_loop t s : loopView (stopTimer t s) = loopView s.
Proof. unfold stopTimer. destruct (timers s !! t); reflexivity. Qed.

Lemma procStep_loop j s s' :
  procStep j s = Done s' -> loopView s' = loopView s.
Proof.
  unfold procStep. intros H. returned;
    try match goal with H : updateGhosts _ _ _ = _ |- _ =>
      apply updateGhosts_loop in H; rewrite <- H end;
    try reflexivity.
  - destruct (pillTimer s); [apply stopTimer_loop|reflexivity].
  - apply stopTimer_loop.
Qed.

Lemma fireStep_loop t s s' :
  fireStep t s = Done s' -> loopView s' = loopView s.
Proof. unfold fireStep. intros H. returned. reflexivity. Qed.

Lemma readerStep_loop buffer cnt err s s' :
  readerStep buffer cnt err s = Done s' -> loopView s' = loopView s.
Proof. unfold readerStep. intros H. returned. reflexivity. Qed.

Lemma collideNext_runs i s : collideNext i s <> PExit.
Proof. unfold collideNext. destruct (i <? length (ghosts s))%nat; discriminate. Qed.

(** The step of the game loop that ends a tick. *)
Lemma mainStep_screen draws s :
  mainpc s = PScreen ->
  exists s',
    mainStep draws s = Done s' /\
    numDots s' = numDots s /\ lives s' = lives s /\ score s' = score s /\
    (gameOver s = true -> mainpc s' = PExit) /\
    (gameOver s = false ->
     mainpc s' = PSelect /\ out s' = ESleep 150 :: EScreen :: out s).
Proof.
  intros Hpc.
  destruct (printScreen_spec s) as (s1 & Hprint & Hl1 & Hd1 & Hs1 & _ & _ & Ho1).
  destruct (checkGameOver_spec s1) as (s2 & Hcheck & Hl2 & Hd2 & Hs2 & _ & Ho2).
  assert (Hsame : gameOver s1 = gameOver s).
  { unfold gameOver. now rewrite Hl1, Hd1. }
  rewrite Hsame in *.
  unfold mainStep. rewrite Hpc, Hprint, bind_now, Hcheck.
  eexists. split; [reflexivity|]. simpl.
  split; [congruence|]. split; [congruence|]. split; [congruence|]. split.
  - intros ->. reflexivity.
  - intros Hgo. rewrite Hgo, (Ho2 Hgo). split; congruence.
Qed.

(** ** Repainting the ghosts *)

Lemma repaint_lookup st sel : forall gs j,
  foldl (setStatus st) gs sel !! j =
  if bool_decide (j ∈ sel) then repaint st <$> gs !! j else gs !! j.
Proof.
  induction sel as [|i sel IH]; intros gs j; [reflexivity|].
  cbn [foldl]. rewrite IH.
  destruct (decide (i = j)) as [->|Hij].
  - rewrite (bool_decide_eq_true_2 (j ∈ j :: sel)) by left.
    destruct (gs !! j) as [g|] eqn:Hg.
    + rewrite (setStatus_lookup _ _ _ _ Hg). simpl.
      now destruct (bool_decide (j ∈ sel)).
    + unfold setStatus. rewrite !Hg. simpl.
      now destruct (bool_decide (j ∈ sel)).
  - rewrite setStatus_other by assumption.
    destruct (bool_decide (j ∈ sel)) eqn:Hin.
    + apply bool_decide_eq_true in Hin.
      rewrite bool_decide_eq_true_2; [reflexivity|now right].
    + apply bool_decide_eq_false in Hin.
      rewrite bool_decide_eq_false_2; [reflexivity|].
      intros Hin'. apply elem_of_cons in Hin' as [->|?]; contradiction.
Qed.

Lemma repaint_all st gs :
  foldl (setStatus st) gs (seq 0 (length gs)) = repaint st <$> gs.
Proof.
  apply list_eq. intros j. rewrite repaint_lookup, list_lookup_fmap.
  destruct (gs !! j) as [g|] eqn:Hg; [|now destruct (bool_decide _)].
  rewrite bool_decide_eq_true_2; [reflexivity|].
  apply elem_of_seq. apply lookup_lt_Some in Hg. lia.
Qed.

(** [updateGhosts(ghosts, st)] when no read lock is held. *)
Lemma updateGhosts_all st s :
  ghostStatusMx s = 0%nat ->
  updateGhosts (allGhosts s) st s = Done (set_ghosts (repaint st <$> ghosts s) s).
Proof.
  intros Hfree. unfold updateGhosts, allGhosts. rewrite Hfree.
  now rewrite repaint_all.
Qed.


(** ** At most one timer runs *)

Lemma movePlayer_timers dir s s' :
  movePlayer dir s = Done s' -> timerView s' = timerView s.
Proof.
  intros Hrun. unfold movePlayer in Hrun.
  apply bind_done in Hrun as ([r c] & _ & Hrun).
  apply bind_done in Hrun as (ch & _ & Hrun).
  destruct (Ascii.eqb ch ".").
  - unfold removeDot in Hrun. returned. reflexivity.
  - destruct (Ascii.eqb ch "X"); [|now inversion Hrun].
    unfold removeDot in Hrun. returned. reflexivity.
Qed.

Lemma selectInput_timers s s' :
  selectInput s = Done s' -> timerView s' = timerView s.
Proof.
  unfold selectInput, handleInput. intros H.
  destruct (sending s) as [|inp rest]; [now inversion H|].
  apply movePlayer_timers in H. rewrite H.
  destruct (String.eqb inp "ESC"); reflexivity.
Qed.

Lemma updateGhosts_timers sel st s s' :
  updateGhosts sel st s = Done s' -> timerView s' = timerView s.
Proof. unfold updateGhosts. intros H. returned. reflexivity. Qed.

Lemma mainStep_timers draws s s' :
  mainStep draws s = Done s' -> timerView s' = timerView s.
Proof.
  unfold mainStep. intros H. destruct (mainpc s).
  - apply bind_done in H as (s1 & Hrun & [= <-]).
    apply selectInput_timers in Hrun. rewrite <- Hrun. reflexivity.
  - apply bind_done in H as (s1 & Hrun & [= <-]).
    unfold moveGhosts in Hrun. returned. reflexivity.
  - apply bind_done in H as ([s1 eat] & Hrun & [= <-]).
    unfold collideHead, RUnlock, RLock in Hrun.
    returned; simpl in *; returned; reflexivity.
  - apply bind_done in H as (s1 & Hrun & [= <-]).
    unfold collideEat in Hrun. returned.
    match goal with H : updateGhosts _ _ _ = _ |- _ =>
      apply updateGhosts_timers in H; rewrite <- H end.
    reflexivity.
  - apply bind_done in H as (s1 & Hrun & H).
    unfold printScreen, RUnlock, RLock in Hrun. simpl in Hrun.
    injection Hrun as <-.
    unfold checkGameOver in H.
    destruct (gameOver _); [destruct (lives _ =? 0)|];
      injection H as <-; reflexivity.
  - discriminate.
Qed.

Lemma stopTimer_lookup t s t' tm' :
  timers (stopTimer t s) !! t' = Some tm' ->
  exists tm, timers s !! t' = Some tm /\
    (active tm' = true -> active tm = true /\ t' <> t).
Proof.
  unfold stopTimer. destruct (timers s !! t) as [tm|] eqn:Ht.
  2: { intros H. exists tm'. split; [exact H|].
       intros Ha. split; [exact Ha|congruence]. }
  simpl. destruct (decide (t = t')) as [->|Hne].
  - rewrite list_lookup_insert_eq by (eapply lookup_lt_Some, Ht).
    intros [= <-]. exists tm. split; [exact Ht|]. simpl. discriminate.
  - rewrite list_lookup_insert_ne by exact Hne. intros H.
    exists tm'. split; [exact H|]. intros Ha. split; [exact Ha|congruence].
Qed.

Lemma stopTimer_length t s :
  length (timers (stopTimer t s)) = length (timers s).
Proof.
  unfold stopTimer. destruct (timers s !! t); [|reflexivity].
  simpl. apply length_insert.
Qed.

Lemma procStep_oneTimer j s s' :
  oneTimer s -> procStep j s = Done s' -> oneTimer s'.
Proof.
  unfold oneTimer. intros Hinv Hrun t tm Ht Ha.
  unfold procStep in Hrun.
  destruct (procs s !! j) as [pc|]; [|discriminate].
  destruct pc.
  - destruct (pillMx s); [discriminate|]. injection Hrun as <-.
    exact (Hinv t tm Ht Ha).
  - apply bind_done in Hrun as (s1 & Hup & [= <-]).
    pose proof (updateGhosts_timers _ _ _ _ Hup) as [= Ht1 Hp1].
    simpl in *. rewrite Hp1. apply (Hinv t tm); [congruence|exact Ha].
  - injection Hrun as <-. simpl in *.
    destruct (pillTimer s) as [t0|] eqn:Hp.
    + rewrite stopTimer_length.
      apply lookup_app_Some in Ht as [Ht|[Hge Ht]].
      * apply stopTimer_lookup in Ht as (tm0 & Ht0 & Hact).
        destruct (Hact Ha) as [Ha0 Hne].
        specialize (Hinv t tm0 Ht0 Ha0). congruence.
      * rewrite stopTimer_length in *.
        apply list_lookup_singleton_Some in Ht as [Hz _].
        f_equal. lia.
    + apply lookup_app_Some in Ht as [Ht|[Hge Ht]].
      * specialize (Hinv t tm Ht Ha). congruence.
      * apply list_lookup_singleton_Some in Ht as [Hz _]. f_equal. lia.
  - injection Hrun as <-. exact (Hinv t tm Ht Ha).
  - destruct (pillTimer s) eqn:Hp; [|discriminate]. injection Hrun as <-.
    simpl. rewrite Hp. exact (Hinv t tm Ht Ha).
  - destruct (timers s !! t0) as [tm0|] eqn:Ht0; [|discriminate].
    destruct (fired tm0); [|discriminate]. injection Hrun as <-.
    simpl in *. destruct (decide (t0 = t)) as [->|Hne].
    + rewrite list_lookup_insert_eq in Ht by (eapply lookup_lt_Some, Ht0).
      injection Ht as <-. simpl in Ha. exact (Hinv t tm0 Ht0 Ha).
    + rewrite list_lookup_insert_ne in Ht by exact Hne.
      exact (Hinv t tm Ht Ha).
  - destruct (pillMx s); [discriminate|]. injection Hrun as <-.
    exact (Hinv t tm Ht Ha).
  - destruct (pillTimer s) as [t0|] eqn:Hp; [|discriminate].
    injection Hrun as <-. simpl in *.
    apply stopTimer_lookup in Ht as (tm0 & Ht0 & Hact).
    destruct (Hact Ha) as [Ha0 Hne].
    specialize (Hinv t tm0 Ht0 Ha0). congruence.
  - apply bind_done in Hrun as (s1 & Hup & [= <-]).
    pose proof (updateGhosts_timers _ _ _ _ Hup) as [= Ht1 Hp1].
    simpl in *. rewrite Hp1. apply (Hinv t tm); [congruence|exact Ha].
  - injection Hrun as <-. exact (Hinv t tm Ht Ha).
  - discriminate.
Qed.

Lemma fireStep_oneTimer t s s' :
  oneTimer s -> fireStep t s = Done s' -> oneTimer s'.
Proof.
  unfold oneTimer, fireStep. intros Hinv Hrun t' tm' Ht' Ha'.
  destruct (timers s !! t) as [tm|] eqn:Ht; [|discriminate].
  destruct (active tm); [|discriminate]. injection Hrun as <-.
  simpl in *. destruct (decide (t = t')) as [->|Hne].
  - rewrite list_lookup_insert_eq in Ht' by (eapply lookup_lt_Some, Ht).
    injection Ht' as <-. discriminate.
  - rewrite list_lookup_insert_ne in Ht' by exact Hne.
    exact (Hinv t' tm' Ht' Ha').
Qed.

Lemma step_oneTimer l s s' : oneTimer s -> step l s = Done s' -> oneTimer s'.
Proof.
  intros Hinv Hrun. destruct l as [draws|buffer cnt err|j|t]; simpl in Hrun.
  - apply mainStep_timers in Hrun. injection Hrun as Ht Hp.
    unfold oneTimer in *. rewrite Ht, Hp. exact Hinv.
  - unfold readerStep in Hrun. destruct (sending s); [|discriminate].
    injection Hrun as <-. exact Hinv.
  - eapply procStep_oneTimer; eassumption.
  - eapply fireStep_oneTimer; eassumption.
Qed.

(** In every state the program reaches, a timer that has neither fired
    nor been stopped is the one [pillTimer] points to: no two timers
    run at once. *)
Lemma reachable_oneTimer s : reachable s -> oneTimer s.
Proof.
  intros (lines & secs & ls & Hrun). revert Hrun.
  assert (Hstart : oneTimer (boot lines secs)).
  { intros t tm Ht. unfold boot, loadMaze in Ht. simpl in Ht.
    assert (Hnone : forall (m : list string) r s0,
              timers s0 = [] -> timers (scanMaze r m s0) = []).
    { induction m as [|line m IH]; intros r s0 H0; [exact H0|].
      simpl. apply IH. revert s0 H0. generalize 0.
      induction line as [|a line IHl]; intros c s0 H0; [exact H0|].
      simpl. apply IHl.
      destruct (Ascii.eqb a "P"); [exact H0|].
      destruct (Ascii.eqb a "G"); [exact H0|].
      destruct (Ascii.eqb a "."); exact H0. }
    rewrite Hnone in Ht by reflexivity. discriminate. }
  revert Hstart. generalize (boot lines secs). clear lines secs. revert s.
  induction ls as [|l ls IH]; intros s s0 Hinv Hrun; simpl in Hrun.
  - now injection Hrun as <-.
  - apply bind_done in Hrun as (s1 & Hstep & Hrest).
    eapply IH; [|exact Hrest]. eapply step_oneTimer; eassumption.
Qed.

(** ** A blue ghost is eaten whatever the other goroutines do meanwhile *)

Lemma updateGhosts_bodies sel st s s' :
  updateGhosts sel st s = Done s' ->
  position <$> ghosts s' = position <$> ghosts s /\
  ghostStatusMx s' = ghostStatusMx s.
Proof.
  unfold updateGhosts. intros H.
  destruct (ghostStatusMx s) eqn:Hmx; [|discriminate].
  injection H as <-. simpl. split; [|exact Hmx].
  apply list_eq. intros j. rewrite !list_lookup_fmap, repaint_lookup.
  destruct (bool_decide (j ∈ sel)); [|reflexivity].
  now destruct (ghosts s !! j).
Qed.

Lemma stopTimer_bodies t s :
  ghosts (stopTimer t s) = ghosts s /\
  ghostStatusMx (stopTimer t s) = ghostStatusMx s.
Proof. unfold stopTimer. destruct (timers s !! t); split; reflexivity. Qed.

Lemma procStep_bodies j s s' :
  procStep j s = Done s' ->
  position <$> ghosts s' = position <$> ghosts s /\
  ghostStatusMx s' = ghostStatusMx s.
Proof.
  unfold procStep. intros H.
  destruct (procs s !! j) as [pc|]; [|discriminate].
  destruct pc.
  - destruct (pillMx s); [discriminate|]. injection H as <-. now split.
  - apply bind_done in H as (s1 & Hup & [= <-]).
    exact (updateGhosts_bodies _ _ _ _ Hup).
  - injection H as <-. simpl.
    destruct (pillTimer s); [|now split].
    destruct (stopTimer_bodies n s) as [-> ->]. now split.
  - injection H as <-. now split.
  - destruct (pillTimer s); [|discriminate]. injection H as <-. now split.
  - destruct (timers s !! t) as [tm|]; [|discriminate].
    destruct (fired tm); [|discriminate]. injection H as <-. now split.
  - destruct (pillMx s); [discriminate|]. injection H as <-. now split.
  - destruct (pillTimer s); [|discriminate]. injection H as <-. simpl.
    destruct (stopTimer_bodies n s) as [-> ->]. now split.
  - apply bind_done in H as (s1 & Hup & [= <-]).
    exact (updateGhosts_bodies _ _ _ _ Hup).
  - injection H as <-. now split.
  - discriminate.
Qed.

(** What a step of another goroutine leaves as it was. *)
Lemma aside_frame l s s' :
  aside l -> step l s = Done s' ->
  loopView s' = loopView s /\ ledger s' = ledger s /\
  ghostStatusMx s' = ghostStatusMx s /\
  position <$> ghosts s' = position <$> ghosts s.
Proof.
  intros Hl Hrun. destruct l as [draws|buffer cnt err|j|t]; simpl in *.
  - contradiction.
  - split; [eapply readerStep_loop, Hrun|].
    split; [eapply readerStep_ledger, Hrun|].
    unfold readerStep in Hrun. destruct (sending s); [|discriminate].
    injection Hrun as <-. now split.
  - split; [eapply procStep_loop, Hrun|].
    split; [eapply procStep_ledger, Hrun|].
    destruct (procStep_bodies _ _ _ Hrun). now split.
  - split; [eapply fireStep_loop, Hrun|].
    split; [eapply fireStep_ledger, Hrun|].
    unfold fireStep in Hrun.
    destruct (timers s !! t) as [tm|]; [|discriminate].
    destruct (active tm); [|discriminate]. injection Hrun as <-. now split.
Qed.

Lemma aside_run ls : forall s s',
  Forall aside ls -> exec ls s = Done s' ->
  loopView s' = loopView s /\ ledger s' = ledger s /\
  ghostStatusMx s' = ghostStatusMx s /\
  position <$> ghosts s' = position <$> ghosts s.
Proof.
  induction ls as [|l ls IH]; intros s s' Hall Hrun; simpl in Hrun.
  - injection Hrun as <-. repeat split.
  - inversion Hall as [|? ? Hl Hls]; subst.
    apply bind_done in Hrun as (s1 & Hstep & Hrest).
    destruct (aside_frame _ _ _ Hl Hstep) as (H1 & H2 & H3 & H4).
    destruct (IH _ _ Hls Hrest) as (H1' & H2' & H3' & H4').
    repeat split; congruence.
Qed.

(** Between the release of the read lock (line 877) and the write
    (line 878) the other goroutines may run: the ghost is sent home as
    a Normal ghost all the same, and neither lives nor score change. *)
Lemma blue_ghost_eaten_meanwhile i s g ls s1 s2 :
  ghosts s !! i = Some g -> status g = GhostStatusBlue ->
  row (player s) = row (position g) -> col (player s) = col (position g) ->
  ghostStatusMx s = 0%nat ->
  collideHead i s = Done (s1, true) ->
  Forall aside ls -> exec ls s1 = Done s2 ->
  exists s' g',
    collideEat i s2 = Done s' /\ ghosts s' !! i = Some g' /\
    status g' = GhostStatusNormal /\
    position g' = moveTo (startRow (position g)) (startCol (position g))
                    (position g) /\
    lives s' = lives s /\ score s' = score s.
Proof.
  intros Hg Hblue Hr Hc Hfree Hhead Hall Hrun.
  unfold collideHead in Hhead.
  rewrite Hg, Hr, Hc, !Z.eqb_refl, Hblue in Hhead. simpl in Hhead.
  injection Hhead as <-.
  destruct (aside_run _ _ _ Hall Hrun) as (Hloop & Hledger & Hmx & Hpos).
  simpl in Hmx, Hpos.
  assert (Hg2 : exists g2, ghosts s2 !! i = Some g2 /\ position g2 = position g).
  { assert (H : (position <$> ghosts s2) !! i = Some (position g)).
    { rewrite Hpos, list_lookup_fmap, Hg. reflexivity. }
    rewrite list_lookup_fmap in H.
    destruct (ghosts s2 !! i) as [g2|]; [|discriminate].
    injection H as H. eauto. }
  destruct Hg2 as (g2 & Hg2 & Hsame).
  unfold collideEat, updateGhosts. rewrite Hmx, Hfree. rewrite bind_now.
  cbn [foldl]. cbn [ghosts set_ghosts].
  rewrite (setStatus_lookup _ _ _ _ Hg2).
  eexists _, _. split; [reflexivity|]. cbn [ghosts set_ghosts].
  split.
  { apply list_lookup_insert_eq. rewrite setStatus_length.
    eapply lookup_lt_Some, Hg2. }
  simpl. rewrite Hsame. repeat split.
  - unfold loopView in Hloop. simpl in Hloop. congruence.
  - unfold ledger in Hledger. simpl in Hledger. congruence.
Qed.

(** Proves that a maze given by its rows is rectangular. *)
Ltac rectangular_maze :=
  split; [repeat constructor | split; vm_compute; discriminate].

Ltac representable_maze :=
  split; [vm_compute; discriminate | repeat constructor; vm_compute; discriminate].

(** * The claims *)

(** C7. For every in-bounds position of a rectangular grid and each
    direction (the four directions, and any other command, which does
    not move), the wraparound step of [makeMove] yields a position
    within the bounds of the grid; and from any in-bounds position the
    step for Up followed by the step for Down, and the step for Left
    followed by the step for Right, come back to the position. *)
Theorem C7_wraparound_closure (m : list string) (r c : Z) (dir : string) :
  rectangular m -> inBounds m r c ->
  (exists r' c', wraparound m r c dir = Done (r', c') /\ inBounds m r' c') /\
  ('(r1, c1) ← wraparound m r c "UP"; wraparound m r1 c1 "DOWN") = Done (r, c) /\
  ('(r1, c1) ← wraparound m r c "LEFT"; wraparound m r1 c1 "RIGHT") = Done (r, c).
Proof.
  intros Hrect Hin. split; [apply wraparound_inBounds; assumption|].
  pose proof Hin as [Hr Hc]. split.
  - rewrite wraparound_up by assumption. simpl.
    rewrite wraparound_down; try assumption.
    + destruct (Z.eqb_spec r 0) as [->|Hr0].
      * now rewrite Z.eqb_refl.
      * destruct (Z.eqb_spec (r - 1) (rowCount m - 1)); [lia|].
        do 2 f_equal. lia.
    + split; [|exact Hc]. destruct (Z.eqb_spec r 0); lia.
  - rewrite wraparound_left by assumption. simpl.
    rewrite wraparound_right; try assumption.
    + destruct (Z.eqb_spec c 0) as [->|Hc0].
      * now rewrite Z.eqb_refl.
      * destruct (Z.eqb_spec (c - 1) (colCount m - 1)); [lia|].
        do 2 f_equal. lia.
    + split; [exact Hr|]. destruct (Z.eqb_spec c 0); lia.
Qed.

Lemma C7_wraparound_closure_witness :
  (exists r' c', wraparound lane 0 0 "UP" = Done (r', c') /\ inBounds lane r' c') /\
  ('(r1, c1) ← wraparound lane 0 0 "UP"; wraparound lane r1 c1 "DOWN")
    = Done (0, 0) /\
  ('(r1, c1) ← wraparound lane 0 0 "LEFT"; wraparound lane r1 c1 "RIGHT")
    = Done (0, 0).
Proof.
  apply (C7_wraparound_closure lane 0 0 "UP").
  - rectangular_maze.
  - vm_compute. repeat split; discriminate.
Defined.

(** C8. For every in-bounds position of a rectangular grid and every
    direction, [makeMove] returns the position unchanged when the cell
    at the wrapped candidate position is a wall, and the candidate
    position otherwise. *)
Theorem C8_wall_exclusion (m : list string) (r c : Z) (dir : string) :
  rectangular m -> inBounds m r c ->
  exists r' c' ch,
    wraparound m r c dir = Done (r', c') /\ cell m r' c' = Done ch /\
    (ch = "#"%char -> makeMove m r c dir = Done (r, c)) /\
    (ch <> "#"%char -> makeMove m r c dir = Done (r', c')).
Proof.
  intros Hrect Hin.
  destruct (makeMove_in_bounds m r c dir Hrect Hin)
    as (r' & c' & ch & Hw & _ & Hch & Hmove).
  exists r', c', ch. repeat split; try assumption.
  - intros ->. exact Hmove.
  - intros Hne. rewrite Hmove. now destruct (Ascii.eqb_spec ch "#").
Qed.

Lemma C8_wall_exclusion_witness :
  exists r' c' ch,
    wraparound lane 1 1 "UP" = Done (r', c') /\ cell lane r' c' = Done ch /\
    (ch = "#"%char -> makeMove lane 1 1 "UP" = Done (1, 1)) /\
    (ch <> "#"%char -> makeMove lane 1 1 "UP" = Done (r', c')).
Proof.
  apply (C8_wall_exclusion lane 1 1 "UP").
  - rectangular_maze.
  - vm_compute. repeat split; discriminate.
Defined.

(** C5. In every state the program reaches after it loaded a maze, the
    counter of remaining dots is the number of Dot cells present in the
    grid; it is never negative, and it is zero exactly when no Dot cell
    is left. When the player lands on a Dot the counter goes down by
    exactly 1 and the score up by 1; when the player lands on a Pill the
    counter is unchanged (and the score goes up by 10); in both cases
    the cell is blank afterwards and the counter is again the number of
    Dot cells. The maze is a slice of strings whose lengths are [int]s,
    and the score of the cleared maze is an [int]. *)
Theorem C5_dot_accounting
  (lines : list string) (secs : Z) (ls : list label) (s : state) :
  representable lines -> worth lines <= Int.max_int ->
  exec ls (boot lines secs) = Done s ->
  numDots s = dotCells (maze s) /\
  0 <= numDots s /\
  (numDots s = 0 <-> forall r c, cell (maze s) r c <> Done "."%char) /\
  forall dir r c ch,
    makeMove (maze s) (row (player s)) (col (player s)) dir = Done (r, c) ->
    cell (maze s) r c = Done ch ->
    exists s',
      movePlayer dir s = Done s' /\
      numDots s' = dotCells (maze s') /\
      (ch = "."%char ->
       numDots s' = numDots s - 1 /\ score s' = score s + 1 /\
       cell (maze s') r c = Done " "%char) /\
      (ch = "X"%char ->
       numDots s' = numDots s /\ score s' = score s + 10 /\
       cell (maze s') r c = Done " "%char) /\
      (ch <> "."%char -> ch <> "X"%char ->
       numDots s' = numDots s /\ score s' = score s /\ maze s' = maze s).
Proof.
  intros Hrep Hworth Hrun.
  pose proof (reachable_accounted _ _ _ _ Hrep Hworth Hrun) as Hacc.
  pose proof Hacc as [Hgrid Hdots Hscore Hpos Htotal].
  split; [exact Hdots|]. split; [rewrite Hdots; unfold dotCells; lia|].
  split.
  { rewrite Hdots. unfold dotCells. rewrite <- countCells_zero. lia. }
  intros dir r c ch Hmove Hcell.
  apply cell_done in Hcell as (line & Hline & Hch).
  pose proof (movePlayer_lands dir s r c line ch Hgrid Hmove Hline Hch) as Hrun'.
  pose proof (landed_accounted _ r c line ch s Hacc Hline Hch) as Hacc'.
  exists (landed r c line ch s). split; [exact Hrun'|].
  split; [exact (acc_dots _ _ Hacc')|].
  assert (Hblank : cell (<[Z.to_nat r := blanked line (Z.to_nat c)]> (maze s)) r c
                   = Done " "%char).
  { apply index_done in Hline as [Hr Hline].
    apply byteAt_done in Hch as [Hc Hch].
    apply cell_done. exists (blanked line (Z.to_nat c)). split.
    - apply index_done. split; [exact Hr|].
      apply list_lookup_insert_eq. eapply lookup_lt_Some, Hline.
    - apply byteAt_done. split; [exact Hc|]. eapply blanked_get, Hch. }
  assert (Hd := countCells_blanked "." (maze s) r c line ch Hline Hch
                  ltac:(discriminate)).
  assert (Hp := countCells_blanked "X" (maze s) r c line ch Hline Hch
                  ltac:(discriminate)).
  unfold worth, dotCells, pillCells in *.
  repeat split.
  - subst ch. unfold landed. simpl.
    change (Ascii.eqb "." ".") with true in Hd. cbv iota in Hd.
    apply sub_fits, fits_range. unfold Int.max_int in *. lia.
  - subst ch. unfold landed. simpl.
    change (Ascii.eqb "." ".") with true in Hd. cbv iota in Hd.
    apply add_fits, fits_range. unfold Int.max_int in *. lia.
  - subst ch. unfold landed. simpl. exact Hblank.
  - subst ch. reflexivity.
  - subst ch. unfold landed. simpl.
    change (Ascii.eqb "X" "X") with true in Hp. cbv iota in Hp.
    apply add_fits, fits_range. unfold Int.max_int in *. lia.
  - subst ch. unfold landed. simpl. exact Hblank.
  - unfold landed. destruct (Ascii.eqb_spec ch "."); [contradiction|].
    destruct (Ascii.eqb_spec ch "X"); [contradiction|]. reflexivity.
  - unfold landed. destruct (Ascii.eqb_spec ch "."); [contradiction|].
    destruct (Ascii.eqb_spec ch "X"); [contradiction|]. reflexivity.
  - unfold landed. destruct (Ascii.eqb_spec ch "."); [contradiction|].
    destruct (Ascii.eqb_spec ch "X"); [contradiction|]. reflexivity.
Qed.

Lemma C5_dot_accounting_witness :
  representable lane /\ worth lane <= Int.max_int /\
  exists s,
    exec [pressed "C"; LMain []] (boot lane 10) = Done s /\
    numDots s = dotCells (maze s) /\ 0 <= numDots s.
Proof.
  assert (H1 : representable lane) by representable_maze.
  assert (H2 : worth lane <= Int.max_int) by (vm_compute; discriminate).
  split; [exact H1|]. split; [exact H2|].
  eexists. split; [vm_compute; reflexivity|].
  match goal with |- numDots ?s = _ /\ _ =>
    pose proof (C5_dot_accounting lane 10 [pressed "C"; LMain []] s H1 H2
                  eq_refl) as (Hd & Hp & _)
  end.
  split; [exact Hd|exact Hp].
Defined.

(** The game loop cannot take the write lock while a read lock is
    held, and it is the only goroutine that releases read locks. *)
Lemma eat_waits i draws s :
  mainpc s = PEat i -> ghostStatusMx s <> 0%nat -> mainStep draws s = Blocks.
Proof.
  intros Hpc Hheld. unfold mainStep. rewrite Hpc.
  unfold collideEat, updateGhosts.
  destruct (ghostStatusMx s); [contradiction|reflexivity].
Qed.

Lemma eat_waits_for_ever i ls : forall s s',
  mainpc s = PEat i -> ghostStatusMx s <> 0%nat -> exec ls s = Done s' ->
  Forall aside ls /\ loopView s' = loopView s /\
  ghostStatusMx s' = ghostStatusMx s.
Proof.
  induction ls as [|l ls IH]; intros s s' Hpc Hheld Hrun; cbn [exec] in Hrun.
  - injection Hrun as <-. repeat split. constructor.
  - apply bind_done in Hrun as (s1 & Hstep & Hrest).
    assert (Hl : aside l).
    { destruct l as [draws| | |]; try exact I. cbn [step] in Hstep.
      rewrite (eat_waits i draws s Hpc Hheld) in Hstep. discriminate. }
    destruct (aside_frame l s s1 Hl Hstep) as (Hview & _ & Hsame & _).
    assert (Hpc1 : mainpc s1 = PEat i).
    { unfold loopView in Hview. injection Hview as -> _ _ _. exact Hpc. }
    destruct (IH s1 s' Hpc1 ltac:(now rewrite Hsame) Hrest)
      as (Hall & Hview' & Hsame').
    split; [now constructor|]. split; congruence.
Qed.

(** C6: a game that is lost and not left. In the maze [crossroads],
    with one life left, a Normal ghost and a Blue ghost step onto the
    player in the same tick. The collision with the Normal ghost takes
    the last life and keeps its read lock (line 868, the defect of
    C10); the collision with the Blue ghost then asks for the write
    lock (line 878), which is never granted: with zero lives the game
    loop takes no step any more, whatever the other goroutines do, and
    so never comes to the check of line 888 and never leaves the
    loop. *)
Theorem C6_lost_game_is_not_left :
  exists s,
    exec lostWithBlueGhost (boot crossroads 10) = Done s /\
    lives s = 0 /\ mainpc s = PEat 1 /\ ghostStatusMx s = 1%nat /\
    (forall draws, step (LMain draws) s = Blocks) /\
    (forall ls s', exec ls s = Done s' ->
       Forall aside ls /\ lives s' = 0 /\ mainpc s' = PEat 1).
Proof.
  eexists. split; [vm_compute; reflexivity|].
  split; [reflexivity|]. split; [reflexivity|]. split; [reflexivity|].
  split.
  - intros draws. apply (eat_waits 1%nat); [reflexivity|discriminate].
  - intros ls s' Hrun.
    apply (eat_waits_for_ever 1%nat) in Hrun as (Hall & Hview & _);
      [|reflexivity|discriminate].
    split; [exact Hall|]. unfold loopView in Hview.
    injection Hview as Hpc _ Hl _. split; [exact Hl|exact Hpc].
Qed.

(** C9: Escape off the grid. In the rectangular maze [tall] the ghost
    steps down onto the player; line 874 puts the player on row 4,
    column 4 (its start row, twice: the defect of C3), which is no cell
    of the grid of four columns. Then the read of the reader fails and
    the goroutine sends Escape. The game loop receives it, sets the
    lives to zero and calls [movePlayer], which looks at the cell of
    the player and panics: the tick does not come to its end and the
    loop is not left by the check of line 888. *)
Theorem C9_escape_off_the_grid :
  rectangular tall /\
  exists s1 s2,
    exec (round 1) (boot tall 10) = Done s1 /\
    lives s1 = 2 /\ row (player s1) = 4 /\ col (player s1) = 4 /\
    colCount (maze s1) = 4 /\
    exec [readFails] s1 = Done s2 /\
    mainpc s2 = PSelect /\ sending s2 = ["ESC"; ""]%string /\
    handleInput "ESC" (set_sending [""%string] s2) = Panics /\
    step (LMain []) s2 = Panics /\
    (forall draws, tick draws s2 = Panics).
Proof.
  split; [rectangular_maze|].
  eexists _, _. split; [vm_compute; reflexivity|].
  split; [reflexivity|]. split; [reflexivity|]. split; [reflexivity|].
  split; [reflexivity|]. split; [vm_compute; reflexivity|].
  split; [reflexivity|]. split; [reflexivity|].
  split; [vm_compute; reflexivity|]. split; [vm_compute; reflexivity|].
  intros draws. reflexivity.
Qed.

(** C1, as the code has it. When the player is on the cell of a ghost
    whose status is Blue (and no read lock was left held), the
    iteration of the collision loop for that ghost sets its status to
    Normal and its position to its start position and leaves the other
    ghosts, the lives, the player and the score unchanged: eating a
    ghost earns nothing. *)
Theorem C1_blue_ghost_eaten (i : nat) (s : state) (g : ghost) :
  ghosts s !! i = Some g -> status g = GhostStatusBlue ->
  row (player s) = row (position g) -> col (player s) = col (position g) ->
  ghostStatusMx s = 0%nat ->
  exists s' g',
    collideGhost i s = Done s' /\
    ghosts s' !! i = Some g' /\
    status g' = GhostStatusNormal /\
    row (position g') = startRow (position g) /\
    col (position g') = startCol (position g) /\
    startRow (position g') = startRow (position g) /\
    startCol (position g') = startCol (position g) /\
    (forall j, j <> i -> ghosts s' !! j = ghosts s !! j) /\
    lives s' = lives s /\ player s' = player s /\ score s' = score s.
Proof.
  intros Hg Hblue Hr Hc Hfree.
  destruct (collideGhost_blue i s g Hg Hblue Hr Hc Hfree)
    as (s' & Hrun & Hgs & Hledger & Hl & Hp & _).
  eexists s', _. split; [exact Hrun|]. rewrite Hgs.
  split; [apply list_lookup_insert_eq; eapply lookup_lt_Some, Hg|].
  simpl. repeat split; try assumption.
  - intros j Hj. now apply list_lookup_insert_ne.
  - unfold ledger in Hledger. congruence.
Qed.

Lemma C1_blue_ghost_eaten_witness :
  exists s g,
    exec (eatsPill ++ blueGhostArrives) (boot lane 10) = Done s /\
    ghosts s !! 0%nat = Some g /\ status g = GhostStatusBlue /\
    row (player s) = row (position g) /\ col (player s) = col (position g) /\
    ghostStatusMx s = 0%nat /\
    exists s' g',
      collideGhost 0 s = Done s' /\
      ghosts s' !! 0%nat = Some g' /\
      status g' = GhostStatusNormal /\
      row (position g') = startRow (position g) /\
      col (position g') = startCol (position g) /\
      startRow (position g') = startRow (position g) /\
      startCol (position g') = startCol (position g) /\
      (forall j, j <> 0%nat -> ghosts s' !! j = ghosts s !! j) /\
      lives s' = lives s /\ player s' = player s /\ score s' = score s.
Proof.
  eexists _, _. split; [vm_compute; reflexivity|].
  split; [reflexivity|]. split; [reflexivity|]. split; [reflexivity|].
  split; [reflexivity|]. split; [reflexivity|].
  apply C1_blue_ghost_eaten; reflexivity.
Defined.

(** C1, as the specification has it, fails: in the maze [lane] the
    player eats the pill, the ghost turns blue and steps onto the
    player; the collision sends the ghost home, and the score is still
    the 10 points of the pill. *)
Lemma C1_no_bonus_counterexample :
  exists s s' g,
    exec (eatsPill ++ blueGhostArrives) (boot lane 10) = Done s /\
    ghosts s !! 0%nat = Some g /\ status g = GhostStatusBlue /\
    row (player s) = row (position g) /\ col (player s) = col (position g) /\
    collideGhost 0 s = Done s' /\
    score s = 10 /\ score s' = 10 /\ score s' <> score s + 10.
Proof.
  eexists _, _, _. split; [vm_compute; reflexivity|].
  split; [reflexivity|]. split; [reflexivity|]. split; [reflexivity|].
  split; [reflexivity|]. split; [vm_compute; reflexivity|].
  split; [reflexivity|]. split; [reflexivity|]. discriminate.
Qed.




(** C3: the respawn after a lethal collision. In the maze [alley] the
    player starts in row 1, column 2; the ghost steps onto it; the
    collision takes one of the three lives and puts the player in row 1,
    column 1: the column is set to the start row (line 874). *)
Theorem C3_respawn_column :
  exists s s' g,
    exec ghostArrives (boot alley 10) = Done s /\
    ghosts s !! 0%nat = Some g /\ status g = GhostStatusNormal /\
    row (player s) = row (position g) /\ col (player s) = col (position g) /\
    startRow (player s) = 1 /\ startCol (player s) = 2 /\ lives s = 3 /\
    collideGhost 0 s = Done s' /\
    lives s' = 2 /\ row (player s') = 1 /\ col (player s') = 1 /\
    col (player s') <> startCol (player s').
Proof.
  eexists _, _, _. split; [vm_compute; reflexivity|].
  split; [reflexivity|]. split; [reflexivity|]. split; [reflexivity|].
  split; [reflexivity|]. split; [reflexivity|]. split; [reflexivity|].
  split; [reflexivity|]. split; [vm_compute; reflexivity|].
  split; [reflexivity|]. split; [reflexivity|]. split; [reflexivity|].
  discriminate.
Qed.

(** C10: the read lock on the last life. In the maze [alley] the ghost
    steps onto the player in two ticks and stays on it in the third:
    with one life left and no read lock held, the collision takes the
    read lock, takes the last life and returns with the read lock still
    held (line 868 skips the release of line 872); from then on no
    writer gets the lock. *)
Theorem C10_read_lock_kept :
  exists s s' g,
    exec lastLife (boot alley 10) = Done s /\
    ghosts s !! 0%nat = Some g /\ status g = GhostStatusNormal /\
    row (player s) = row (position g) /\ col (player s) = col (position g) /\
    lives s = 1 /\ ghostStatusMx s = 0%nat /\
    collideGhost 0 s = Done s' /\
    lives s' = 0 /\ ghostStatusMx s' = 1%nat /\
    updateGhosts (allGhosts s') GhostStatusNormal s' = Blocks.
Proof.
  eexists _, _, _. split; [vm_compute; reflexivity|].
  split; [reflexivity|]. split; [reflexivity|]. split; [reflexivity|].
  split; [reflexivity|]. split; [reflexivity|]. split; [reflexivity|].
  split; [vm_compute; reflexivity|].
  repeat split; reflexivity.
Qed.

(** C4: a timer that was replaced still reverts the ghosts. In the maze
    [corridor] the player eats the first pill and, at the moment its
    timer fires, the second: the goroutine of the first pill has
    received from timer 0 when the goroutine of the second pill stops
    timer 0, turns the ghosts blue and arms timer 1. The first
    goroutine then goes on (lines 678-681): it stops timer 1 and
    reverts the ghosts to Normal. The second pill has no effect left,
    and its goroutine waits for a timer that will not fire. *)
Theorem C4_replaced_timer_reverts :
  exists s1 s2 g1 g2,
    exec secondPillAtExpiry (boot corridor 10) = Done s1 /\
    pillTimer s1 = Some 1%nat /\
    timers s1 = [mkTimer 10000000000 false false; mkTimer 10000000000 true false] /\
    procs s1 = [PillRelock; PillRecv 1] /\
    ghosts s1 !! 0%nat = Some g1 /\ status g1 = GhostStatusBlue /\
    exec (steps 4 0) s1 = Done s2 /\
    procs s2 = [PillDone; PillRecv 1] /\
    ghosts s2 !! 0%nat = Some g2 /\ status g2 = GhostStatusNormal /\
    timers s2 = [mkTimer 10000000000 false false; mkTimer 10000000000 false false] /\
    procStep 1 s2 = Blocks /\ fireStep 1 s2 = Blocks.
Proof.
  eexists _, _, _, _. split; [vm_compute; reflexivity|].
  split; [reflexivity|]. split; [reflexivity|]. split; [reflexivity|].
  split; [reflexivity|]. split; [reflexivity|].
  split; [vm_compute; reflexivity|].
  repeat split; reflexivity.
Qed.

(** * Further properties of the program *)

(** ** Decoding the keys: [readInput] *)

(** X1. [readInput] (lines 765-793) reports an error exactly when the
    read failed, and then returns the empty command. Otherwise it
    returns Escape exactly for a read of the single byte 27, a direction
    exactly for a read of three bytes or more that starts with 27, '['
    and one of 'A' to 'D' (whatever follows), and the empty command for
    anything else: a read of two bytes is never a command. *)
Theorem X1_readInput_decodes (buffer : list ascii) (cnt : Z) (err : bool) :
  let b0 := bufferAt buffer 0 in
  let b1 := bufferAt buffer 1 in
  let b2 := bufferAt buffer 2 in
  let arrow := err = false /\ 3 <= cnt /\ b0 = ascii_of_nat 27 /\ b1 = "["%char in
  let cmd := fst (readInput buffer cnt err) in
  snd (readInput buffer cnt err) = err /\
  (err = true -> cmd = ""%string) /\
  (cmd = "ESC"%string <-> err = false /\ cnt = 1 /\ b0 = ascii_of_nat 27) /\
  (cmd = "UP"%string <-> arrow /\ b2 = "A"%char) /\
  (cmd = "DOWN"%string <-> arrow /\ b2 = "B"%char) /\
  (cmd = "RIGHT"%string <-> arrow /\ b2 = "C"%char) /\
  (cmd = "LEFT"%string <-> arrow /\ b2 = "D"%char) /\
  (cmd = ""%string \/ cmd = "ESC"%string \/ isDirection cmd) /\
  (cnt = 2 -> cmd = ""%string).
Proof.
  unfold readInput, isDirection.
  destruct err; cbn zeta;
    [cbn [fst snd]; intuition (discriminate || congruence)|].
  destruct (Z.eqb_spec cnt 1) as [H1|H1];
    destruct (Z.leb_spec 3 cnt) as [H3|H3]; try lia;
    destruct (Ascii.eqb_spec (bufferAt buffer 0) (ascii_of_nat 27)) as [E0|E0];
    destruct (Ascii.eqb_spec (bufferAt buffer 1) "[") as [E1|E1];
    cbn [andb fst snd];
    try (destruct (Ascii.eqb_spec (bufferAt buffer 2) "A") as [EA|EA];
         [|destruct (Ascii.eqb_spec (bufferAt buffer 2) "B") as [EB|EB];
           [|destruct (Ascii.eqb_spec (bufferAt buffer 2) "C") as [EC|EC];
             [|destruct (Ascii.eqb_spec (bufferAt buffer 2) "D") as [ED|ED]]]]);
    cbn [fst snd];
    intuition (try discriminate; try congruence; try lia).
Qed.

(** ** Steps on the torus *)

Lemma wraparound_cases m r c dir :
  rectangular m -> inBounds m r c ->
  wraparound m r c dir =
  Done (if String.eqb dir "UP" then (if r =? 0 then rowCount m - 1 else r - 1, c)
        else if String.eqb dir "DOWN"
        then (if r =? rowCount m - 1 then 0 else r + 1, c)
        else if String.eqb dir "RIGHT"
        then (r, if c =? colCount m - 1 then 0 else c + 1)
        else if String.eqb dir "LEFT"
        then (r, if c =? 0 then colCount m - 1 else c - 1)
        else (r, c)).
Proof.
  intros Hrect Hin.
  destruct (String.eqb_spec dir "UP") as [->|Hu];
    [now apply wraparound_up|].
  destruct (String.eqb_spec dir "DOWN") as [->|Hd];
    [now apply wraparound_down|].
  destruct (String.eqb_spec dir "RIGHT") as [->|Hr];
    [now apply wraparound_right|].
  destruct (String.eqb_spec dir "LEFT") as [->|Hl];
    [now apply wraparound_left|].
  apply wraparound_other; try assumption. unfold isDirection. tauto.
Qed.

(** X2. On a rectangular grid the wraparound step of [makeMove] can be
    undone: from an in-bounds position, Down followed by Up and Right
    followed by Left come back to the position (as Up, Down and Left,
    Right do), and the step in any one direction sends two different
    in-bounds positions to two different positions. *)
Theorem X2_wraparound_invertible (m : list string) (r c : Z) :
  rectangular m -> inBounds m r c ->
  ('(r1, c1) ← wraparound m r c "DOWN"; wraparound m r1 c1 "UP") = Done (r, c) /\
  ('(r1, c1) ← wraparound m r c "RIGHT"; wraparound m r1 c1 "LEFT") = Done (r, c) /\
  forall dir r2 c2,
    inBounds m r2 c2 ->
    wraparound m r c dir = wraparound m r2 c2 dir -> (r, c) = (r2, c2).
Proof.
  intros Hrect Hin. pose proof Hin as [Hr Hc]. split; [|split].
  - rewrite wraparound_down by assumption. rewrite bind_now.
    rewrite wraparound_up; try assumption.
    + destruct (Z.eqb_spec r (rowCount m - 1)) as [->|Hlast].
      * now rewrite Z.eqb_refl.
      * destruct (Z.eqb_spec (r + 1) 0); [lia|]. do 2 f_equal. lia.
    + split; [|exact Hc]. destruct (Z.eqb_spec r (rowCount m - 1)); lia.
  - rewrite wraparound_right by assumption. rewrite bind_now.
    rewrite wraparound_left; try assumption.
    + destruct (Z.eqb_spec c (colCount m - 1)) as [->|Hlast].
      * now rewrite Z.eqb_refl.
      * destruct (Z.eqb_spec (c + 1) 0); [lia|]. do 2 f_equal. lia.
    + split; [exact Hr|]. destruct (Z.eqb_spec c (colCount m - 1)); lia.
  - intros dir r2 c2 Hin2 Heq. pose proof Hin2 as [Hr2 Hc2].
    rewrite !wraparound_cases in Heq by assumption.
    injection Heq as Heq.
    destruct (String.eqb dir "UP");
      [|destruct (String.eqb dir "DOWN");
        [|destruct (String.eqb dir "RIGHT");
          [|destruct (String.eqb dir "LEFT")]]];
      injection Heq as Hrow Hcol; f_equal;
      repeat match goal with
             | H : context [?a =? ?b] |- _ => destruct (Z.eqb_spec a b)
             end; lia.
Qed.

Lemma X2_wraparound_invertible_witness :
  ('(r1, c1) ← wraparound lane 2 5 "DOWN"; wraparound lane r1 c1 "UP")
    = Done (2, 5) /\
  ('(r1, c1) ← wraparound lane 2 5 "RIGHT"; wraparound lane r1 c1 "LEFT")
    = Done (2, 5) /\
  forall dir r2 c2,
    inBounds lane r2 c2 ->
    wraparound lane 2 5 dir = wraparound lane r2 c2 dir -> (2, 5) = (r2, c2).
Proof.
  apply (X2_wraparound_invertible lane 2 5).
  - rectangular_maze.
  - vm_compute. repeat split; discriminate.
Defined.

(** ** Walls *)

(** X3. On a rectangular grid [makeMove] (lines 566-602), called at an
    in-bounds position, returns an in-bounds position that is the
    position it was called at or the position of a cell that is not a
    wall; so a sprite that is not on a wall is not moved onto one. *)
Theorem X3_makeMove_avoids_walls (m : list string) (r c : Z) (dir : string) :
  rectangular m -> inBounds m r c ->
  exists r' c',
    makeMove m r c dir = Done (r', c') /\ inBounds m r' c' /\
    ((r', c') = (r, c) \/ cell m r' c' <> Done "#"%char) /\
    (cell m r c <> Done "#"%char -> cell m r' c' <> Done "#"%char).
Proof.
  intros Hrect Hin.
  destruct (makeMove_in_bounds m r c dir Hrect Hin)
    as (r' & c' & ch & _ & Hin' & Hch & Hmove).
  rewrite Hmove. destruct (Ascii.eqb_spec ch "#") as [->|Hne].
  - exists r, c. repeat split; try apply Hin; auto.
  - exists r', c'. repeat split; try apply Hin'.
    + right. rewrite Hch. congruence.
    + intros _. rewrite Hch. congruence.
Qed.

Lemma X3_makeMove_avoids_walls_witness :
  exists r' c',
    makeMove lane 1 1 "LEFT" = Done (r', c') /\ inBounds lane r' c' /\
    ((r', c') = (1, 1) \/ cell lane r' c' <> Done "#"%char) /\
    (cell lane 1 1 <> Done "#"%char -> cell lane r' c' <> Done "#"%char).
Proof.
  apply (X3_makeMove_avoids_walls lane 1 1 "LEFT").
  - rectangular_maze.
  - vm_compute. repeat split; discriminate.
Defined.

(** ** What the player changes in the grid *)

Lemma blanked_get_other line : forall n n' ch,
  String.get n line = Some ch -> n' <> n ->
  String.get n' (blanked line n) = String.get n' line.
Proof.
  induction line as [|a line IH]; intros n n' ch Hget Hne; [discriminate|].
  destruct n as [|n].
  - rewrite blanked_here. destruct n' as [|n']; [congruence|reflexivity].
  - rewrite blanked_cons. destruct n' as [|n']; [reflexivity|].
    simpl. apply (IH n n' ch); [exact Hget|congruence].
Qed.

Lemma blanked_cell m r c line ch r' c' :
  index m r = Done line -> byteAt line c = Done ch ->
  cell (<[Z.to_nat r := blanked line (Z.to_nat c)]> m) r' c' =
  if (r' =? r) && (c' =? c) then Done " "%char else cell m r' c'.
Proof.
  intros Hline Hch.
  pose proof Hline as Hline'. pose proof Hch as Hch'.
  apply index_done in Hline' as [Hr Hrow].
  apply byteAt_done in Hch' as [Hc Hget].
  pose proof (lookup_lt_Some _ _ _ Hrow) as Hlt.
  unfold cell, index.
  destruct (Z.ltb_spec r' 0) as [Hneg|Hpos].
  { destruct (Z.eqb_spec r' r); [lia|reflexivity]. }
  destruct (Z.eqb_spec r' r) as [->|Hrne].
  - rewrite list_lookup_insert_eq by exact Hlt. rewrite Hrow, !bind_now.
    unfold byteAt. destruct (Z.ltb_spec c' 0) as [Hcneg|Hcpos].
    { destruct (Z.eqb_spec c' c); [lia|reflexivity]. }
    destruct (Z.eqb_spec c' c) as [->|Hcne]; cbn [andb].
    + now rewrite (blanked_get _ _ _ Hget).
    + rewrite (blanked_get_other _ _ _ _ Hget); [reflexivity|lia].
  - cbn [andb]. rewrite list_lookup_insert_ne by lia. reflexivity.
Qed.

(** X4. [movePlayer] (lines 608-627) changes at most one cell of the
    grid, the one the player ends on: a dot or a pill there becomes a
    blank, anything else stays; every other cell, and so every wall,
    and the size of the grid are as before. After it the player is
    never on a dot or a pill. *)
Theorem X4_movePlayer_blanks_one_cell (dir : string) (s s' : state) :
  representable (maze s) -> movePlayer dir s = Done s' ->
  let r := row (player s') in
  let c := col (player s') in
  exists ch,
    cell (maze s) r c = Done ch /\
    cell (maze s') r c =
      Done (if Ascii.eqb ch "." || Ascii.eqb ch "X" then " "%char else ch) /\
    cell (maze s') r c <> Done "."%char /\
    cell (maze s') r c <> Done "X"%char /\
    (forall r' c', (r', c') <> (r, c) ->
                   cell (maze s') r' c' = cell (maze s) r' c') /\
    (forall r' c', cell (maze s') r' c' = Done "#"%char <->
                   cell (maze s) r' c' = Done "#"%char) /\
    rowCount (maze s') = rowCount (maze s) /\
    colCount (maze s') = colCount (maze s).
Proof.
  intros Hrep Hrun.
  destruct (movePlayer_returned dir s s' Hrep Hrun)
    as (r & c & line & ch & _ & Hline & Hch & ->).
  destruct (landed_frame r c line ch s) as (_ & _ & _ & _ & _ & Hp).
  rewrite Hp. cbn [moveTo row col].
  assert (Hcell : cell (maze s) r c = Done ch).
  { apply cell_done. eauto. }
  assert (Hmaze : forall r' c',
    cell (maze (landed r c line ch s)) r' c' =
    if (r' =? r) && (c' =? c) && (Ascii.eqb ch "." || Ascii.eqb ch "X")
    then Done " "%char else cell (maze s) r' c').
  { intros r' c'. unfold landed.
    destruct (Ascii.eqb ch "."); cbn [orb maze set_maze set_score set_numDots
                                      set_player spawn set_procs].
    - rewrite (blanked_cell _ _ _ _ _ r' c' Hline Hch).
      now destruct ((r' =? r) && (c' =? c)).
    - destruct (Ascii.eqb ch "X"); cbn [orb maze set_maze set_score set_player
                                        spawn set_procs].
      + rewrite (blanked_cell _ _ _ _ _ r' c' Hline Hch).
        now destruct ((r' =? r) && (c' =? c)).
      + now rewrite andb_false_r. }
  assert (Hshape : rowCount (maze (landed r c line ch s)) = rowCount (maze s) /\
                   colCount (maze (landed r c line ch s)) = colCount (maze s)).
  { apply index_done in Hline as [Hr Hrow].
    apply byteAt_done in Hch as [Hc Hget].
    pose proof (blanked_length _ _ _ Hget) as Hlen.
    assert (Hb : rowCount (<[Z.to_nat r := blanked line (Z.to_nat c)]> (maze s))
                 = rowCount (maze s) /\
                 colCount (<[Z.to_nat r := blanked line (Z.to_nat c)]> (maze s))
                 = colCount (maze s)).
    { split; [unfold rowCount, len; now rewrite length_insert|].
      destruct (maze s) as [|line0 rest]; [reflexivity|].
      destruct (Z.to_nat r) as [|k]; simpl in *; [|reflexivity].
      injection Hrow as ->. unfold slen. now rewrite Hlen. }
    unfold landed. destruct (Ascii.eqb ch "."); [exact Hb|].
    destruct (Ascii.eqb ch "X"); [exact Hb|]. now split. }
  exists ch. split; [exact Hcell|].
  assert (Hhere : cell (maze (landed r c line ch s)) r c =
                  Done (if Ascii.eqb ch "." || Ascii.eqb ch "X"
                        then " "%char else ch)).
  { rewrite Hmaze, !Z.eqb_refl. cbn [andb].
    destruct (Ascii.eqb ch "." || Ascii.eqb ch "X"); [reflexivity|exact Hcell]. }
  split; [exact Hhere|]. rewrite Hhere.
  split; [|split; [|split; [|split; [|exact Hshape]]]].
  - destruct (Ascii.eqb_spec ch "."); cbn [orb]; [discriminate|].
    destruct (Ascii.eqb_spec ch "X"); [discriminate|congruence].
  - destruct (Ascii.eqb_spec ch "."); cbn [orb]; [discriminate|].
    destruct (Ascii.eqb_spec ch "X"); [discriminate|congruence].
  - intros r' c' Hne. rewrite Hmaze.
    destruct (Z.eqb_spec r' r) as [->|]; [|reflexivity].
    destruct (Z.eqb_spec c' c) as [->|]; [congruence|reflexivity].
  - intros r' c'. rewrite Hmaze.
    destruct (Z.eqb_spec r' r) as [->|]; [|reflexivity].
    destruct (Z.eqb_spec c' c) as [->|]; [|reflexivity]. cbn [andb].
    rewrite Hcell.
    destruct (Ascii.eqb_spec ch ".") as [->|]; cbn [orb];
      [split; discriminate|].
    destruct (Ascii.eqb_spec ch "X") as [->|]; [split; discriminate|reflexivity].
Qed.

Lemma X4_movePlayer_blanks_one_cell_witness :
  representable (maze (boot lane 10)) /\
  exists s',
    movePlayer "RIGHT" (boot lane 10) = Done s' /\
    exists ch,
      cell (maze (boot lane 10)) (row (player s')) (col (player s')) = Done ch /\
      cell (maze s') (row (player s')) (col (player s')) =
        Done (if Ascii.eqb ch "." || Ascii.eqb ch "X" then " "%char else ch) /\
      cell (maze s') (row (player s')) (col (player s')) <> Done "."%char /\
      cell (maze s') (row (player s')) (col (player s')) <> Done "X"%char /\
      (forall r' c', (r', c') <> (row (player s'), col (player s')) ->
                     cell (maze s') r' c' = cell (maze (boot lane 10)) r' c') /\
      (forall r' c', cell (maze s') r' c' = Done "#"%char <->
                     cell (maze (boot lane 10)) r' c' = Done "#"%char) /\
      rowCount (maze s') = rowCount (maze (boot lane 10)) /\
      colCount (maze s') = colCount (maze (boot lane 10)).
Proof.
  assert (H : representable (maze (boot lane 10))) by representable_maze.
  split; [exact H|].
  eexists. split; [vm_compute; reflexivity|].
  apply (X4_movePlayer_blanks_one_cell "RIGHT" (boot lane 10) _ H).
  vm_compute. reflexivity.
Defined.

(** ** The score *)

Lemma landed_progress total r c line ch s :
  accounted total s ->
  index (maze s) r = Done line -> byteAt line c = Done ch ->
  score s <= score (landed r c line ch s) /\
  numDots (landed r c line ch s) <= numDots s.
Proof.
  intros Hacc Hline Hch.
  pose proof (landed_accounted _ r c line ch s Hacc Hline Hch) as Hacc'.
  destruct Hacc as [_ Hdots Hscore _ _], Hacc' as [_ Hdots' Hscore' _ _].
  assert (Hd := countCells_blanked "." (maze s) r c line ch Hline Hch
                  ltac:(discriminate)).
  assert (Hp := countCells_blanked "X" (maze s) r c line ch Hline Hch
                  ltac:(discriminate)).
  rewrite Hdots, Hdots'. unfold worth, dotCells, pillCells in *.
  unfold landed in *.
  destruct (Ascii.eqb ch "."); [simpl in *; lia|].
  destruct (Ascii.eqb ch "X"); simpl in *; lia.
Qed.

Lemma step_progress total l s s' :
  accounted total s -> step l s = Done s' ->
  score s <= score s' /\ numDots s' <= numDots s.
Proof.
  intros Hacc Hrun.
  assert (Hsame : ledger s' = ledger s ->
                  score s <= score s' /\ numDots s' <= numDots s).
  { unfold ledger. intros [= _ -> ->]. lia. }
  destruct l as [draws|buffer cnt err|j|t]; simpl in Hrun.
  - unfold mainStep in Hrun. destruct (mainpc s).
    + apply bind_done in Hrun as (s1 & Hsel & [= <-]).
      change (score s <= score s1 /\ numDots s1 <= numDots s).
      unfold selectInput, handleInput in Hsel.
      destruct (sending s) as [|inp rest]; [injection Hsel as <-; lia|].
      set (s0 := if String.eqb inp "ESC"
                 then set_lives 0 (set_sending rest s) else set_sending rest s)
        in Hsel.
      assert (Hacc0 : accounted total s0).
      { eapply accounted_ledger; [|exact Hacc]. unfold s0.
        destruct (String.eqb inp "ESC"); reflexivity. }
      destruct (movePlayer_returned inp s0 s1 (acc_grid _ _ Hacc0) Hsel)
        as (r & c & line & ch & _ & Hline & Hch & ->).
      replace (score s) with (score s0)
        by (unfold s0; destruct (String.eqb inp "ESC"); reflexivity).
      replace (numDots s) with (numDots s0)
        by (unfold s0; destruct (String.eqb inp "ESC"); reflexivity).
      eapply landed_progress; eassumption.
    + apply bind_done in Hrun as (s1 & Hmv & [= <-]).
      apply moveGhosts_ledger in Hmv. apply Hsame. rewrite <- Hmv. reflexivity.
    + apply bind_done in Hrun as ([s1 eat] & Hhd & [= <-]).
      apply collideHead_ledger in Hhd. apply Hsame. rewrite <- Hhd. reflexivity.
    + apply bind_done in Hrun as (s1 & Heat & [= <-]).
      apply collideEat_ledger in Heat. apply Hsame. rewrite <- Heat. reflexivity.
    + apply bind_done in Hrun as (s1 & Hpr & Hrun).
      destruct (checkGameOver s1) as [s2 over] eqn:Hover.
      injection Hrun as <-.
      apply printScreen_ledger in Hpr. apply checkGameOver_ledger in Hover.
      apply Hsame. rewrite <- Hpr, <- Hover. reflexivity.
    + discriminate.
  - apply Hsame. eapply readerStep_ledger, Hrun.
  - apply Hsame. eapply procStep_ledger, Hrun.
  - apply Hsame. eapply fireStep_ledger, Hrun.
Qed.

Lemma exec_progress total ls : forall s s',
  accounted total s -> exec ls s = Done s' ->
  score s <= score s' /\ numDots s' <= numDots s.
Proof.
  induction ls as [|l ls IH]; intros s s' Hacc Hrun; simpl in Hrun.
  - injection Hrun as <-. lia.
  - apply bind_done in Hrun as (s1 & Hstep & Hrest).
    pose proof (step_progress _ _ _ _ Hacc Hstep).
    pose proof (step_accounted _ _ _ _ Hacc Hstep) as Hacc1.
    pose proof (IH _ _ Hacc1 Hrest). lia.
Qed.

(** X5. After a maze was loaded whose lengths and whose worth (one point
    a dot, ten a pill) are [int]s, the score is at every moment exactly
    the worth of what has been eaten: the score plus the worth of the
    dots and pills still in the grid is the worth of the loaded maze.
    Along every run the score never goes down and the counter of dots
    never goes up, whatever the goroutines do. *)
Theorem X5_score_is_what_was_eaten
  (lines : list string) (secs : Z) (ls ls' : list label) (s s' : state) :
  representable lines -> worth lines <= Int.max_int ->
  exec ls (boot lines secs) = Done s -> exec ls' s = Done s' ->
  score s + dotCells (maze s) + 10 * pillCells (maze s) = worth lines /\
  0 <= score s <= score s' /\ score s' <= worth lines /\
  0 <= numDots s' <= numDots s.
Proof.
  intros Hrep Hworth Hrun Hrun'.
  pose proof (reachable_accounted _ _ _ _ Hrep Hworth Hrun) as Hacc.
  pose proof (exec_accounted _ _ _ _ Hacc Hrun') as Hacc'.
  pose proof (exec_progress _ _ _ _ Hacc Hrun') as [Hup Hdown].
  destruct Hacc as [_ Hdots Hscore Hpos _].
  destruct Hacc' as [_ Hdots' Hscore' Hpos' _].
  unfold worth, dotCells, pillCells in *. repeat split; lia.
Qed.

Lemma X5_score_is_what_was_eaten_witness :
  representable lane /\ worth lane <= Int.max_int /\
  exists s s',
    exec eatsPill (boot lane 10) = Done s /\
    exec (round 0) s = Done s' /\
    score s + dotCells (maze s) + 10 * pillCells (maze s) = worth lane /\
    0 <= score s <= score s' /\ score s' <= worth lane /\
    0 <= numDots s' <= numDots s.
Proof.
  assert (H1 : representable lane) by representable_maze.
  assert (H2 : worth lane <= Int.max_int) by (vm_compute; discriminate).
  split; [exact H1|]. split; [exact H2|].
  eexists _, _. split; [vm_compute; reflexivity|].
  split; [vm_compute; reflexivity|].
  eapply (X5_score_is_what_was_eaten lane 10 eatsPill (round 0) _ _ H1 H2);
    vm_compute; reflexivity.
Defined.

(** ** What [loadMaze] finds in the maze *)

Lemma scanLine_frame line : forall r c s,
  let s' := scanLine r c line s in
  maze s' = maze s /\ score s' = score s /\ lives s' = lives s /\
  pillTimer s' = pillTimer s /\ pillMx s' = pillMx s /\
  ghostStatusMx s' = ghostStatusMx s /\ timers s' = timers s /\
  procs s' = procs s /\ sending s' = sending s /\ mainpc s' = mainpc s /\
  out s' = out s.
Proof.
  induction line as [|a line IH]; intros r c s; [cbn; repeat split|].
  cbn [scanLine].
  destruct (Ascii.eqb a "P");
    [exact (IH r (c + 1) (set_player (mkSprite r c r c) s))|].
  destruct (Ascii.eqb a "G");
    [exact (IH r (c + 1)
              (set_ghosts (ghosts s ++ [mkGhost (mkSprite r c r c)
                                          GhostStatusNormal]) s))|].
  destruct (Ascii.eqb a ".");
    [exact (IH r (c + 1) (set_numDots (Int.add (numDots s) 1) s))|apply IH].
Qed.

Lemma scanMaze_frame lines : forall r s,
  let s' := scanMaze r lines s in
  maze s' = maze s /\ score s' = score s /\ lives s' = lives s /\
  pillTimer s' = pillTimer s /\ pillMx s' = pillMx s /\
  ghostStatusMx s' = ghostStatusMx s /\ timers s' = timers s /\
  procs s' = procs s /\ sending s' = sending s /\ mainpc s' = mainpc s /\
  out s' = out s.
Proof.
  induction lines as [|line lines IH]; intros r s; [cbn; repeat split|].
  cbn [scanMaze].
  pose proof (scanLine_frame line r 0 s) as H1.
  pose proof (IH (r + 1) (scanLine r 0 line s)) as H2.
  cbn zeta in *. intuition congruence.
Qed.

Lemma scanLine_sprites (P : ghost -> Prop) (Q : sprite -> Prop) line :
  forall r c s,
  Forall P (ghosts s) -> Q (player s) \/ (0 < countByte "P" line)%nat ->
  (forall k, String.get k line = Some "G"%char ->
     P (mkGhost (mkSprite r (c + Z.of_nat k) r (c + Z.of_nat k))
          GhostStatusNormal)) ->
  (forall k, String.get k line = Some "P"%char ->
     Q (mkSprite r (c + Z.of_nat k) r (c + Z.of_nat k))) ->
  let s' := scanLine r c line s in
  Forall P (ghosts s') /\ Q (player s') /\
  length (ghosts s') = (length (ghosts s) + countByte "G" line)%nat.
Proof.
  induction line as [|a line IH]; intros r c s HP HQ HG HPl.
  - cbn in *. repeat split; [exact HP| |lia]. destruct HQ; [assumption|lia].
  - assert (HG' : forall k, String.get k line = Some "G"%char ->
       P (mkGhost (mkSprite r (c + 1 + Z.of_nat k) r (c + 1 + Z.of_nat k))
            GhostStatusNormal)).
    { intros k Hk. specialize (HG (S k) Hk).
      replace (c + 1 + Z.of_nat k) with (c + Z.of_nat (S k)) by lia. exact HG. }
    assert (HPl' : forall k, String.get k line = Some "P"%char ->
       Q (mkSprite r (c + 1 + Z.of_nat k) r (c + 1 + Z.of_nat k))).
    { intros k Hk. specialize (HPl (S k) Hk).
      replace (c + 1 + Z.of_nat k) with (c + Z.of_nat (S k)) by lia. exact HPl. }
    specialize (HG 0%nat). specialize (HPl 0%nat).
    cbn [String.get] in HG, HPl. rewrite Z.add_0_r in HG, HPl.
    cbn [scanLine countByte] in *.
    destruct (Ascii.eqb_spec a "P") as [->|HnP].
    + change (Ascii.eqb "P" "G") with false. cbn [Nat.add].
      assert (HQ1 : Q (mkSprite r c r c) \/ (0 < countByte "P" line)%nat)
        by (left; apply HPl; reflexivity).
      exact (IH r (c + 1) (set_player (mkSprite r c r c) s) HP HQ1 HG' HPl').
    + destruct (Ascii.eqb_spec a "G") as [->|HnG].
      * assert (HP1 : Forall P (ghosts s ++ [mkGhost (mkSprite r c r c)
                                               GhostStatusNormal])).
        { apply Forall_app. split; [exact HP|].
          constructor; [apply HG; reflexivity|constructor]. }
        assert (HQ1 : Q (player s) \/ (0 < countByte "P" line)%nat)
          by (destruct HQ; [left; assumption|right; lia]).
        destruct (IH r (c + 1)
          (set_ghosts (ghosts s ++ [mkGhost (mkSprite r c r c) GhostStatusNormal]) s)
          HP1 HQ1 HG' HPl') as (H1 & H2 & H3).
        cbn zeta. split; [exact H1|]. split; [exact H2|].
        rewrite H3. cbn [ghosts set_ghosts]. rewrite length_app. cbn. lia.
      * assert (HQ1 : Q (player s) \/ (0 < countByte "P" line)%nat)
          by (destruct HQ; [left; assumption|right; lia]).
        destruct (Ascii.eqb a ".").
        -- exact (IH r (c + 1) (set_numDots (Int.add (numDots s) 1) s)
                     HP HQ1 HG' HPl').
        -- exact (IH r (c + 1) s HP HQ1 HG' HPl').
Qed.

Lemma scanMaze_sprites (P : ghost -> Prop) (Q : sprite -> Prop) lines :
  forall r s,
  Forall P (ghosts s) -> Q (player s) \/ (0 < countCells "P" lines)%nat ->
  (forall i line k, lines !! i = Some line -> String.get k line = Some "G"%char ->
     P (mkGhost (mkSprite (r + Z.of_nat i) (Z.of_nat k)
                   (r + Z.of_nat i) (Z.of_nat k)) GhostStatusNormal)) ->
  (forall i line k, lines !! i = Some line -> String.get k line = Some "P"%char ->
     Q (mkSprite (r + Z.of_nat i) (Z.of_nat k) (r + Z.of_nat i) (Z.of_nat k))) ->
  let s' := scanMaze r lines s in
  Forall P (ghosts s') /\ Q (player s') /\
  length (ghosts s') = (length (ghosts s) + countCells "G" lines)%nat.
Proof.
  induction lines as [|line lines IH]; intros r s HP HQ HG HPl.
  - cbn in *. repeat split; [exact HP| |lia]. destruct HQ; [assumption|lia].
  - cbn [scanMaze countCells] in *.
    destruct (scanLine_sprites P
                (fun sp => Q sp \/ (0 < countCells "P" lines)%nat)
                line r 0 s) as (H1 & H2 & H3).
    + exact HP.
    + destruct HQ as [HQ|HQ]; [left; now left|].
      destruct (countByte "P" line) eqn:E; [left; right; lia|right; lia].
    + intros k Hk. specialize (HG 0%nat line k eq_refl Hk).
      rewrite Z.add_0_r in HG. exact HG.
    + intros k Hk. left. specialize (HPl 0%nat line k eq_refl Hk).
      rewrite Z.add_0_r in HPl. exact HPl.
    + destruct (IH (r + 1) (scanLine r 0 line s)) as (H1' & H2' & H3').
      * exact H1.
      * exact H2.
      * intros i l k Hl Hk. specialize (HG (S i) l k Hl Hk).
        replace (r + 1 + Z.of_nat i) with (r + Z.of_nat (S i)) by lia. exact HG.
      * intros i l k Hl Hk. specialize (HPl (S i) l k Hl Hk).
        replace (r + 1 + Z.of_nat i) with (r + Z.of_nat (S i)) by lia. exact HPl.
      * cbn zeta. repeat split; try assumption. lia.
Qed.



Lemma cell_lookup (m : list string) (i k : nat) line ch :
  m !! i = Some line -> String.get k line = Some ch ->
  cell m (Z.of_nat i) (Z.of_nat k) = Done ch.
Proof.
  intros Hline Hch. apply cell_done. exists line. split.
  - apply index_done. split; [lia|]. now rewrite Nat2Z.id.
  - apply byteAt_done. split; [lia|]. now rewrite Nat2Z.id.
Qed.


(** ** The timer and the mutex of the pill *)

(** X7. In every state the program reaches at most one timer runs (has
    neither fired nor been stopped), and it is the one [pillTimer]
    points to: eating a pill while a timer runs replaces the timer, it
    does not add one ([processPill], lines 672-675). *)
Theorem X7_one_timer_runs (s : state) (t1 t2 : nat) (tm1 tm2 : timer) :
  reachable s ->
  timers s !! t1 = Some tm1 -> active tm1 = true ->
  timers s !! t2 = Some tm2 -> active tm2 = true ->
  t1 = t2 /\ pillTimer s = Some t1.
Proof.
  intros Hreach H1 A1 H2 A2.
  pose proof (reachable_oneTimer s Hreach) as Hone.
  pose proof (Hone t1 tm1 H1 A1) as E1.
  pose proof (Hone t2 tm2 H2 A2) as E2.
  split; [congruence|exact E1].
Qed.

Lemma X7_one_timer_runs_witness :
  exists s tm,
    exec (eatsPill ++ steps 3 0) (boot lane 10) = Done s /\
    timers s !! 0%nat = Some tm /\ active tm = true /\
    (0%nat = 0%nat /\ pillTimer s = Some 0%nat).
Proof.
  eexists _, _. split; [vm_compute; reflexivity|].
  split; [reflexivity|]. split; [reflexivity|].
  eapply X7_one_timer_runs.
  - exists lane, 10, (eatsPill ++ steps 3 0). vm_compute. reflexivity.
  - reflexivity.
  - reflexivity.
  - reflexivity.
  - reflexivity.
Defined.

Lemma countHolders_app l pc :
  countHolders (l ++ [pc]) =
  (countHolders l + (if holdsPillMx pc then 1 else 0))%nat.
Proof. induction l as [|a l IH]; simpl; [lia|]. rewrite IH. lia. Qed.

Lemma countHolders_insert l : forall j pc pc',
  l !! j = Some pc ->
  (countHolders (<[j := pc']> l) + (if holdsPillMx pc then 1 else 0)
   = countHolders l + (if holdsPillMx pc' then 1 else 0))%nat.
Proof.
  induction l as [|a l IH]; intros j pc pc' Hj; [discriminate|].
  destruct j as [|j]; simpl in *.
  - injection Hj as ->. lia.
  - specialize (IH j pc pc' Hj). lia.
Qed.

Lemma countHolders_lookup l : forall j pc,
  l !! j = Some pc -> holdsPillMx pc = true -> (1 <= countHolders l)%nat.
Proof.
  induction l as [|a l IH]; intros j pc Hj Hpc; [discriminate|].
  destruct j as [|j]; simpl in *.
  - injection Hj as ->. rewrite Hpc. lia.
  - specialize (IH j pc Hj Hpc). lia.
Qed.

Lemma countHolders_two l : forall j1 j2 pc1 pc2,
  l !! j1 = Some pc1 -> holdsPillMx pc1 = true ->
  l !! j2 = Some pc2 -> holdsPillMx pc2 = true ->
  j1 <> j2 -> (2 <= countHolders l)%nat.
Proof.
  induction l as [|a l IH]; intros j1 j2 pc1 pc2 H1 P1 H2 P2 Hne;
    [discriminate|].
  destruct j1 as [|j1], j2 as [|j2]; simpl in *; try congruence.
  - injection H1 as ->. rewrite P1.
    pose proof (countHolders_lookup l j2 pc2 H2 P2). lia.
  - injection H2 as ->. rewrite P2.
    pose proof (countHolders_lookup l j1 pc1 H1 P1). lia.
  - assert (j1 <> j2) by congruence.
    pose proof (IH j1 j2 pc1 pc2 H1 P1 H2 P2 ltac:(assumption)). lia.
Qed.

Lemma countHolders_some l :
  (1 <= countHolders l)%nat ->
  exists j pc, l !! j = Some pc /\ holdsPillMx pc = true.
Proof.
  induction l as [|a l IH]; simpl; [lia|]. intros H.
  destruct (holdsPillMx a) eqn:E.
  - exists 0%nat, a. auto.
  - destruct IH as (j & pc & Hj & Hpc); [lia|]. exists (S j), pc. auto.
Qed.

Lemma movePlayer_pill dir s s' :
  movePlayer dir s = Done s' ->
  pillMx s' = pillMx s /\
  (procs s' = procs s \/ procs s' = procs s ++ [PillLock]).
Proof.
  intros Hrun. unfold movePlayer in Hrun.
  apply bind_done in Hrun as ([r c] & _ & Hrun).
  apply bind_done in Hrun as (ch & _ & Hrun).
  destruct (Ascii.eqb ch ".").
  - unfold removeDot in Hrun. returned. split; [reflexivity|left; reflexivity].
  - destruct (Ascii.eqb ch "X").
    + unfold removeDot in Hrun. returned.
      split; [reflexivity|right; reflexivity].
    + injection Hrun as <-. split; [reflexivity|left; reflexivity].
Qed.

Lemma mainStep_pill draws s s' :
  mainStep draws s = Done s' ->
  pillMx s' = pillMx s /\
  (procs s' = procs s \/ procs s' = procs s ++ [PillLock]).
Proof.
  unfold mainStep. intros H. destruct (mainpc s).
  - apply bind_done in H as (s1 & Hrun & [= <-]).
    unfold selectInput, handleInput in Hrun.
    destruct (sending s) as [|inp rest].
    + injection Hrun as <-. split; [reflexivity|left; reflexivity].
    + apply movePlayer_pill in Hrun.
      destruct (String.eqb inp "ESC"); exact Hrun.
  - apply bind_done in H as (s1 & Hrun & [= <-]).
    unfold moveGhosts in Hrun. returned.
    split; [reflexivity|left; reflexivity].
  - apply bind_done in H as ([s1 eat] & Hrun & [= <-]).
    unfold collideHead, RUnlock, RLock in Hrun.
    returned; simpl in *; returned; (split; [reflexivity|left; reflexivity]).
  - apply bind_done in H as (s1 & Hrun & [= <-]).
    unfold collideEat, updateGhosts in Hrun. returned.
    split; [reflexivity|left; reflexivity].
  - apply bind_done in H as (s1 & Hrun & H).
    unfold printScreen, RUnlock, RLock in Hrun. simpl in Hrun.
    injection Hrun as <-.
    unfold checkGameOver in H.
    destruct (gameOver _); [destruct (lives _ =? 0)|];
      injection H as <-; (split; [reflexivity|left; reflexivity]).
  - discriminate.
Qed.

Lemma updateGhosts_pill sel st s s' :
  updateGhosts sel st s = Done s' -> pillMx s' = pillMx s /\ procs s' = procs s.
Proof. unfold updateGhosts. intros H. returned. now split. Qed.

Lemma procStep_pillMxKept j s s' :
  pillMxKept s -> procStep j s = Done s' -> pillMxKept s'.
Proof.
  unfold pillMxKept, procStep. intros Hinv Hrun.
  destruct (procs s !! j) as [pc|] eqn:Hpc; [|discriminate].
  assert (Hins : forall pc',
    (countHolders (<[j := pc']> (procs s)) + (if holdsPillMx pc then 1 else 0)
     = countHolders (procs s) + (if holdsPillMx pc' then 1 else 0))%nat).
  { intros pc'. now apply countHolders_insert. }
  pose proof (countHolders_lookup _ _ _ Hpc) as Hhas.
  destruct pc; cbn [holdsPillMx] in *.
  - destruct (pillMx s) eqn:Hmx; [discriminate|]. injection Hrun as <-.
    cbn. specialize (Hins PillBlue). cbn in Hins. lia.
  - apply bind_done in Hrun as (s1 & Hup & [= <-]).
    apply updateGhosts_pill in Hup as [Hmx Hpr]. cbn. rewrite Hmx, Hpr.
    specialize (Hins PillArm). cbn in Hins. lia.
  - injection Hrun as <-. cbn.
    replace (procs match pillTimer s with
                   | Some t => stopTimer t s
                   | None => s
                   end) with (procs s)
      by (destruct (pillTimer s); [unfold stopTimer;
            destruct (timers s !! _)|]; reflexivity).
    replace (pillMx match pillTimer s with
                    | Some t => stopTimer t s
                    | None => s
                    end) with (pillMx s)
      by (destruct (pillTimer s); [unfold stopTimer;
            destruct (timers s !! _)|]; reflexivity).
    specialize (Hins PillUnlock). cbn in Hins. lia.
  - injection Hrun as <-. cbn. specialize (Hhas eq_refl).
    specialize (Hins PillChan). cbn in Hins.
    destruct (pillMx s); lia.
  - destruct (pillTimer s); [|discriminate]. injection Hrun as <-. cbn.
    specialize (Hins (PillRecv n)). cbn in Hins. lia.
  - destruct (timers s !! t) as [tm|]; [|discriminate].
    destruct (fired tm); [|discriminate]. injection Hrun as <-. cbn.
    specialize (Hins PillRelock). cbn in Hins. lia.
  - destruct (pillMx s) eqn:Hmx; [discriminate|]. injection Hrun as <-.
    cbn. specialize (Hins PillStop). cbn in Hins. lia.
  - destruct (pillTimer s); [|discriminate]. injection Hrun as <-. cbn.
    replace (procs (stopTimer n s)) with (procs s)
      by (unfold stopTimer; destruct (timers s !! _); reflexivity).
    replace (pillMx (stopTimer n s)) with (pillMx s)
      by (unfold stopTimer; destruct (timers s !! _); reflexivity).
    specialize (Hins PillNormal). cbn in Hins. lia.
  - apply bind_done in Hrun as (s1 & Hup & [= <-]).
    apply updateGhosts_pill in Hup as [Hmx Hpr]. cbn. rewrite Hmx, Hpr.
    specialize (Hins PillRelease). cbn in Hins. lia.
  - injection Hrun as <-. cbn. specialize (Hhas eq_refl).
    specialize (Hins PillDone). cbn in Hins.
    destruct (pillMx s); lia.
  - discriminate.
Qed.

Lemma step_pillMxKept l s s' :
  pillMxKept s -> step l s = Done s' -> pillMxKept s'.
Proof.
  intros Hinv Hrun. destruct l as [draws|buffer cnt err|j|t]; simpl in Hrun.
  - apply mainStep_pill in Hrun as [Hmx [Hpr|Hpr]];
      unfold pillMxKept in *; rewrite Hmx, Hpr; [exact Hinv|].
    rewrite countHolders_app. cbn. lia.
  - unfold readerStep in Hrun. destruct (sending s); [|discriminate].
    injection Hrun as <-. exact Hinv.
  - eapply procStep_pillMxKept; eassumption.
  - unfold fireStep in Hrun.
    destruct (timers s !! t) as [tm|]; [|discriminate].
    destruct (active tm); [|discriminate]. injection Hrun as <-. exact Hinv.
Qed.

Lemma reachable_pillMxKept s : reachable s -> pillMxKept s.
Proof.
  intros (lines & secs & ls & Hrun). revert Hrun.
  assert (Hstart : pillMxKept (boot lines secs)).
  { pose proof (scanMaze_frame lines 0 (set_maze lines initial)) as H.
    cbn zeta in H. destruct H as (_ & _ & _ & _ & Hmx & _ & _ & Hpr & _).
    unfold pillMxKept, boot, loadMaze. cbn [procs pillMx maze set_maze initial app].
    rewrite Hmx, Hpr. reflexivity. }
  revert Hstart. generalize (boot lines secs). clear lines secs. revert s.
  induction ls as [|l ls IH]; intros s s0 Hinv Hrun; simpl in Hrun.
  - now injection Hrun as <-.
  - apply bind_done in Hrun as (s1 & Hstep & Hrest).
    eapply IH; [|exact Hrest]. eapply step_pillMxKept; eassumption.
Qed.

(** X8. [pillMx] is a mutual exclusion between the [processPill]
    goroutines (lines 670-676 and 678-681): in every state the program
    reaches, at most one goroutine is between a [pillMx.Lock()] and the
    [pillMx.Unlock()] that follows, and the mutex is held exactly when
    there is one. *)
Theorem X8_pillMx_excludes (s : state) :
  reachable s ->
  (pillMx s = true <->
   exists j pc, procs s !! j = Some pc /\ holdsPillMx pc = true) /\
  (forall j1 j2 pc1 pc2,
     procs s !! j1 = Some pc1 -> holdsPillMx pc1 = true ->
     procs s !! j2 = Some pc2 -> holdsPillMx pc2 = true -> j1 = j2).
Proof.
  intros Hreach. pose proof (reachable_pillMxKept s Hreach) as Hinv.
  unfold pillMxKept in Hinv. split; [split|].
  - intros Hmx. rewrite Hmx in Hinv. apply countHolders_some. lia.
  - intros (j & pc & Hj & Hpc).
    pose proof (countHolders_lookup _ _ _ Hj Hpc).
    destruct (pillMx s); [reflexivity|lia].
  - intros j1 j2 pc1 pc2 H1 P1 H2 P2.
    destruct (decide (j1 = j2)) as [|Hne]; [assumption|].
    pose proof (countHolders_two _ _ _ _ _ H1 P1 H2 P2 Hne).
    destruct (pillMx s); lia.
Qed.

Lemma X8_pillMx_excludes_witness :
  exists s,
    exec (eatsPill ++ steps 2 0) (boot lane 10) = Done s /\
    (pillMx s = true <->
     exists j pc, procs s !! j = Some pc /\ holdsPillMx pc = true) /\
    (forall j1 j2 pc1 pc2,
       procs s !! j1 = Some pc1 -> holdsPillMx pc1 = true ->
       procs s !! j2 = Some pc2 -> holdsPillMx pc2 = true -> j1 = j2).
Proof.
  eexists. split; [vm_compute; reflexivity|].
  apply X8_pillMx_excludes.
  exists lane, 10, (eatsPill ++ steps 2 0). vm_compute. reflexivity.
Defined.

(** ** The life of one pill *)

Lemma goto_here j pc s :
  (j < length (procs s))%nat -> procs (goto j pc s) !! j = Some pc.
Proof. intros H. cbn. now apply list_lookup_insert_eq. Qed.

Lemma at_PillLock j s :
  procs s !! j = Some PillLock -> pillMx s = false ->
  procStep j s = Done (goto j PillBlue (set_pillMx true s)).
Proof. intros H1 H2. unfold procStep. now rewrite H1, H2. Qed.

Lemma at_PillBlue j s :
  procs s !! j = Some PillBlue -> ghostStatusMx s = 0%nat ->
  procStep j s =
  Done (goto j PillArm (set_ghosts (repaint GhostStatusBlue <$> ghosts s) s)).
Proof.
  intros H1 H2. unfold procStep. rewrite H1, updateGhosts_all by exact H2.
  reflexivity.
Qed.

Lemma at_PillArm j s :
  procs s !! j = Some PillArm ->
  procStep j s =
  Done (goto j PillUnlock
          (newTimer match pillTimer s with
                    | Some t => stopTimer t s
                    | None => s
                    end)).
Proof. intros H1. unfold procStep. now rewrite H1. Qed.

Lemma at_PillUnlock j s :
  procs s !! j = Some PillUnlock ->
  procStep j s = Done (goto j PillChan (set_pillMx false s)).
Proof. intros H1. unfold procStep. now rewrite H1. Qed.

Lemma at_PillChan j s t :
  procs s !! j = Some PillChan -> pillTimer s = Some t ->
  procStep j s = Done (goto j (PillRecv t) s).
Proof. intros H1 H2. unfold procStep. now rewrite H1, H2. Qed.

Lemma at_PillRecv j s t tm :
  procs s !! j = Some (PillRecv t) -> timers s !! t = Some tm ->
  procStep j s =
  if fired tm
  then Done (goto j PillRelock
               (setTimer t (mkTimer (duration tm) (active tm) false) s))
  else Blocks.
Proof. intros H1 H2. unfold procStep. now rewrite H1, H2. Qed.

Lemma at_PillRelock j s :
  procs s !! j = Some PillRelock -> pillMx s = false ->
  procStep j s = Done (goto j PillStop (set_pillMx true s)).
Proof. intros H1 H2. unfold procStep. now rewrite H1, H2. Qed.

Lemma at_PillStop j s t :
  procs s !! j = Some PillStop -> pillTimer s = Some t ->
  procStep j s = Done (goto j PillNormal (stopTimer t s)).
Proof. intros H1 H2. unfold procStep. now rewrite H1, H2. Qed.

Lemma at_PillNormal j s :
  procs s !! j = Some PillNormal -> ghostStatusMx s = 0%nat ->
  procStep j s =
  Done (goto j PillRelease
          (set_ghosts (repaint GhostStatusNormal <$> ghosts s) s)).
Proof.
  intros H1 H2. unfold procStep. rewrite H1, updateGhosts_all by exact H2.
  reflexivity.
Qed.

Lemma at_PillRelease j s :
  procs s !! j = Some PillRelease ->
  procStep j s = Done (goto j PillDone (set_pillMx false s)).
Proof. intros H1. unfold procStep. now rewrite H1. Qed.

Lemma at_PillDone j s : procs s !! j = Some PillDone -> procStep j s = Blocks.
Proof. intros H1. unfold procStep. now rewrite H1. Qed.

Lemma stopOld_frame s :
  let s' := match pillTimer s with
            | Some t => stopTimer t s
            | None => s
            end in
  length (timers s') = length (timers s) /\ procs s' = procs s /\
  ghosts s' = ghosts s /\ pillMx s' = pillMx s /\
  ghostStatusMx s' = ghostStatusMx s /\ pillDurationSecs s' = pillDurationSecs s /\
  loopView s' = loopView s /\ ledger s' = ledger s.
Proof.
  cbn zeta. destruct (pillTimer s) as [t|]; [|repeat split].
  unfold stopTimer. destruct (timers s !! t); [|repeat split].
  cbn. rewrite length_insert. repeat split.
Qed.

Lemma repaint_twice st st' (gs : list ghost) :
  repaint st <$> (repaint st' <$> gs) = repaint st <$> gs.
Proof. rewrite <- list_fmap_compose. reflexivity. Qed.

(** From the Lock of line 670 to the receive of line 677. *)
Lemma pill_arms j s :
  procs s !! j = Some PillLock -> pillMx s = false -> ghostStatusMx s = 0%nat ->
  let t := length (timers s) in
  let d := Int.mul 1000000000 (pillDurationSecs s) in
  exists s',
    exec (steps 5 j) s = Done s' /\
    ghosts s' = repaint GhostStatusBlue <$> ghosts s /\
    procs s' = <[j := PillRecv t]> (procs s) /\
    pillMx s' = false /\ ghostStatusMx s' = 0%nat /\
    pillTimer s' = Some t /\ timers s' !! t = Some (mkTimer d true false) /\
    loopView s' = loopView s /\ ledger s' = ledger s.
Proof.
  intros Hpc Hmx Hfree t d.
  pose proof (lookup_lt_Some _ _ _ Hpc) as Hj.
  set (s1 := goto j PillBlue (set_pillMx true s)).
  set (s2 := goto j PillArm (set_ghosts (repaint GhostStatusBlue <$> ghosts s1) s1)).
  set (s2' := match pillTimer s2 with
              | Some t0 => stopTimer t0 s2
              | None => s2
              end).
  set (s3 := goto j PillUnlock (newTimer s2')).
  set (s4 := goto j PillChan (set_pillMx false s3)).
  set (s5 := goto j (PillRecv t) s4).
  destruct (stopOld_frame s2) as (Hlen & Hprocs & Hghosts & Hmx2 & Hfree2 & Hdur
                                  & Hloop & Hledger).
  fold s2' in Hlen, Hprocs, Hghosts, Hmx2, Hfree2, Hdur, Hloop, Hledger.
  assert (E1 : procStep j s = Done s1) by now apply at_PillLock.
  assert (E2 : procStep j s1 = Done s2).
  { apply at_PillBlue; [now apply goto_here|exact Hfree]. }
  assert (E3 : procStep j s2 = Done s3).
  { apply at_PillArm. apply goto_here. cbn. now rewrite length_insert. }
  assert (Hj3 : (j < length (procs (newTimer s2')))%nat).
  { cbn. rewrite Hprocs. cbn. now rewrite !length_insert. }
  assert (E4 : procStep j s3 = Done s4).
  { apply at_PillUnlock. now apply goto_here. }
  assert (E5 : procStep j s4 = Done s5).
  { apply at_PillChan.
    - apply goto_here. cbn. now rewrite length_insert.
    - cbn. rewrite Hlen. reflexivity. }
  exists s5. split.
  { cbn [steps replicate exec step].
    now rewrite E1, bind_now, E2, bind_now, E3, bind_now, E4, bind_now, E5. }
  split; [cbn; now rewrite Hghosts|].
  split; [cbn; rewrite Hprocs; cbn; now rewrite !list_insert_insert_eq|].
  split; [reflexivity|]. split; [cbn; now rewrite Hfree2|].
  split; [cbn; now rewrite Hlen|].
  split.
  { cbn. rewrite Hdur. apply list_lookup_middle. now rewrite Hlen. }
  split.
  - unfold loopView in *. cbn. cbn in Hloop. exact Hloop.
  - unfold ledger in *. cbn. cbn in Hledger. exact Hledger.
Qed.

Lemma stopTimer_at t s tm :
  timers s !! t = Some tm ->
  stopTimer t s = setTimer t (mkTimer (duration tm) false (fired tm)) s.
Proof. intros H. unfold stopTimer. now rewrite H. Qed.

(** From the receive of line 677 to the end. *)
Lemma pill_expires j s t tm :
  procs s !! j = Some (PillRecv t) -> pillMx s = false ->
  ghostStatusMx s = 0%nat -> pillTimer s = Some t ->
  timers s !! t = Some tm -> active tm = true -> fired tm = false ->
  procStep j s = Blocks /\
  exists s',
    exec (LFire t :: steps 5 j) s = Done s' /\
    ghosts s' = repaint GhostStatusNormal <$> ghosts s /\
    procs s' = <[j := PillDone]> (procs s) /\
    pillMx s' = false /\ ghostStatusMx s' = 0%nat /\ pillTimer s' = Some t /\
    timers s' = <[t := mkTimer (duration tm) false false]> (timers s) /\
    procStep j s' = Blocks /\ fireStep t s' = Blocks /\
    loopView s' = loopView s /\ ledger s' = ledger s.
Proof.
  intros Hpc Hmx Hfree Hpt Htm Hact Hfired.
  pose proof (lookup_lt_Some _ _ _ Hpc) as Hj.
  pose proof (lookup_lt_Some _ _ _ Htm) as Ht.
  split.
  { rewrite (at_PillRecv j s t tm Hpc Htm), Hfired. reflexivity. }
  set (d := duration tm).
  set (s6 := setTimer t (mkTimer d false true) s).
  set (s7 := goto j PillRelock (setTimer t (mkTimer d false false) s6)).
  set (s8 := goto j PillStop (set_pillMx true s7)).
  set (s9 := goto j PillNormal (setTimer t (mkTimer d false false) s8)).
  set (s10 := goto j PillRelease
                (set_ghosts (repaint GhostStatusNormal <$> ghosts s9) s9)).
  set (s11 := goto j PillDone (set_pillMx false s10)).
  assert (E6 : fireStep t s = Done s6).
  { unfold fireStep. now rewrite Htm, Hact. }
  assert (T6 : timers s6 !! t = Some (mkTimer d false true)).
  { cbn. now apply list_lookup_insert_eq. }
  assert (E7 : procStep j s6 = Done s7).
  { rewrite (at_PillRecv j s6 t _ Hpc T6). reflexivity. }
  assert (E8 : procStep j s7 = Done s8).
  { apply at_PillRelock; [|exact Hmx]. now apply goto_here. }
  assert (T8 : timers s8 !! t = Some (mkTimer d false false)).
  { cbn. apply list_lookup_insert_eq. now rewrite length_insert. }
  assert (E9 : procStep j s8 = Done s9).
  { rewrite (at_PillStop j s8 t).
    - now rewrite (stopTimer_at t s8 _ T8).
    - apply goto_here. cbn. now rewrite length_insert.
    - exact Hpt. }
  assert (E10 : procStep j s9 = Done s10).
  { apply at_PillNormal; [|exact Hfree].
    apply goto_here. cbn. now rewrite !length_insert. }
  assert (E11 : procStep j s10 = Done s11).
  { apply at_PillRelease. apply goto_here. cbn. now rewrite !length_insert. }
  exists s11. split.
  { cbn [steps replicate exec step].
    now rewrite E6, bind_now, E7, bind_now, E8, bind_now, E9, bind_now,
      E10, bind_now, E11. }
  split; [reflexivity|].
  split; [cbn; now rewrite !list_insert_insert_eq|].
  split; [reflexivity|]. split; [exact Hfree|]. split; [exact Hpt|].
  split; [cbn; now rewrite !list_insert_insert_eq|].
  split.
  { apply at_PillDone. apply goto_here. cbn. now rewrite !length_insert. }
  split.
  { unfold fireStep.
    assert (T11 : timers s11 !! t = Some (mkTimer d false false)).
    { cbn. apply list_lookup_insert_eq. now rewrite !length_insert. }
    now rewrite T11. }
  split; reflexivity.
Qed.

(** X9. A pill that is not followed by another: when a [processPill]
    goroutine (lines 669-682) starts with both locks free and runs
    alone, its first five steps turn every ghost Blue, start a timer of
    [pill_duration_secs] seconds and leave the goroutine waiting for it,
    with the mutex free again; it cannot go on before the timer fires;
    when the timer has fired, five more steps turn every ghost Normal
    and end the goroutine. Positions of the ghosts, lives, score and
    maze are not touched, and afterwards neither the goroutine nor the
    timer can do anything again. *)
Theorem X9_pill_turns_blue_then_normal (j : nat) (s : state) :
  procs s !! j = Some PillLock -> pillMx s = false -> ghostStatusMx s = 0%nat ->
  let t := length (timers s) in
  exists s1 s2,
    exec (steps 5 j) s = Done s1 /\
    ghosts s1 = repaint GhostStatusBlue <$> ghosts s /\
    pillMx s1 = false /\ pillTimer s1 = Some t /\
    timers s1 !! t =
      Some (mkTimer (Int.mul 1000000000 (pillDurationSecs s)) true false) /\
    procStep j s1 = Blocks /\
    exec (LFire t :: steps 5 j) s1 = Done s2 /\
    ghosts s2 = repaint GhostStatusNormal <$> ghosts s /\
    pillMx s2 = false /\ procs s2 !! j = Some PillDone /\
    procStep j s2 = Blocks /\ fireStep t s2 = Blocks /\
    loopView s2 = loopView s /\ ledger s2 = ledger s.
Proof.
  intros Hpc Hmx Hfree t.
  pose proof (lookup_lt_Some _ _ _ Hpc) as Hj.
  destruct (pill_arms j s Hpc Hmx Hfree)
    as (s1 & E1 & G1 & P1 & M1 & F1 & T1 & TM1 & L1 & D1).
  fold t in P1, T1, TM1.
  assert (Hpc1 : procs s1 !! j = Some (PillRecv t)).
  { rewrite P1. now apply list_lookup_insert_eq. }
  destruct (pill_expires j s1 t _ Hpc1 M1 F1 T1 TM1 eq_refl eq_refl)
    as (B1 & s2 & E2 & G2 & P2 & M2 & F2 & T2 & TM2 & B2 & B3 & L2 & D2).
  exists s1, s2. repeat split; try assumption; try congruence.
  - rewrite G2, G1. apply repaint_twice.
  - rewrite P2. apply list_lookup_insert_eq. rewrite P1.
    now rewrite length_insert.
Qed.

Lemma X9_pill_turns_blue_then_normal_witness :
  exists s s1 s2,
    exec eatsPill (boot lane 10) = Done s /\
    procs s !! 0%nat = Some PillLock /\ pillMx s = false /\
    ghostStatusMx s = 0%nat /\
    exec (steps 5 0) s = Done s1 /\
    ghosts s1 = repaint GhostStatusBlue <$> ghosts s /\
    pillMx s1 = false /\ pillTimer s1 = Some (length (timers s)) /\
    timers s1 !! length (timers s) =
      Some (mkTimer (Int.mul 1000000000 (pillDurationSecs s)) true false) /\
    procStep 0 s1 = Blocks /\
    exec (LFire (length (timers s)) :: steps 5 0) s1 = Done s2 /\
    ghosts s2 = repaint GhostStatusNormal <$> ghosts s /\
    pillMx s2 = false /\ procs s2 !! 0%nat = Some PillDone /\
    procStep 0 s2 = Blocks /\ fireStep (length (timers s)) s2 = Blocks /\
    loopView s2 = loopView s /\ ledger s2 = ledger s.
Proof.
  pose (s := mkState ["######"; "#P G.#"; "######"]%string (mkSprite 1 2 1 1)
               [mkGhost (mkSprite 1 3 1 3) GhostStatusNormal] 10 10 1 3 None
               false 0%nat [] [PillLock] [] PGhosts []).
  destruct (X9_pill_turns_blue_then_normal 0 s eq_refl eq_refl eq_refl)
    as (s1 & s2 & Hrest).
  exists s, s1, s2. split; [vm_compute; reflexivity|].
  split; [reflexivity|]. split; [reflexivity|]. split; [reflexivity|].
  exact Hrest.
Defined.

(** ** The lives and the read lock *)

Lemma movePlayer_loop dir s s' :
  movePlayer dir s = Done s' ->
  lives s' = lives s /\ ghosts s' = ghosts s /\
  ghostStatusMx s' = ghostStatusMx s.
Proof.
  intros Hrun. unfold movePlayer in Hrun.
  apply bind_done in Hrun as ([r c] & _ & Hrun).
  apply bind_done in Hrun as (ch & _ & Hrun).
  destruct (Ascii.eqb ch ".").
  - unfold removeDot in Hrun. returned. repeat split.
  - destruct (Ascii.eqb ch "X").
    + unfold removeDot in Hrun. returned. repeat split.
    + injection Hrun as <-. repeat split.
Qed.

Lemma moveEach_length m gs : forall draws gs',
  moveEach m gs draws = Done gs' -> length gs' = length gs.
Proof.
  induction gs as [|g gs IH]; intros draws gs' Hrun; cbn [moveEach] in Hrun.
  - now injection Hrun as <-.
  - apply bind_done in Hrun as ([r c] & _ & Hrun).
    apply bind_done in Hrun as (rest & Hrest & [= <-]).
    simpl. f_equal. exact (IH _ _ Hrest).
Qed.

Lemma collideNext_livesAt n i s s' :
  length (ghosts s') = n -> (i <= n)%nat ->
  - Z.of_nat i <= lives s' <= 3 -> lockLeft s' ->
  mainpc s' = collideNext i s -> length (ghosts s) = n ->
  livesAt n s'.
Proof.
  intros Hlen Hi Hlives Hlock Hpc Hn. unfold livesAt. rewrite Hpc.
  unfold collideNext. rewrite Hn.
  destruct (Nat.ltb_spec i n); [repeat split; try assumption; lia|].
  split; [lia|exact Hlock].
Qed.

Lemma mainStep_ticking n draws s s' :
  Z.of_nat n <= Int.max_int ->
  ticking n s -> mainStep draws s = Done s' -> ticking n s'.
Proof.
  intros Hn [Hlen Hat] Hrun. unfold livesAt in Hat. unfold mainStep in Hrun.
  destruct (mainpc s) as [| |i|i| |] eqn:Hpc.
  - (* the select *)
    apply bind_done in Hrun as (s1 & Hsel & [= <-]).
    destruct Hat as [Hlives Hfree].
    assert (H1 : 0 <= lives s1 <= 3 /\ ghosts s1 = ghosts s /\
                 ghostStatusMx s1 = ghostStatusMx s).
    { unfold selectInput, handleInput in Hsel.
      destruct (sending s) as [|inp rest].
      - injection Hsel as <-. repeat split; lia.
      - apply movePlayer_loop in Hsel as (Hl & Hg & Hm).
        rewrite Hl, Hg, Hm.
        destruct (String.eqb inp "ESC"); cbn; repeat split; lia. }
    destruct H1 as (Hl & Hg & Hm).
    split; [cbn; now rewrite Hg|]. unfold livesAt. cbn.
    split; [exact Hl|congruence].
  - (* the ghosts move *)
    apply bind_done in Hrun as (s1 & Hmv & [= <-]).
    destruct Hat as [Hlives Hfree].
    unfold moveGhosts in Hmv.
    apply bind_done in Hmv as (gs & Hgs & [= <-]).
    apply moveEach_length in Hgs.
    assert (Hlen' : length gs = n) by congruence.
    split; [exact Hlen'|].
    apply (collideNext_livesAt n 0 (set_ghosts gs s));
      [exact Hlen'|lia|cbn; lia|left; exact Hfree|reflexivity|exact Hlen'].
  - (* a ghost is looked at *)
    apply bind_done in Hrun as ([s1 eat] & Hhd & [= <-]).
    destruct Hat as (Hi & Hlives & Hlock).
    destruct (lookup_lt_is_Some_2 (ghosts s) i) as [g Hg]; [lia|].
    unfold collideHead in Hhd. rewrite Hg in Hhd.
    destruct ((row (player s) =? row (position g)) &&
              (col (player s) =? col (position g))).
    + destruct (status g).
      * (* Normal: a life is lost *)
        cbn in Hhd.
        assert (Hfit : Int.sub (lives s) 1 = lives s - 1).
        { apply sub_fits, fits_range. unfold Int.max_int in *. lia. }
        rewrite Hfit in Hhd.
        destruct (Z.eqb_spec (lives s - 1) 0) as [Hz|Hnz]; cbn in Hhd.
        -- injection Hhd as <- <-. split; [exact Hlen|].
           match goal with |- livesAt n (set_mainpc (collideNext _ ?x) _) =>
             apply (collideNext_livesAt n (S i) x) end;
             [exact Hlen|lia|cbn; lia| |reflexivity|exact Hlen].
           right. destruct Hlock as [Hfree|[_ Hdead]]; [|lia].
           cbn. rewrite Hfree. split; [reflexivity|lia].
        -- injection Hhd as <- <-. split; [exact Hlen|].
           match goal with |- livesAt n (set_mainpc (collideNext _ ?x) _) =>
             apply (collideNext_livesAt n (S i) x) end;
             [exact Hlen|lia|cbn; lia| |reflexivity|exact Hlen].
           destruct Hlock as [Hfree|[Hone Hdead]];
             [left; exact Hfree|right; split; [exact Hone|cbn; lia]].
      * (* Blue: to be eaten *)
        cbn in Hhd. injection Hhd as <- <-. split; [exact Hlen|].
        unfold livesAt. cbn. repeat split; try assumption; try lia.
    + injection Hhd as <- <-. split; [exact Hlen|].
      apply (collideNext_livesAt n (S i) s);
        [exact Hlen|lia|cbn; lia|exact Hlock|reflexivity|exact Hlen].
  - (* a ghost is eaten *)
    apply bind_done in Hrun as (s1 & Heat & [= <-]).
    destruct Hat as (Hi & Hlives & Hlock).
    unfold collideEat, updateGhosts in Heat.
    destruct (ghostStatusMx s) eqn:Hmx; [|discriminate].
    rewrite bind_now in Heat. cbn [foldl ghosts set_ghosts] in Heat.
    destruct (setStatus GhostStatusNormal (ghosts s) i !! i) as [g'|] eqn:Hg';
      [|discriminate].
    injection Heat as <-.
    assert (Hlen' : length (<[i := mkGhost
              (moveTo (startRow (position g')) (startCol (position g'))
                 (position g')) (status g')]>
              (setStatus GhostStatusNormal (ghosts s) i)) = n).
    { now rewrite length_insert, setStatus_length. }
    split; [exact Hlen'|].
    match goal with |- livesAt n (set_mainpc (collideNext _ ?x) _) =>
      apply (collideNext_livesAt n (S i) x) end;
      [exact Hlen'|lia|cbn; lia|left; exact Hmx|reflexivity|exact Hlen'].
  - (* the end of the tick *)
    apply bind_done in Hrun as (s1 & Hpr & Hrun).
    destruct Hat as (Hlives & Hlock).
    unfold printScreen, RUnlock, RLock in Hpr. cbn in Hpr.
    injection Hpr as <-.
    unfold checkGameOver in Hrun.
    match type of Hrun with context [gameOver ?x] =>
      destruct (gameOver x) eqn:Hover end.
    + apply gameOver_spec in Hover. cbn in Hover.
      assert (Hs' : lives s' = lives s /\ ghosts s' = ghosts s /\
                    ghostStatusMx s' = ghostStatusMx s /\
                    numDots s' = numDots s /\ mainpc s' = PExit).
      { revert Hrun. cbn [lives set_ghostStatusMx emit RLock].
        destruct (lives s =? 0); intros [= <-]; repeat split. }
      destruct Hs' as (Hl & Hg & Hm & Hd & Hp).
      split; [congruence|]. unfold livesAt. rewrite Hp, Hl, Hd.
      repeat split; try lia; try assumption.
      unfold lockLeft in *. now rewrite Hl, Hm.
    + injection Hrun as <-. split; [exact Hlen|].
      unfold livesAt. cbn.
      assert (Halive : 0 < lives s).
      { apply not_true_iff_false in Hover. rewrite gameOver_spec in Hover.
        cbn in Hover. lia. }
      split; [lia|]. destruct Hlock as [Hfree|[_ Hdead]]; [exact Hfree|lia].
  - discriminate.
Qed.

Lemma step_ticking n l s s' :
  Z.of_nat n <= Int.max_int -> ticking n s -> step l s = Done s' -> ticking n s'.
Proof.
  intros Hn Hinv Hrun.
  destruct l as [draws|buffer cnt err|j|t];
    [exact (mainStep_ticking n draws s s' Hn Hinv Hrun)| | |].
  all: destruct Hinv as [Hlen Hat].
  all: match type of Hrun with step ?l _ = _ =>
         destruct (aside_frame l _ _ I Hrun) as (Hloop & _ & Hmx & Hpos) end.
  all: unfold loopView in Hloop; injection Hloop as Hpc Hd Hl _.
  all: assert (Hlen' : length (ghosts s') = n)
         by (rewrite <- Hlen, <- (length_fmap position (ghosts s')), Hpos;
             apply length_fmap).
  all: split; [exact Hlen'|].
  all: unfold livesAt, lockLeft in *; rewrite Hpc, Hl, Hmx, Hd; exact Hat.
Qed.

Lemma exec_ticking n ls : forall s s',
  Z.of_nat n <= Int.max_int -> ticking n s -> exec ls s = Done s' ->
  ticking n s'.
Proof.
  induction ls as [|l ls IH]; intros s s' Hn Hinv Hrun; simpl in Hrun.
  - now injection Hrun as <-.
  - apply bind_done in Hrun as (s1 & Hstep & Hrest).
    eapply IH; [exact Hn| |exact Hrest]. eapply step_ticking; eassumption.
Qed.

Lemma boot_ghost_count lines secs :
  length (ghosts (boot lines secs)) = countCells "G" lines.
Proof.
  destruct (scanMaze_sprites (fun _ => True) (fun _ => True) lines 0
              (set_maze lines initial)) as (_ & _ & Hlen);
    [constructor|left; exact I|intros; exact I|intros; exact I|].
  exact Hlen.
Qed.

Lemma boot_ticking lines secs :
  ticking (countCells "G" lines) (boot lines secs).
Proof.
  split; [apply boot_ghost_count|].
  pose proof (scanMaze_frame lines 0 (set_maze lines initial)) as H.
  cbn zeta in H. destruct H as (_ & _ & Hl & _ & _ & Hmx & _ & _ & _ & Hpc & _).
  unfold livesAt, boot, loadMaze.
  cbn [mainpc lives ghostStatusMx maze set_maze initial app].
  rewrite Hpc, Hl, Hmx. cbn. split; [lia|reflexivity].
Qed.

(** X10. After a maze was loaded (with a number of ghosts that is an
    [int]), the number of ghosts never changes and the lives are never
    more than the 3 of the start and never less than minus the number
    of ghosts: Escape sets them to 0 and every ghost on the cell of the
    player then takes one more in that tick (lines 850-852, 863-868).
    Whenever the loop is about to poll the input there is at least one
    life, and the loop is only left with no dot or no life. *)
Theorem X10_lives_bounded
  (lines : list string) (secs : Z) (ls : list label) (s : state) :
  Z.of_nat (countCells "G" lines) <= Int.max_int ->
  exec ls (boot lines secs) = Done s ->
  length (ghosts s) = countCells "G" lines /\
  - Z.of_nat (countCells "G" lines) <= lives s <= 3 /\
  (mainpc s = PSelect -> 1 <= lives s) /\
  (mainpc s = PExit -> numDots s = 0 \/ lives s <= 0).
Proof.
  intros Hn Hrun.
  pose proof (exec_ticking _ _ _ _ Hn (boot_ticking lines secs) Hrun)
    as [Hlen Hat].
  split; [exact Hlen|]. unfold livesAt in Hat.
  destruct (mainpc s); repeat split; try discriminate; try lia;
    try (intros _; tauto).
Qed.

Lemma X10_lives_bounded_witness :
  Z.of_nat (countCells "G" alley) <= Int.max_int /\
  exists s,
    exec (lastLife ++ [LMain []; LMain []]) (boot alley 10) = Done s /\
    length (ghosts s) = countCells "G" alley /\
    - Z.of_nat (countCells "G" alley) <= lives s <= 3 /\
    (mainpc s = PSelect -> 1 <= lives s) /\
    (mainpc s = PExit -> numDots s = 0 \/ lives s <= 0).
Proof.
  assert (H : Z.of_nat (countCells "G" alley) <= Int.max_int)
    by (vm_compute; discriminate).
  split; [exact H|].
  eexists. split; [vm_compute; reflexivity|].
  apply (X10_lives_bounded alley 10 (lastLife ++ [LMain []; LMain []]) _ H).
  vm_compute. reflexivity.
Defined.

(** X11. Between the steps of the game loop the read lock of
    [ghostStatusMx] is held at most once, and it is only left held
    after the lives have dropped to zero or below, in the loop over the
    ghosts or after it (lines 865-875): as long as there is a life left
    no read lock is left behind, so no [processPill] goroutine waits
    for the write lock in vain while the game goes on. *)
Theorem X11_read_lock_left_only_when_lost
  (lines : list string) (secs : Z) (ls : list label) (s : state) :
  Z.of_nat (countCells "G" lines) <= Int.max_int ->
  exec ls (boot lines secs) = Done s ->
  (ghostStatusMx s <= 1)%nat /\
  (0 < lives s -> ghostStatusMx s = 0%nat) /\
  (ghostStatusMx s = 1%nat ->
   lives s <= 0 /\ mainpc s <> PSelect /\ mainpc s <> PGhosts).
Proof.
  intros Hn Hrun.
  pose proof (exec_ticking _ _ _ _ Hn (boot_ticking lines secs) Hrun)
    as [Hlen Hat].
  unfold livesAt, lockLeft in Hat.
  destruct (mainpc s); repeat split; try discriminate; try lia.
Qed.

Lemma X11_read_lock_left_only_when_lost_witness :
  Z.of_nat (countCells "G" alley) <= Int.max_int /\
  exists s,
    exec (lastLife ++ [LMain []]) (boot alley 10) = Done s /\
    (ghostStatusMx s <= 1)%nat /\
    (0 < lives s -> ghostStatusMx s = 0%nat) /\
    (ghostStatusMx s = 1%nat ->
     lives s <= 0 /\ mainpc s <> PSelect /\ mainpc s <> PGhosts).
Proof.
  assert (H : Z.of_nat (countCells "G" alley) <= Int.max_int)
    by (vm_compute; discriminate).
  split; [exact H|].
  eexists. split; [vm_compute; reflexivity|].
  apply (X11_read_lock_left_only_when_lost alley 10 (lastLife ++ [LMain []]) _ H).
  vm_compute. reflexivity.
Defined.

(** ** Staying on the board *)

Lemma cell_on_grid m r c ch :
  rectangular m -> cell m r c = Done ch -> inBounds m r c.
Proof.
  intros Hrect Hcell. apply cell_done in Hcell as (line & Hline & Hch).
  pose proof (rectangular_row _ _ _ Hrect Hline) as Hlen.
  apply index_done in Hline as [Hr Hline].
  apply byteAt_done in Hch as [Hc Hch].
  apply lookup_lt_Some in Hline. apply get_some_range in Hch.
  unfold inBounds, rowCount, len, slen in *. lia.
Qed.

Lemma landed_offWall r c line ch s r' c' :
  rectangular (maze s) ->
  index (maze s) r = Done line -> byteAt line c = Done ch ->
  (inBounds (maze s) r' c' -> inBounds (maze (landed r c line ch s)) r' c') /\
  (offWall (maze s) r' c' -> offWall (maze (landed r c line ch s)) r' c').
Proof.
  intros Hrect Hline Hch.
  destruct (landed_grid r c line ch s Hrect Hline Hch) as (_ & Hrows & Hcols).
  assert (Hin : inBounds (maze s) r' c' ->
                inBounds (maze (landed r c line ch s)) r' c').
  { unfold inBounds. now rewrite Hrows, Hcols. }
  split; [exact Hin|]. intros [Hb Hw]. split; [auto|].
  unfold landed.
  destruct (Ascii.eqb ch "."); cbn [maze set_maze set_score set_numDots
                                    set_player spawn set_procs].
  - rewrite (blanked_cell _ _ _ _ _ r' c' Hline Hch).
    destruct ((r' =? r) && (c' =? c)); [discriminate|exact Hw].
  - destruct (Ascii.eqb ch "X"); cbn [maze set_maze set_score set_player
                                      spawn set_procs]; [|exact Hw].
    rewrite (blanked_cell _ _ _ _ _ r' c' Hline Hch).
    destruct ((r' =? r) && (c' =? c)); [discriminate|exact Hw].
Qed.

(** [movePlayer] returns when the player is on a rectangular grid. *)
Lemma movePlayer_total dir s :
  rectangular (maze s) -> onGrid (maze s) (player s) ->
  exists r c line ch,
    inBounds (maze s) r c /\
    index (maze s) r = Done line /\ byteAt line c = Done ch /\
    movePlayer dir s = Done (landed r c line ch s).
Proof.
  intros Hrect Hon.
  destruct (makeMove_stays (maze s) _ _ dir Hrect Hon) as (r & c & Hmove & Hin).
  destruct (cell_in_bounds _ _ _ Hrect Hin) as [ch Hcell].
  apply cell_done in Hcell as (line & Hline & Hch).
  exists r, c, line, ch. repeat split; try assumption; try apply Hin.
  apply movePlayer_lands; try assumption.
  now apply rectangular_representable.
Qed.

Lemma moveEach_placed m gs : forall draws,
  rectangular m -> Forall (ghostPlaced m) (position <$> gs) ->
  exists gs',
    moveEach m gs draws = Done gs' /\
    Forall (ghostPlaced m) (position <$> gs') /\ length gs' = length gs.
Proof.
  induction gs as [|g gs IH]; intros draws Hrect Hall.
  - exists []. repeat split. constructor.
  - cbn in Hall. inversion Hall as [|? ? Hg Hgs]; subst.
    destruct Hg as [[Hin Hw] Hstart].
    destruct (makeMove_in_bounds m _ _ (drawDirection (hd 0 draws)) Hrect Hin)
      as (r' & c' & ch & _ & Hin' & Hch & Hmove).
    destruct (IH (tl draws) Hrect Hgs) as (gs' & Hrest & Hall' & Hlen).
    cbn [moveEach]. rewrite Hmove.
    destruct (Ascii.eqb_spec ch "#") as [->|Hne]; rewrite bind_now, Hrest, bind_now.
    + eexists. split; [reflexivity|]. split; [|cbn; now rewrite Hlen].
      cbn. constructor; [|exact Hall']. split; [split; assumption|exact Hstart].
    + eexists. split; [reflexivity|]. split; [|cbn; now rewrite Hlen].
      cbn. constructor; [|exact Hall']. split; [|exact Hstart].
      split; [exact Hin'|]. change (cell m r' c' <> Done "#"%char).
      rewrite Hch. congruence.
Qed.

Lemma setStatus_positions st gs i :
  position <$> setStatus st gs i = position <$> gs.
Proof.
  unfold setStatus. destruct (gs !! i) as [g|] eqn:Hg; [|reflexivity].
  rewrite list_fmap_insert. cbn. apply list_insert_id.
  now rewrite list_lookup_fmap, Hg.
Qed.

Lemma select_grounded s s' :
  grounded s -> selectInput s = Done s' ->
  rectangular (maze s') /\ onGrid (maze s') (player s') /\
  inBounds (maze s') (startRow (player s')) (startRow (player s')) /\
  Forall (ghostPlaced (maze s')) (position <$> ghosts s') /\
  (pillTimer s' = None -> Forall (fun pc => early pc = true) (procs s')).
Proof.
  intros [Hrect Hplayer Hrespawn Hghosts _ Htimer] Hsel.
  unfold selectInput, handleInput in Hsel.
  destruct (sending s) as [|inp rest]; [injection Hsel as <-; auto|].
  set (s0 := if String.eqb inp "ESC"
             then set_lives 0 (set_sending rest s) else set_sending rest s) in *.
  assert (Hsame : maze s0 = maze s /\ player s0 = player s /\
                  ghosts s0 = ghosts s /\ pillTimer s0 = pillTimer s /\
                  procs s0 = procs s).
  { unfold s0. destruct (String.eqb inp "ESC"); repeat split. }
  destruct Hsame as (Hm & Hp & Hg & Hpt & Hpr).
  rewrite <- Hm, <- Hp in Hplayer, Hrespawn. rewrite <- Hm in Hrect.
  rewrite <- Hm, <- Hg in Hghosts.
  destruct (movePlayer_total inp s0 Hrect Hplayer)
    as (r & c & line & ch & Hin & Hline & Hch & Hrun).
  rewrite Hrun in Hsel. injection Hsel as <-.
  destruct (landed_grid r c line ch s0 Hrect Hline Hch) as (Hrect' & _ & _).
  destruct (landed_frame r c line ch s0) as (_ & Hg' & _ & _ & _ & Hp').
  pose proof (movePlayer_timers _ _ _ Hrun) as [= _ Hpt'].
  pose proof (movePlayer_pill _ _ _ Hrun) as [_ Hpr'].
  split; [exact Hrect'|]. rewrite Hp', Hg'. cbn [moveTo row col startRow].
  split; [exact (proj1 (landed_offWall r c line ch s0 r c Hrect Hline Hch) Hin)|].
  split;
    [exact (proj1 (landed_offWall r c line ch s0 _ _ Hrect Hline Hch) Hrespawn)|].
  split.
  - eapply Forall_impl; [exact Hghosts|]. intros sp [H1 H2].
    split;
      apply (proj2 (landed_offWall r c line ch s0 _ _ Hrect Hline Hch));
      assumption.
  - rewrite Hpt', Hpt. intros Hnone. specialize (Htimer Hnone).
    destruct Hpr' as [->| ->]; rewrite Hpr; [exact Htimer|].
    apply Forall_app. split; [exact Htimer|]. now constructor.
Qed.

Lemma mainStep_grounded draws s s' :
  grounded s -> mainStep draws s = Done s' -> grounded s'.
Proof.
  intros Hinv Hrun. unfold mainStep in Hrun.
  destruct (mainpc s) as [| |i|i| |] eqn:Hpc.
  - apply bind_done in Hrun as (s1 & Hsel & [= <-]).
    destruct (select_grounded s s1 Hinv Hsel) as (H1 & H2 & H3 & H4 & H5).
    split; try assumption. exact I.
  - destruct Hinv as [Hrect Hplayer Hrespawn Hghosts _ Htimer].
    apply bind_done in Hrun as (s1 & Hmv & [= <-]).
    unfold moveGhosts in Hmv. apply bind_done in Hmv as (gs & Hgs & [= <-]).
    destruct (moveEach_placed (maze s) (ghosts s) draws Hrect Hghosts)
      as (gs' & Hgs' & Hall & _).
    rewrite Hgs' in Hgs. injection Hgs as <-.
    split; try assumption.
    cbn [mainpc set_mainpc]. unfold collideNext. cbn [ghosts set_ghosts].
    destruct (Nat.ltb_spec 0 (length gs')); [assumption|exact I].
  - destruct Hinv as [Hrect Hplayer Hrespawn Hghosts Hphase Htimer].
    rewrite Hpc in Hphase.
    apply bind_done in Hrun as ([s1 eat] & Hhd & [= <-]).
    assert (Hs1 : maze s1 = maze s /\ ghosts s1 = ghosts s /\
                  pillTimer s1 = pillTimer s /\ procs s1 = procs s /\
                  (player s1 = player s \/
                   player s1 = moveTo (startRow (player s)) (startRow (player s))
                                 (player s))).
    { unfold collideHead, RUnlock, RLock in Hhd.
      returned; cbn in *; returned; repeat split; auto. }
    destruct Hs1 as (Hm & Hg & Hpt & Hpr & Hp).
    split; cbn [maze player ghosts pillTimer procs mainpc set_mainpc];
      rewrite ?Hm, ?Hg, ?Hpt, ?Hpr; try assumption.
    + destruct Hp as [->| ->]; [exact Hplayer|exact Hrespawn].
    + destruct Hp as [->| ->]; exact Hrespawn.
    + destruct eat; [exact Hphase|].
      unfold collideNext. rewrite Hg.
      destruct (Nat.ltb_spec (S i) (length (ghosts s))); [assumption|exact I].
  - destruct Hinv as [Hrect Hplayer Hrespawn Hghosts Hphase Htimer].
    apply bind_done in Hrun as (s1 & Heat & [= <-]).
    unfold collideEat, updateGhosts in Heat.
    destruct (ghostStatusMx s); [|discriminate].
    rewrite bind_now in Heat. cbn [foldl ghosts set_ghosts] in Heat.
    destruct (setStatus GhostStatusNormal (ghosts s) i !! i) as [g'|] eqn:Hg';
      [|discriminate].
    injection Heat as <-.
    assert (Hpos : (position <$> ghosts s) !! i = Some (position g')).
    { rewrite <- (setStatus_positions GhostStatusNormal (ghosts s) i).
      now rewrite list_lookup_fmap, Hg'. }
    pose proof (Forall_lookup_1 _ _ _ _ Hghosts Hpos) as [_ Hhome].
    split; cbn [maze player ghosts pillTimer procs mainpc set_mainpc set_ghosts];
      try assumption.
    + rewrite list_fmap_insert, setStatus_positions. cbn [position].
      apply Forall_insert; [exact Hghosts|]. split; exact Hhome.
    + unfold collideNext. cbn [ghosts set_ghosts].
      match goal with |- context [(S i <? ?n)%nat] =>
        destruct (Nat.ltb_spec (S i) n) end; [assumption|exact I].
  - destruct Hinv as [Hrect Hplayer Hrespawn Hghosts Hphase Htimer].
    apply bind_done in Hrun as (s1 & Hpr & Hrun).
    unfold printScreen, RUnlock, RLock in Hpr. cbn in Hpr. injection Hpr as <-.
    unfold checkGameOver in Hrun.
    destruct (gameOver _); [destruct (lives _ =? 0)|]; injection Hrun as <-;
      (split; try assumption; exact I).
  - discriminate.
Qed.

Lemma procStep_early j s s' :
  (pillTimer s = None -> Forall (fun pc => early pc = true) (procs s)) ->
  procStep j s = Done s' ->
  pillTimer s' = None -> Forall (fun pc => early pc = true) (procs s').
Proof.
  intros Hinv Hrun Hnone. unfold procStep in Hrun.
  destruct (procs s !! j) as [pc|] eqn:Hpc; [|discriminate].
  assert (Hlate : early pc = false -> pillTimer s <> None).
  { intros Hpcl Hn. specialize (Hinv Hn).
    pose proof (Forall_lookup_1 _ _ _ _ Hinv Hpc) as H. cbn in H. congruence. }
  destruct pc; cbn [early] in Hlate.
  - destruct (pillMx s); [discriminate|]. injection Hrun as <-.
    cbn in *. apply Forall_insert; [auto|reflexivity].
  - apply bind_done in Hrun as (s1 & Hup & [= <-]).
    pose proof (updateGhosts_timers _ _ _ _ Hup) as [= _ Hpt].
    apply updateGhosts_pill in Hup as [_ Hpr].
    cbn in *. rewrite Hpr. apply Forall_insert; [|reflexivity].
    apply Hinv. congruence.
  - injection Hrun as <-. cbn in Hnone. discriminate.
  - injection Hrun as <-. cbn in Hnone. now destruct (Hlate eq_refl).
  - destruct (pillTimer s) eqn:E; [|discriminate]. injection Hrun as <-.
    cbn in Hnone. congruence.
  - destruct (timers s !! t) as [tm|]; [|discriminate].
    destruct (fired tm); [|discriminate]. injection Hrun as <-.
    cbn in Hnone. now destruct (Hlate eq_refl).
  - destruct (pillMx s); [discriminate|]. injection Hrun as <-.
    cbn in Hnone. now destruct (Hlate eq_refl).
  - destruct (pillTimer s) as [t0|] eqn:E; [|discriminate].
    injection Hrun as <-. cbn in Hnone. unfold stopTimer in Hnone.
    destruct (timers s !! t0); cbn in Hnone; congruence.
  - apply bind_done in Hrun as (s1 & Hup & [= <-]).
    pose proof (updateGhosts_timers _ _ _ _ Hup) as [= _ Hpt].
    cbn in Hnone. rewrite Hpt in Hnone. now destruct (Hlate eq_refl).
  - injection Hrun as <-. cbn in Hnone. now destruct (Hlate eq_refl).
  - discriminate.
Qed.

Lemma step_grounded l s s' : grounded s -> step l s = Done s' -> grounded s'.
Proof.
  intros Hinv Hrun.
  destruct l as [draws|buffer cnt err|j|t];
    [exact (mainStep_grounded draws s s' Hinv Hrun)| | |].
  all: match type of Hrun with step ?l _ = _ =>
         destruct (aside_frame l _ _ I Hrun) as (Hloop & Hledger & _ & Hpos) end.
  all: unfold loopView in Hloop; injection Hloop as Hpc _ _ Hp.
  all: unfold ledger in Hledger; injection Hledger as Hm _ _.
  all: assert (Hlen : length (ghosts s') = length (ghosts s))
         by (rewrite <- (length_fmap position (ghosts s')), Hpos;
             apply length_fmap).
  all: destruct Hinv as [Hrect Hplayer Hrespawn Hghosts Hphase Htimer].
  all: split; rewrite ?Hm, ?Hp, ?Hpos, ?Hpc, ?Hlen; try assumption.
  - cbn in Hrun. unfold readerStep in Hrun.
    destruct (sending s); [|discriminate]. injection Hrun as <-. exact Htimer.
  - cbn in Hrun. eapply procStep_early; eassumption.
  - cbn in Hrun. unfold fireStep in Hrun.
    destruct (timers s !! t) as [tm|]; [|discriminate].
    destruct (active tm); [|discriminate]. injection Hrun as <-. exact Htimer.
Qed.

Lemma exec_grounded ls : forall s s',
  grounded s -> exec ls s = Done s' -> grounded s'.
Proof.
  induction ls as [|l ls IH]; intros s s' Hinv Hrun; simpl in Hrun.
  - now injection Hrun as <-.
  - apply bind_done in Hrun as (s1 & Hstep & Hrest).
    eapply IH; [|exact Hrest]. eapply step_grounded; eassumption.
Qed.

(** A grounded program does not panic at its next step. *)
Lemma grounded_safe l s : grounded s -> step l s <> Panics.
Proof.
  intros [Hrect Hplayer Hrespawn Hghosts Hphase Htimer].
  destruct l as [draws|buffer cnt err|j|t]; cbn [step].
  - unfold mainStep. destruct (mainpc s) as [| |i|i| |] eqn:Hpc.
    + unfold selectInput, handleInput. destruct (sending s) as [|inp rest].
      * rewrite bind_now. discriminate.
      * set (s0 := if String.eqb inp "ESC"
                   then set_lives 0 (set_sending rest s) else set_sending rest s).
        assert (Hsame : maze s0 = maze s /\ player s0 = player s)
          by (unfold s0; destruct (String.eqb inp "ESC"); split; reflexivity).
        destruct Hsame as [Hm Hp]. rewrite <- Hm, <- Hp in Hplayer.
        rewrite <- Hm in Hrect.
        destruct (movePlayer_total inp s0 Hrect Hplayer)
          as (r & c & line & ch & _ & _ & _ & ->).
        rewrite bind_now. discriminate.
    + unfold moveGhosts.
      destruct (moveEach_placed (maze s) (ghosts s) draws Hrect Hghosts)
        as (gs' & -> & _). rewrite !bind_now. discriminate.
    + destruct (lookup_lt_is_Some_2 (ghosts s) i Hphase) as [g Hg].
      unfold collideHead. rewrite Hg.
      destruct ((row (player s) =? row (position g)) &&
                (col (player s) =? col (position g)));
        [|rewrite bind_now; discriminate].
      destruct (status g); cbn; [|discriminate].
      destruct (Int.sub (lives s) 1 =? 0); cbn; discriminate.
    + destruct (lookup_lt_is_Some_2 (ghosts s) i Hphase) as [g Hg].
      unfold collideEat, updateGhosts.
      destruct (ghostStatusMx s); [|discriminate].
      rewrite bind_now. cbn [foldl ghosts set_ghosts].
      rewrite (setStatus_lookup _ _ _ _ Hg). rewrite bind_now. discriminate.
    + unfold printScreen, RUnlock, RLock. cbn.
      destruct (checkGameOver _). discriminate.
    + discriminate.
  - unfold readerStep. destruct (sending s); discriminate.
  - unfold procStep. destruct (procs s !! j) as [pc|] eqn:Hpcj; [|discriminate].
    assert (Hlate : early pc = false -> pillTimer s <> None).
    { intros Hpcl Hn. specialize (Htimer Hn).
      pose proof (Forall_lookup_1 _ _ _ _ Htimer Hpcj) as H. cbn in H.
      congruence. }
    destruct pc; cbn [early] in Hlate;
      try (destruct (pillMx s); discriminate);
      try discriminate;
      try (unfold updateGhosts; destruct (ghostStatusMx s); discriminate);
      try (destruct (pillTimer s); [discriminate|now destruct (Hlate eq_refl)]).
    destruct (timers s !! t) as [tm|]; [|discriminate].
    destruct (fired tm); discriminate.
  - unfold fireStep. destruct (timers s !! t) as [tm|]; [|discriminate].
    destruct (active tm); discriminate.
Qed.

Lemma boot_ghostsPlaced lines secs :
  rectangular lines -> ghostsPlaced (boot lines secs).
Proof.
  intros Hrect.
  pose proof (scanMaze_frame lines 0 (set_maze lines initial)) as Hframe.
  cbn zeta in Hframe. destruct Hframe as (Hm & _).
  destruct (scanMaze_sprites
    (fun g => ghostPlaced lines (position g)) (fun _ => True)
    lines 0 (set_maze lines initial)) as (Hgs & _ & _).
  - constructor.
  - left. exact I.
  - intros i line k Hline Hk. cbn.
    pose proof (cell_lookup lines i k line "G" Hline Hk) as Hcell.
    assert (Hoff : offWall lines (Z.of_nat i) (Z.of_nat k)).
    { split; [eapply cell_on_grid; eassumption|]. rewrite Hcell. discriminate. }
    split; exact Hoff.
  - intros. exact I.
  - unfold ghostsPlaced, boot, loadMaze.
    cbn [maze ghosts set_maze initial app]. rewrite Hm. cbn [maze set_maze].
    split; [exact Hrect|]. apply Forall_fmap. exact Hgs.
Qed.

Lemma boot_grounded lines secs :
  rectangular lines ->
  onGrid lines (player (boot lines secs)) ->
  inBounds lines (startRow (player (boot lines secs)))
    (startRow (player (boot lines secs))) ->
  grounded (boot lines secs).
Proof.
  intros Hrect Hplayer Hrespawn.
  destruct (boot_ghostsPlaced lines secs Hrect) as [Hrect' Hghosts].
  pose proof (scanMaze_frame lines 0 (set_maze lines initial)) as Hframe.
  cbn zeta in Hframe.
  destruct Hframe as (Hm & _ & _ & Hpt & _ & _ & _ & Hpr & _ & Hpc & _).
  assert (Hmaze : maze (boot lines secs) = lines) by exact Hm.
  split.
  - exact Hrect'.
  - now rewrite Hmaze.
  - now rewrite Hmaze.
  - exact Hghosts.
  - change (mainpc (boot lines secs))
      with (mainpc (scanMaze 0 lines (set_maze lines initial))).
    rewrite Hpc. exact I.
  - intros _.
    change (procs (boot lines secs))
      with (procs (scanMaze 0 lines (set_maze lines initial))).
    rewrite Hpr. constructor.
Qed.

(** X12. The game does not crash: after a rectangular maze was loaded
    in which the start cell of the player (the last 'P', or row 0,
    column 0 without one) is a cell of the grid, and in which the cell
    (start row, start row), where line 874 puts the player after a
    lethal collision, is one too, no step of any goroutine panics,
    however the steps are interleaved: no index or slice bound is out
    of range, no nil timer is used, no read lock is released that is
    not held, and a goroutine that is about to unlock [pillMx] holds
    it. The player is always on the grid. *)
Theorem X12_game_never_panics
  (lines : list string) (secs : Z) (ls : list label) (s : state) (l : label) :
  rectangular lines ->
  onGrid lines (player (boot lines secs)) ->
  inBounds lines (startRow (player (boot lines secs)))
    (startRow (player (boot lines secs))) ->
  exec ls (boot lines secs) = Done s ->
  step l s <> Panics /\ onGrid (maze s) (player s) /\
  (forall j pc, procs s !! j = Some pc -> holdsPillMx pc = true ->
                pillMx s = true).
Proof.
  intros Hrect Hplayer Hrespawn Hrun.
  pose proof (exec_grounded _ _ _
                (boot_grounded lines secs Hrect Hplayer Hrespawn) Hrun) as Hinv.
  split; [now apply grounded_safe|]. split; [exact (gr_player _ Hinv)|].
  intros j pc Hj Hpc.
  assert (Hkept : pillMxKept s).
  { apply reachable_pillMxKept. exists lines, secs, ls. exact Hrun. }
  unfold pillMxKept in Hkept.
  pose proof (countHolders_lookup _ _ _ Hj Hpc).
  destruct (pillMx s); [reflexivity|lia].
Qed.

Lemma X12_game_never_panics_witness :
  rectangular lane /\
  onGrid lane (player (boot lane 10)) /\
  inBounds lane (startRow (player (boot lane 10)))
    (startRow (player (boot lane 10))) /\
  exists s,
    exec (eatsPill ++ ghostArrivesFirst) (boot lane 10) = Done s /\
    step (LMain []) s <> Panics /\ onGrid (maze s) (player s) /\
    (forall j pc, procs s !! j = Some pc -> holdsPillMx pc = true ->
                  pillMx s = true).
Proof.
  assert (H1 : rectangular lane) by rectangular_maze.
  assert (H2 : onGrid lane (player (boot lane 10)))
    by (vm_compute; repeat split; discriminate).
  assert (H3 : inBounds lane (startRow (player (boot lane 10)))
                 (startRow (player (boot lane 10))))
    by (vm_compute; repeat split; discriminate).
  split; [exact H1|]. split; [exact H2|]. split; [exact H3|].
  eexists. split; [vm_compute; reflexivity|].
  apply (X12_game_never_panics lane 10 (eatsPill ++ ghostArrivesFirst) _ _
           H1 H2 H3).
  vm_compute. reflexivity.
Defined.

(** ** The ghosts keep off the walls *)

Lemma mainStep_ghostsPlaced draws s s' :
  ghostsPlaced s -> mainStep draws s = Done s' -> ghostsPlaced s'.
Proof.
  intros [Hrect Hghosts] Hrun. unfold mainStep in Hrun.
  destruct (mainpc s) as [| |i|i| |].
  - apply bind_done in Hrun as (s1 & Hsel & [= <-]).
    change (ghostsPlaced s1).
    unfold selectInput, handleInput in Hsel.
    destruct (sending s) as [|inp rest]; [injection Hsel as <-; now split|].
    set (s0 := if String.eqb inp "ESC"
               then set_lives 0 (set_sending rest s) else set_sending rest s) in *.
    assert (Hsame : maze s0 = maze s /\ ghosts s0 = ghosts s)
      by (unfold s0; destruct (String.eqb inp "ESC"); split; reflexivity).
    destruct Hsame as [Hm Hg]. rewrite <- Hm in Hrect.
    rewrite <- Hm, <- Hg in Hghosts.
    destruct (movePlayer_returned inp s0 s1
                (rectangular_representable _ Hrect) Hsel)
      as (r & c & line & ch & _ & Hline & Hch & ->).
    destruct (landed_grid r c line ch s0 Hrect Hline Hch) as (Hrect' & _ & _).
    destruct (landed_frame r c line ch s0) as (_ & Hg' & _).
    split; [exact Hrect'|]. rewrite Hg'.
    eapply Forall_impl; [exact Hghosts|]. intros sp [H1 H2].
    split;
      apply (proj2 (landed_offWall r c line ch s0 _ _ Hrect Hline Hch));
      assumption.
  - apply bind_done in Hrun as (s1 & Hmv & [= <-]).
    unfold moveGhosts in Hmv. apply bind_done in Hmv as (gs & Hgs & [= <-]).
    destruct (moveEach_placed (maze s) (ghosts s) draws Hrect Hghosts)
      as (gs' & Hgs' & Hall & _).
    rewrite Hgs' in Hgs. injection Hgs as <-. now split.
  - apply bind_done in Hrun as ([s1 eat] & Hhd & [= <-]).
    assert (Hs1 : maze s1 = maze s /\ ghosts s1 = ghosts s).
    { unfold collideHead, RUnlock, RLock in Hhd.
      returned; cbn in *; returned; split; reflexivity. }
    destruct Hs1 as [Hm Hg]. unfold ghostsPlaced.
    cbn [maze ghosts set_mainpc]. rewrite Hm, Hg. now split.
  - apply bind_done in Hrun as (s1 & Heat & [= <-]).
    unfold collideEat, updateGhosts in Heat.
    destruct (ghostStatusMx s); [|discriminate].
    rewrite bind_now in Heat. cbn [foldl ghosts set_ghosts] in Heat.
    destruct (setStatus GhostStatusNormal (ghosts s) i !! i) as [g'|] eqn:Hg';
      [|discriminate].
    injection Heat as <-.
    assert (Hpos : (position <$> ghosts s) !! i = Some (position g')).
    { rewrite <- (setStatus_positions GhostStatusNormal (ghosts s) i).
      now rewrite list_lookup_fmap, Hg'. }
    pose proof (Forall_lookup_1 _ _ _ _ Hghosts Hpos) as [_ Hhome].
    split; [exact Hrect|]. cbn [maze ghosts set_mainpc set_ghosts].
    rewrite list_fmap_insert, setStatus_positions. cbn [position].
    apply Forall_insert; [exact Hghosts|]. split; exact Hhome.
  - apply bind_done in Hrun as (s1 & Hpr & Hrun).
    unfold printScreen, RUnlock, RLock in Hpr. cbn in Hpr. injection Hpr as <-.
    unfold checkGameOver in Hrun.
    destruct (gameOver _); [destruct (lives _ =? 0)|]; injection Hrun as <-;
      now split.
  - discriminate.
Qed.

Lemma exec_ghostsPlaced ls : forall s s',
  ghostsPlaced s -> exec ls s = Done s' -> ghostsPlaced s'.
Proof.
  induction ls as [|l ls IH]; intros s s' Hinv Hrun; simpl in Hrun.
  - now injection Hrun as <-.
  - apply bind_done in Hrun as (s1 & Hstep & Hrest).
    eapply IH; [|exact Hrest].
    destruct l as [draws|buffer cnt err|j|t];
      [exact (mainStep_ghostsPlaced draws s s1 Hinv Hstep)| | |].
    all: match type of Hstep with step ?l _ = _ =>
           destruct (aside_frame l _ _ I Hstep) as (_ & Hledger & _ & Hpos) end.
    all: unfold ledger in Hledger; injection Hledger as Hm _ _.
    all: destruct Hinv as [Hrect Hghosts]; unfold ghostsPlaced.
    all: rewrite Hm, Hpos; now split.
Qed.

(** X13. After a rectangular maze was loaded, the grid stays
    rectangular and every ghost is, in every state the program reaches,
    on a cell of the grid that is not a wall, and so is the start
    position to which it returns when it is eaten ([loadMaze] lines
    525-526, [moveGhosts] lines 648-653, lines 878-879). *)
Theorem X13_ghosts_keep_off_walls
  (lines : list string) (secs : Z) (ls : list label) (s : state) :
  rectangular lines -> exec ls (boot lines secs) = Done s ->
  rectangular (maze s) /\
  Forall (fun g =>
            offWall (maze s) (row (position g)) (col (position g)) /\
            offWall (maze s) (startRow (position g)) (startCol (position g)))
         (ghosts s).
Proof.
  intros Hrect Hrun.
  destruct (exec_ghostsPlaced _ _ _ (boot_ghostsPlaced lines secs Hrect) Hrun)
    as [Hrect' Hghosts].
  split; [exact Hrect'|]. rewrite Forall_fmap in Hghosts. exact Hghosts.
Qed.

Lemma X13_ghosts_keep_off_walls_witness :
  rectangular lane /\
  exists s,
    exec (eatsPill ++ blueGhostArrives ++ [LMain []; LMain []]) (boot lane 10)
      = Done s /\
    rectangular (maze s) /\
    Forall (fun g =>
              offWall (maze s) (row (position g)) (col (position g)) /\
              offWall (maze s) (startRow (position g)) (startCol (position g)))
           (ghosts s).
Proof.
  assert (H1 : rectangular lane) by rectangular_maze.
  split; [exact H1|].
  eexists. split; [vm_compute; reflexivity|].
  apply (X13_ghosts_keep_off_walls lane 10
           (eatsPill ++ blueGhostArrives ++ [LMain []; LMain []]) _ H1).
  vm_compute. reflexivity.
Defined.

(** ** What the other goroutines leave alone *)

(** X14. Only the game loop moves anything: along any run of steps of
    the reader goroutine, of the [processPill] goroutines and of the
    timers, the maze, the score, the counter of dots, the lives, the
    player, the place of the game loop, the read locks held and the
    position and start position of every ghost stay as they are; what
    such steps change of the ghosts is their status only. *)
Theorem X14_pill_goroutines_only_repaint (ls : list label) (s s' : state) :
  Forall aside ls -> exec ls s = Done s' ->
  maze s' = maze s /\ score s' = score s /\ numDots s' = numDots s /\
  lives s' = lives s /\ player s' = player s /\ mainpc s' = mainpc s /\
  ghostStatusMx s' = ghostStatusMx s /\
  position <$> ghosts s' = position <$> ghosts s.
Proof.
  intros Hall Hrun.
  destruct (aside_run ls s s' Hall Hrun) as (Hloop & Hledger & Hmx & Hpos).
  unfold loopView in Hloop. unfold ledger in Hledger.
  injection Hloop as Hpc Hd Hl Hp. injection Hledger as Hm _ Hs.
  repeat split; assumption.
Qed.

Lemma X14_pill_goroutines_only_repaint_witness :
  exists s s',
    exec eatsPill (boot lane 10) = Done s /\
    Forall aside (steps 5 0 ++ [LFire 0]) /\
    exec (steps 5 0 ++ [LFire 0]) s = Done s' /\
    maze s' = maze s /\ score s' = score s /\ numDots s' = numDots s /\
    lives s' = lives s /\ player s' = player s /\ mainpc s' = mainpc s /\
    ghostStatusMx s' = ghostStatusMx s /\
    position <$> ghosts s' = position <$> ghosts s.
Proof.
  assert (Hall : Forall aside (steps 5 0 ++ [LFire 0]))
    by (repeat constructor).
  eexists _, _. split; [vm_compute; reflexivity|]. split; [exact Hall|].
  split; [vm_compute; reflexivity|].
  apply (X14_pill_goroutines_only_repaint (steps 5 0 ++ [LFire 0]) _ _ Hall).
  vm_compute. reflexivity.
Defined.

(** X15. When no read lock is held as the game loop comes to a blue
    ghost on the cell of the player (no lock was left behind by a
    collision that took the last life), the ghost is eaten even if
    other goroutines run in the middle of it: the game loop releases
    the read lock (line 877) before it takes the write lock (line 878),
    and whatever the [processPill] goroutines, the timers and the
    reader do in between, the ghost ends Normal on its start position,
    with lives and score as they were before the collision. *)
Theorem X15_eaten_whatever_runs_between
  (i : nat) (s s1 s2 : state) (g : ghost) (ls : list label) :
  ghosts s !! i = Some g -> status g = GhostStatusBlue ->
  row (player s) = row (position g) -> col (player s) = col (position g) ->
  ghostStatusMx s = 0%nat ->
  collideHead i s = Done (s1, true) ->
  Forall aside ls -> exec ls s1 = Done s2 ->
  exists s' g',
    collideEat i s2 = Done s' /\ ghosts s' !! i = Some g' /\
    status g' = GhostStatusNormal /\
    position g' = moveTo (startRow (position g)) (startCol (position g))
                    (position g) /\
    lives s' = lives s /\ score s' = score s.
Proof. apply blue_ghost_eaten_meanwhile. Qed.

Lemma X15_eaten_whatever_runs_between_witness :
  exists s s1 s2 g,
    exec (eatsPill ++ blueGhostArrives) (boot lane 10) = Done s /\
    ghosts s !! 0%nat = Some g /\ status g = GhostStatusBlue /\
    row (player s) = row (position g) /\ col (player s) = col (position g) /\
    ghostStatusMx s = 0%nat /\
    collideHead 0 s = Done (s1, true) /\
    Forall aside (steps 3 0) /\ exec (steps 3 0) s1 = Done s2 /\
    exists s' g',
      collideEat 0 s2 = Done s' /\ ghosts s' !! 0%nat = Some g' /\
      status g' = GhostStatusNormal /\
      position g' = moveTo (startRow (position g)) (startCol (position g))
                      (position g) /\
      lives s' = lives s /\ score s' = score s.
Proof.
  assert (Hall : Forall aside (steps 3 0)) by (repeat constructor).
  eexists _, _, _, _. split; [vm_compute; reflexivity|].
  split; [reflexivity|]. split; [reflexivity|]. split; [reflexivity|].
  split; [reflexivity|]. split; [reflexivity|].
  split; [vm_compute; reflexivity|]. split; [exact Hall|].
  split; [vm_compute; reflexivity|].
  eapply (X15_eaten_whatever_runs_between 0 _ _ _ _ (steps 3 0));
    [reflexivity|reflexivity|reflexivity|reflexivity|reflexivity|
     vm_compute; reflexivity|exact Hall|vm_compute; reflexivity].
Defined.

(** ** Commands that are not directions *)

(** X16. A command that is not one of the four directions (the empty
    command, or Escape) does not move the player, on a rectangular grid
    with the player on it; but [movePlayer] (lines 608-627) still looks
    at the cell the player stands on, so a dot or a pill there (the
    player may have been put on one by a respawn) is eaten. *)
Theorem X16_other_commands_do_not_move (dir : string) (s : state) :
  rectangular (maze s) -> onGrid (maze s) (player s) -> ~ isDirection dir ->
  exists s' ch,
    movePlayer dir s = Done s' /\
    row (player s') = row (player s) /\ col (player s') = col (player s) /\
    cell (maze s) (row (player s)) (col (player s)) = Done ch /\
    (ch = "."%char ->
     numDots s' = Int.sub (numDots s) 1 /\ score s' = Int.add (score s) 1) /\
    (ch = "X"%char ->
     score s' = Int.add (score s) 10 /\ procs s' = procs s ++ [PillLock]) /\
    (ch <> "."%char -> ch <> "X"%char ->
     maze s' = maze s /\ score s' = score s /\ numDots s' = numDots s /\
     procs s' = procs s).
Proof.
  intros Hrect Hon Hdir.
  pose proof (makeMove_other (maze s) _ _ dir Hrect Hon Hdir) as Hmove.
  destruct (cell_in_bounds _ _ _ Hrect Hon) as [ch Hcell].
  pose proof Hcell as Hcell'.
  apply cell_done in Hcell' as (line & Hline & Hch).
  pose proof (movePlayer_lands dir s _ _ line ch
                (rectangular_representable _ Hrect) Hmove Hline Hch) as Hrun.
  exists (landed (row (player s)) (col (player s)) line ch s), ch.
  split; [exact Hrun|].
  destruct (landed_frame (row (player s)) (col (player s)) line ch s)
    as (_ & _ & _ & _ & _ & Hp).
  rewrite Hp. cbn [moveTo row col].
  split; [reflexivity|]. split; [reflexivity|]. split; [exact Hcell|].
  unfold landed. split; [|split].
  - intros ->. cbn. split; reflexivity.
  - intros ->. cbn. split; reflexivity.
  - intros Hnd Hnp.
    destruct (Ascii.eqb_spec ch "."); [contradiction|].
    destruct (Ascii.eqb_spec ch "X"); [contradiction|]. repeat split.
Qed.

Lemma X16_other_commands_do_not_move_witness :
  rectangular (maze (boot lane 10)) /\
  onGrid (maze (boot lane 10)) (player (boot lane 10)) /\
  ~ isDirection "" /\
  exists s' ch,
    movePlayer "" (boot lane 10) = Done s' /\
    row (player s') = row (player (boot lane 10)) /\
    col (player s') = col (player (boot lane 10)) /\
    cell (maze (boot lane 10)) (row (player (boot lane 10)))
      (col (player (boot lane 10))) = Done ch /\
    (ch = "."%char ->
     numDots s' = Int.sub (numDots (boot lane 10)) 1 /\
     score s' = Int.add (score (boot lane 10)) 1) /\
    (ch = "X"%char ->
     score s' = Int.add (score (boot lane 10)) 10 /\
     procs s' = procs (boot lane 10) ++ [PillLock]) /\
    (ch <> "."%char -> ch <> "X"%char ->
     maze s' = maze (boot lane 10) /\ score s' = score (boot lane 10) /\
     numDots s' = numDots (boot lane 10) /\ procs s' = procs (boot lane 10)).
Proof.
  assert (H1 : rectangular (maze (boot lane 10))) by rectangular_maze.
  assert (H2 : onGrid (maze (boot lane 10)) (player (boot lane 10)))
    by (vm_compute; repeat split; discriminate).
  assert (H3 : ~ isDirection "")
    by (unfold isDirection; intros [H|[H|[H|H]]]; discriminate).
  split; [exact H1|]. split; [exact H2|]. split; [exact H3|].
  exact (X16_other_commands_do_not_move "" (boot lane 10) H1 H2 H3).
Defined.

(** ** The lives on the screen *)

Lemma append_cons (x : ascii) (a b : string) :
  String x a +:+ b = String x (a +:+ b).
Proof. reflexivity. Qed.

Lemma append_empty_r (a : string) : a +:+ "" = a.
Proof.
  induction a as [|x a IH]; [reflexivity|]. now rewrite append_cons, IH.
Qed.

Lemma append_assoc' (a b c : string) : (a +:+ b) +:+ c = a +:+ (b +:+ c).
Proof.
  induction a as [|x a IH]; [reflexivity|]. now rewrite !append_cons, IH.
Qed.

Lemma append_length (a b : string) :
  String.length (a +:+ b) = (String.length a + String.length b)%nat.
Proof.
  induction a as [|x a IH]; [reflexivity|].
  rewrite append_cons. simpl. now rewrite IH.
Qed.

Lemma copies_length n glyph :
  String.length (copies n glyph) = (n * String.length glyph)%nat.
Proof.
  induction n as [|n IH]; simpl; [reflexivity|].
  now rewrite append_length, IH.
Qed.

Lemma writeLives_copies fuel : forall i glyph buf,
  i = Z.of_nat fuel -> i <= Int.max_int ->
  writeLives fuel i glyph buf = buf +:+ copies fuel glyph.
Proof.
  induction fuel as [|fuel IH]; intros i glyph buf Hi Hmax.
  - cbn [writeLives copies]. symmetry. apply append_empty_r.
  - cbn [writeLives copies].
    destruct (Z.ltb_spec 0 i); [|lia].
    rewrite IH.
    + now rewrite append_assoc'.
    + rewrite sub_fits; [lia|]. apply fits_range. unfold Int.max_int in *. lia.
    + rewrite sub_fits; [lia|]. apply fits_range. unfold Int.max_int in *. lia.
Qed.

(** X17. [getLivesAsEmoji] (lines 753-759) returns the glyph of the
    player once for every life: nothing at all when the lives are zero
    or negative (as they are after Escape and a collision), and
    otherwise [lives] copies, a string of [lives] times the length of
    the glyph. *)
Theorem X17_lives_as_glyphs (glyph : string) (s : state) :
  lives s <= Int.max_int ->
  getLivesAsEmoji glyph s = copies (Z.to_nat (lives s)) glyph /\
  (lives s <= 0 -> getLivesAsEmoji glyph s = ""%string) /\
  String.length (getLivesAsEmoji glyph s)
    = (Z.to_nat (lives s) * String.length glyph)%nat.
Proof.
  intros Hmax.
  assert (Heq : getLivesAsEmoji glyph s = copies (Z.to_nat (lives s)) glyph).
  { unfold getLivesAsEmoji. destruct (Z.leb_spec (lives s) 0) as [Hle|Hgt].
    - replace (Z.to_nat (lives s)) with 0%nat by lia. reflexivity.
    - rewrite writeLives_copies; [reflexivity|lia|exact Hmax]. }
  split; [exact Heq|]. split.
  - intros Hle. rewrite Heq. replace (Z.to_nat (lives s)) with 0%nat by lia.
    reflexivity.
  - rewrite Heq. apply copies_length.
Qed.

Lemma X17_lives_as_glyphs_witness :
  lives (boot lane 10) <= Int.max_int /\
  getLivesAsEmoji "@" (boot lane 10)
    = copies (Z.to_nat (lives (boot lane 10))) "@" /\
  (lives (boot lane 10) <= 0 -> getLivesAsEmoji "@" (boot lane 10) = ""%string) /\
  String.length (getLivesAsEmoji "@" (boot lane 10))
    = (Z.to_nat (lives (boot lane 10)) * String.length "@")%nat.
Proof.
  assert (H : lives (boot lane 10) <= Int.max_int) by (vm_compute; discriminate).
  split; [exact H|]. exact (X17_lives_as_glyphs "@" (boot lane 10) H).
Defined.

(** ** A tick, step by step *)

Lemma exec_app ls1 : forall ls2 s,
  exec (ls1 ++ ls2) s = (s1 ← exec ls1 s; exec ls2 s1).
Proof.
  induction ls1 as [|l ls1 IH]; intros ls2 s; [reflexivity|].
  cbn [app exec]. destruct (step l s) as [s1| |]; [|reflexivity..].
  rewrite !bind_now. apply IH.
Qed.

(** The phase functions do not look at the place of the game loop. *)
Lemma movePlayer_at p dir s :
  movePlayer dir (set_mainpc p s) =
  (s1 ← movePlayer dir s; Done (set_mainpc p s1)).
Proof.
  unfold movePlayer. cbn [maze player set_mainpc].
  destruct (makeMove (maze s) (row (player s)) (col (player s)) dir)
    as [[r c]| |]; [|reflexivity..].
  rewrite !bind_now. cbn [maze set_player set_mainpc].
  destruct (cell (maze s) r c) as [ch| |]; [|reflexivity..].
  rewrite !bind_now.
  destruct (Ascii.eqb ch ".").
  - unfold removeDot. cbn [maze set_score set_numDots set_player set_mainpc].
    destruct (index (maze s) r) as [line| |]; [|reflexivity..].
    rewrite !bind_now.
    destruct (slice line 0 c) as [a| |]; [|reflexivity..]. rewrite !bind_now.
    destruct (slice line (Int.add c 1) (slen line)) as [b| |];
      [|reflexivity..].
    rewrite !bind_now.
    destruct (assign (maze s) r (a +:+ " " +:+ b)); reflexivity.
  - destruct (Ascii.eqb ch "X"); [|reflexivity].
    unfold removeDot. cbn [maze set_score set_numDots set_player set_mainpc].
    destruct (index (maze s) r) as [line| |]; [|reflexivity..].
    rewrite !bind_now.
    destruct (slice line 0 c) as [a| |]; [|reflexivity..]. rewrite !bind_now.
    destruct (slice line (Int.add c 1) (slen line)) as [b| |];
      [|reflexivity..].
    rewrite !bind_now.
    destruct (assign (maze s) r (a +:+ " " +:+ b)); reflexivity.
Qed.

Lemma selectInput_at p s :
  selectInput (set_mainpc p s) = (s1 ← selectInput s; Done (set_mainpc p s1)).
Proof.
  unfold selectInput, handleInput. cbn [sending set_mainpc].
  destruct (sending s) as [|inp rest]; [reflexivity|].
  destruct (String.eqb inp "ESC").
  - exact (movePlayer_at p inp (set_lives 0 (set_sending rest s))).
  - exact (movePlayer_at p inp (set_sending rest s)).
Qed.

Lemma moveGhosts_at p draws s :
  moveGhosts draws (set_mainpc p s) =
  (s1 ← moveGhosts draws s; Done (set_mainpc p s1)).
Proof.
  unfold moveGhosts. cbn [maze ghosts set_mainpc].
  destruct (moveEach (maze s) (ghosts s) draws); reflexivity.
Qed.

Lemma collideHead_at p i s :
  collideHead i (set_mainpc p s) =
  ('(s1, eat) ← collideHead i s; Done (set_mainpc p s1, eat)).
Proof.
  unfold collideHead. cbn [ghosts player set_mainpc].
  destruct (ghosts s !! i) as [g|]; [|reflexivity].
  destruct ((row (player s) =? row (position g)) &&
            (col (player s) =? col (position g))); [|reflexivity].
  destruct (status g); cbn; [|reflexivity].
  destruct (Int.sub (lives s) 1 =? 0); reflexivity.
Qed.

Lemma collideEat_at p i s :
  collideEat i (set_mainpc p s) = (s1 ← collideEat i s; Done (set_mainpc p s1)).
Proof.
  unfold collideEat, updateGhosts. cbn [ghostStatusMx set_mainpc].
  destruct (ghostStatusMx s); [|reflexivity].
  rewrite !bind_now. cbn [foldl ghosts set_ghosts set_mainpc].
  destruct (setStatus GhostStatusNormal (ghosts s) i !! i); reflexivity.
Qed.

Lemma collideHead_ghosts i s s1 eat :
  collideHead i s = Done (s1, eat) -> ghosts s1 = ghosts s.
Proof.
  unfold collideHead, RUnlock, RLock. intros H.
  returned; cbn in *; returned; reflexivity.
Qed.

Lemma collideEat_length i s s1 :
  collideEat i s = Done s1 -> length (ghosts s1) = length (ghosts s).
Proof.
  unfold collideEat, updateGhosts. intros H.
  destruct (ghostStatusMx s); [|discriminate].
  rewrite bind_now in H. cbn [foldl ghosts set_ghosts] in H.
  destruct (setStatus GhostStatusNormal (ghosts s) i !! i); [|discriminate].
  injection H as <-. cbn. now rewrite length_insert, setStatus_length.
Qed.

(** The loop over the ghosts, from ghost [i] on. *)
Lemma collideFrom_as_steps draws k : forall i s s',
  (i + k = length (ghosts s))%nat ->
  collideFrom (seq i k) s = Done s' ->
  exists ls,
    Forall (fun l => l = LMain draws) ls /\
    exec ls (set_mainpc (collideNext i s) s) = Done (set_mainpc PScreen s').
Proof.
  induction k as [|k IH]; intros i s s' Hlen Hrun.
  - cbn in Hrun. injection Hrun as <-. exists []. split; [constructor|].
    unfold collideNext.
    destruct (Nat.ltb_spec i (length (ghosts s))); [lia|reflexivity].
  - cbn [seq collideFrom] in Hrun.
    apply bind_done in Hrun as (s2 & Hghost & Hrest).
    unfold collideGhost in Hghost.
    apply bind_done in Hghost as ([s1 eat] & Hhead & Heat).
    pose proof (collideHead_ghosts _ _ _ _ Hhead) as Hg1.
    assert (Hlen2 : length (ghosts s2) = length (ghosts s)).
    { destruct eat.
      - apply collideEat_length in Heat. congruence.
      - injection Heat as <-. congruence. }
    destruct (IH (S i) s2 s') as (ls & Hall & Hexec); [lia|exact Hrest|].
    assert (Hhere : collideNext i s = PCollide i).
    { unfold collideNext.
      destruct (Nat.ltb_spec i (length (ghosts s))); [reflexivity|lia]. }
    rewrite Hhere.
    assert (Hstep1 : mainStep draws (set_mainpc (PCollide i) s) =
                     Done (set_mainpc (if eat then PEat i
                                       else collideNext (S i) s1) s1)).
    { unfold mainStep. cbn [mainpc set_mainpc].
      rewrite collideHead_at, Hhead. reflexivity. }
    destruct eat.
    + assert (Hstep2 : mainStep draws (set_mainpc (PEat i) s1) =
                       Done (set_mainpc (collideNext (S i) s2) s2)).
      { unfold mainStep. cbn [mainpc set_mainpc].
        rewrite collideEat_at, Heat. reflexivity. }
      exists (LMain draws :: LMain draws :: ls).
      split; [repeat constructor; exact Hall|].
      cbn [exec step]. rewrite Hstep1, bind_now, Hstep2, bind_now.
      exact Hexec.
    + injection Heat as <-.
      exists (LMain draws :: ls). split; [constructor; [reflexivity|exact Hall]|].
      cbn [exec step]. rewrite Hstep1, bind_now. exact Hexec.
Qed.

(** X18. A tick is the run of the steps of the game loop: when the
    function [tick], which runs lines 846-900 in one go, returns, then
    from the same state (at the poll of the input) some number of steps
    of the game loop alone, all given the same random draws, lead to
    the same state, at the exit of the loop if [tick] says that the
    loop was left and at the next poll otherwise. *)
Theorem X18_tick_is_steps (draws : list Z) (s s' : state) (over : bool) :
  mainpc s = PSelect -> tick draws s = Done (s', over) ->
  exists ls,
    Forall (fun l => l = LMain draws) ls /\
    exec ls s = Done (set_mainpc (if over then PExit else PSelect) s').
Proof.
  intros Hpc Hrun. unfold tick in Hrun.
  apply bind_done in Hrun as (s1 & Hsel & Hrun).
  apply bind_done in Hrun as (s2 & Hmv & Hrun).
  apply bind_done in Hrun as (s3 & Hcoll & Hrun).
  apply bind_done in Hrun as (s4 & Hprint & Hcheck).
  injection Hcheck as Hcheck.
  unfold collisions, allGhosts in Hcoll.
  destruct (collideFrom_as_steps draws (length (ghosts s2)) 0 s2 s3
              eq_refl Hcoll) as (ls & Hall & Hexec).
  assert (Hstep1 : mainStep draws s = Done (set_mainpc PGhosts s1)).
  { unfold mainStep. now rewrite Hpc, Hsel. }
  assert (Hstep2 : mainStep draws (set_mainpc PGhosts s1) =
                   Done (set_mainpc (collideNext 0 s2) s2)).
  { unfold mainStep. cbn [mainpc set_mainpc].
    rewrite moveGhosts_at, Hmv. reflexivity. }
  assert (Hstep3 : mainStep draws (set_mainpc PScreen s3) =
                   Done (set_mainpc (if over then PExit else PSelect) s')).
  { unfold mainStep. cbn [mainpc set_mainpc].
    unfold printScreen, RUnlock, RLock in *. cbn in Hprint |- *.
    injection Hprint as <-. unfold checkGameOver in *.
    cbn [lives numDots player gameOver set_mainpc set_ghostStatusMx emit] in *.
    unfold gameOver in *.
    cbn [lives numDots player set_mainpc set_ghostStatusMx emit] in *.
    destruct ((numDots s3 =? 0) || (lives s3 <=? 0));
      [destruct (lives s3 =? 0)|]; injection Hcheck as <- <-; reflexivity. }
  exists (LMain draws :: LMain draws :: ls ++ [LMain draws]).
  split.
  { repeat constructor. apply Forall_app. split; [exact Hall|].
    repeat constructor. }
  cbn [exec step]. rewrite Hstep1, bind_now, Hstep2, bind_now.
  rewrite exec_app, Hexec, bind_now. cbn [exec step].
  now rewrite Hstep3.
Qed.

Lemma X18_tick_is_steps_witness :
  exists s s',
    exec [pressed "C"] (boot lane 10) = Done s /\
    mainpc s = PSelect /\ tick [3] s = Done (s', false) /\
    exists ls,
      Forall (fun l => l = LMain [3]) ls /\
      exec ls s = Done (set_mainpc (if false then PExit else PSelect) s').
Proof.
  eexists _, _. split; [vm_compute; reflexivity|]. split; [reflexivity|].
  split; [vm_compute; reflexivity|].
  eapply (X18_tick_is_steps [3] _ _ false); [reflexivity|].
  vm_compute. reflexivity.
Defined.

(** ** Escape, and the end of a tick *)

(** At the poll of the input a state that a well-formed maze leads to is
    one in which a tick can be played. *)
Lemma poll_playable lines secs ls s :
  rectangular lines ->
  onGrid lines (player (boot lines secs)) ->
  inBounds lines (startRow (player (boot lines secs)))
    (startRow (player (boot lines secs))) ->
  Z.of_nat (countCells "G" lines) <= Int.max_int ->
  exec ls (boot lines secs) = Done s -> mainpc s = PSelect ->
  playable s.
Proof.
  intros Hrect Hplayer Hrespawn Hmany Hrun Hpc.
  pose proof (exec_grounded ls _ _
                (boot_grounded lines secs Hrect Hplayer Hrespawn) Hrun)
    as [Hgrid Hon _ Hghosts _ _].
  pose proof (exec_ticking _ ls _ _ Hmany (boot_ticking lines secs) Hrun)
    as [Hlen Hlives].
  unfold livesAt in Hlives. rewrite Hpc in Hlives.
  destruct Hlives as [_ Hfree].
  split; [exact Hgrid|exact Hon| | |exact Hfree].
  - rewrite Forall_fmap in Hghosts.
    eapply Forall_impl; [exact Hghosts|].
    intros g [[Hin _] _]. exact Hin.
  - unfold len. now rewrite Hlen.
Qed.

(** X23. Escape ends the game when the player is kept on the grid.
    After a rectangular maze was loaded in which the start cell of the
    player and the cell (start row, start row) used by line 874 are
    cells of the grid, whenever the game loop polls the input and
    receives Escape, it sets the lives to zero, and the tick (run
    without another goroutine in between) comes to its end, where the
    loop is left with no life. *)
Theorem X23_escape_ends_the_game
  (lines : list string) (secs : Z) (ls : list label) (s : state)
  (draws : list Z) (rest : list string) :
  rectangular lines ->
  onGrid lines (player (boot lines secs)) ->
  inBounds lines (startRow (player (boot lines secs)))
    (startRow (player (boot lines secs))) ->
  Z.of_nat (countCells "G" lines) <= Int.max_int ->
  exec ls (boot lines secs) = Done s ->
  mainpc s = PSelect -> sending s = "ESC"%string :: rest ->
  exists s1 s',
    handleInput "ESC" (set_sending rest s) = Done s1 /\ lives s1 = 0 /\
    tick draws s = Done (s', true) /\ lives s' <= 0.
Proof.
  intros Hrect Hplayer Hrespawn Hmany Hrun Hpc Hsend.
  apply tick_escape; [|exact Hsend].
  exact (poll_playable lines secs ls s Hrect Hplayer Hrespawn Hmany Hrun Hpc).
Qed.

Lemma X23_escape_ends_the_game_witness :
  exists s,
    exec (round 3 ++ [readFails]) (boot lane 10) = Done s /\
    mainpc s = PSelect /\ sending s = ["ESC"; ""]%string /\
    exists s1 s',
      handleInput "ESC" (set_sending [""%string] s) = Done s1 /\
      lives s1 = 0 /\ tick [0] s = Done (s', true) /\ lives s' <= 0.
Proof.
  eexists. split; [vm_compute; reflexivity|].
  split; [reflexivity|]. split; [reflexivity|].
  apply (X23_escape_ends_the_game lane 10 (round 3 ++ [readFails])).
  - rectangular_maze.
  - vm_compute. repeat split; discriminate.
  - vm_compute. repeat split; discriminate.
  - vm_compute. discriminate.
  - vm_compute. reflexivity.
  - reflexivity.
  - reflexivity.
Defined.

(** X24. The loop is left by the check of line 888 only. When the step
    of the game loop at the end of a tick (lines 886-899) returns, it
    has left the dots and the lives as they were, and the loop is left
    exactly if there is no dot or no life; otherwise the loop has
    slept 150 ms after the screen was drawn and polls the input next.
    No other step of any goroutine takes the game loop to its exit
    (a panic and a wait that never ends are no exit), and after the
    exit the game loop takes no step. *)
Theorem X24_loop_left_only_at_the_check :
  (forall draws s s',
     mainpc s = PScreen -> mainStep draws s = Done s' ->
     numDots s' = numDots s /\ lives s' = lives s /\
     (numDots s = 0 \/ lives s <= 0 -> mainpc s' = PExit) /\
     (~ (numDots s = 0 \/ lives s <= 0) ->
      mainpc s' = PSelect /\ out s' = ESleep 150 :: EScreen :: out s)) /\
  (forall l s s',
     step l s = Done s' -> mainpc s <> PExit -> mainpc s' = PExit ->
     mainpc s = PScreen /\ (exists draws, l = LMain draws) /\
     (numDots s = 0 \/ lives s <= 0)) /\
  (forall draws s, mainpc s = PExit -> mainStep draws s = Blocks).
Proof.
  split; [|split].
  - intros draws s s' Hpc Hstep.
    destruct (mainStep_screen draws s Hpc)
      as (s2 & Hrun & Hd & Hl & _ & Hexit & Hgo).
    rewrite Hrun in Hstep. injection Hstep as <-.
    split; [exact Hd|]. split; [exact Hl|]. split.
    + intros Hover. apply Hexit, gameOver_spec, Hover.
    + intros Hon. apply Hgo. destruct (gameOver s) eqn:E; [|reflexivity].
      apply gameOver_spec in E. contradiction.
  - intros l s s' Hstep Hin Hout.
    destruct l as [draws|buffer cnt err|j|t]; simpl in Hstep.
    + unfold mainStep in Hstep. destruct (mainpc s) eqn:Hpc.
      * apply bind_done in Hstep as (s1 & _ & [= <-]). discriminate.
      * apply bind_done in Hstep as (s1 & _ & [= <-]).
        simpl in Hout. now apply collideNext_runs in Hout.
      * apply bind_done in Hstep as ([s1 eat] & _ & [= <-]).
        simpl in Hout. destruct eat; [discriminate|].
        now apply collideNext_runs in Hout.
      * apply bind_done in Hstep as (s1 & _ & [= <-]).
        simpl in Hout. now apply collideNext_runs in Hout.
      * split; [reflexivity|]. split; [eauto|].
        destruct (mainStep_screen draws s Hpc)
          as (s2 & Hrun & _ & _ & _ & _ & Hgo).
        unfold mainStep in Hrun. rewrite Hpc in Hrun.
        rewrite Hrun in Hstep. inversion Hstep; subst.
        destruct (gameOver s) eqn:E; [now apply gameOver_spec|].
        destruct (Hgo eq_refl) as [Hsel _]. congruence.
      * discriminate.
    + apply readerStep_loop in Hstep. unfold loopView in Hstep. congruence.
    + apply procStep_loop in Hstep. unfold loopView in Hstep. congruence.
    + apply fireStep_loop in Hstep. unfold loopView in Hstep. congruence.
  - intros draws s Hpc. unfold mainStep. now rewrite Hpc.
Qed.

Lemma X24_loop_left_only_at_the_check_witness :
  exists s s',
    exec (upToCollisions 0) (boot lane 10) = Done s /\ mainpc s = PScreen /\
    mainStep [] s = Done s' /\
    numDots s' = numDots s /\ lives s' = lives s /\
    (numDots s = 0 \/ lives s <= 0 -> mainpc s' = PExit) /\
    (~ (numDots s = 0 \/ lives s <= 0) ->
     mainpc s' = PSelect /\ out s' = ESleep 150 :: EScreen :: out s).
Proof.
  eexists _, _. split; [vm_compute; reflexivity|]. split; [reflexivity|].
  split; [vm_compute; reflexivity|].
  apply (proj1 X24_loop_left_only_at_the_check []); [reflexivity|].
  vm_compute. reflexivity.
Defined.

(** ** The earlier revision *)

Lemma collide_counts p gs : forall l,
  Int.min_int <= l - Z.of_nat (ghostsAt p gs) -> l <= Int.max_int ->
  Early.collide p gs l = l - Z.of_nat (ghostsAt p gs).
Proof.
  unfold ghostsAt. induction gs as [|g gs IH]; intros l Hlo Hhi.
  - simpl. lia.
  - cbn [Early.collide]. rewrite filter_cons in Hlo |- *.
    destruct (decide (Early.same p g = true)) as [Hg|Hg].
    + rewrite Hg. cbn [length] in Hlo |- *.
      rewrite sub_fits by (apply fits_range; unfold Int.min_int, Int.max_int in *; lia).
      rewrite IH; lia.
    + destruct (Early.same p g); [congruence|]. apply IH; lia.
Qed.

Lemma ghostsAt_le p gs : (ghostsAt p gs <= length gs)%nat.
Proof. apply length_filter. Qed.

Lemma early_moveEach_length m gs : forall draws gs',
  Early.moveEach m gs draws = Done gs' -> length gs' = length gs.
Proof.
  induction gs as [|g gs IH]; intros draws gs' Hrun.
  - injection Hrun as <-. reflexivity.
  - cbn [Early.moveEach] in Hrun.
    apply bind_done in Hrun as ([r c] & _ & Hrun).
    apply bind_done in Hrun as (rest & Hrest & [= <-]).
    cbn [length]. now rewrite (IH _ _ Hrest).
Qed.

Lemma early_movePlayer_frame dir e e' :
  Early.movePlayer dir e = Done e' ->
  Early.ghosts e' = Early.ghosts e /\ Early.lives e' = Early.lives e /\
  Early.sending e' = Early.sending e.
Proof.
  unfold Early.movePlayer. intros Hrun.
  apply bind_done in Hrun as ([r c] & _ & Hrun).
  apply bind_done in Hrun as (ch & _ & Hrun).
  destruct (Ascii.eqb ch "."); [|injection Hrun as <-; auto].
  apply bind_done in Hrun as (line & _ & Hrun).
  apply bind_done in Hrun as (before & _ & Hrun).
  apply bind_done in Hrun as (after & _ & Hrun).
  apply bind_done in Hrun as (m & _ & [= <-]). auto.
Qed.

Lemma movePlayer_earlier dir s s' :
  movePlayer dir s = Done s' ->
  exists r c e',
    makeMove (maze s) (row (player s)) (col (player s)) dir = Done (r, c) /\
    row (player s') = r /\ col (player s') = c /\
    Early.movePlayer dir (earlier s) = Done e' /\
    Early.player e' = Early.mkSprite r c /\
    (cell (maze s) r c <> Done "X"%char -> e' = earlier s') /\
    (cell (maze s) r c = Done "X"%char ->
     Early.maze e' = maze s /\ Early.score e' = score s /\
     Early.numDots e' = numDots s).
Proof.
  unfold movePlayer, Early.movePlayer. intros Hrun.
  cbn [earlier Early.maze Early.player Early.row Early.col].
  destruct (makeMove (maze s) (row (player s)) (col (player s)) dir)
    as [[r c]| |]; try discriminate.
  exists r, c.
  cbn [mbind outcome_bind] in Hrun |- *.
  cbn [maze set_player] in Hrun.
  destruct (cell (maze s) r c) as [ch| |] eqn:Hcell; try discriminate.
  cbn [mbind outcome_bind] in Hrun |- *.
  destruct (Ascii.eqb ch ".") eqn:Hdot.
  - apply Ascii.eqb_eq in Hdot as ->.
    unfold removeDot in Hrun.
    cbn [maze set_player set_numDots set_score] in Hrun.
    destruct (index (maze s) r) as [line| |]; try discriminate.
    cbn [mbind outcome_bind] in Hrun |- *.
    destruct (slice line 0 c) as [before| |]; try discriminate.
    cbn [mbind outcome_bind] in Hrun |- *.
    destruct (slice line (Int.add c 1) (slen line)) as [after| |];
      try discriminate.
    cbn [mbind outcome_bind] in Hrun |- *.
    destruct (assign (maze s) r (before +:+ " " +:+ after)) as [m| |];
      try discriminate.
    cbn [mbind outcome_bind] in Hrun |- *. injection Hrun as <-.
    eexists. do 4 (split; [reflexivity|]).
    split; [reflexivity|]. split; [reflexivity|]. intros [=].
  - destruct (Ascii.eqb ch "X") eqn:Hpill.
    + apply Ascii.eqb_eq in Hpill as ->.
      apply bind_done in Hrun as (s1 & Hrun & [= <-]).
      unfold removeDot in Hrun.
      apply bind_done in Hrun as (line & _ & Hrun).
      apply bind_done in Hrun as (before & _ & Hrun).
      apply bind_done in Hrun as (after & _ & Hrun).
      apply bind_done in Hrun as (m & _ & [= <-]).
      eexists. do 4 (split; [reflexivity|]).
      split; [reflexivity|]. split; [congruence|]. auto.
    + injection Hrun as <-. eexists. do 4 (split; [reflexivity|]).
      split; [reflexivity|]. split; [reflexivity|].
      intros [= ->]. discriminate.
Qed.

Lemma moveEach_earlier m gs : forall draws gs',
  moveEach m gs draws = Done gs' ->
  Early.moveEach m (earlierGhost <$> gs) draws = Done (earlierGhost <$> gs').
Proof.
  induction gs as [|g gs IH]; intros draws gs' Hrun.
  - injection Hrun as <-. reflexivity.
  - cbn [moveEach] in Hrun. rewrite fmap_cons. cbn [Early.moveEach].
    cbn [earlierGhost Early.row Early.col].
    destruct (makeMove m (row (position g)) (col (position g))
                (drawDirection (hd 0 draws))) as [[r c]| |]; try discriminate.
    cbn [mbind outcome_bind] in Hrun |- *.
    apply bind_done in Hrun as (rest & Hrest & [= <-]).
    rewrite (IH _ _ Hrest). reflexivity.
Qed.

Lemma ghostsAt_none p gs :
  ghostsAt p gs = 0%nat -> Forall (fun g => Early.same p g = false) gs.
Proof.
  unfold ghostsAt. induction gs as [|g gs IH]; intros Hnone.
  - constructor.
  - rewrite filter_cons in Hnone.
    destruct (decide (Early.same p g = true)) as [Hg|Hg]; [discriminate|].
    constructor; [now destruct (Early.same p g)|auto].
Qed.

Lemma collide_none p gs l :
  Forall (fun g => Early.same p g = false) gs -> Early.collide p gs l = l.
Proof.
  induction 1 as [|g gs Hg _ IH]; [reflexivity|].
  cbn [Early.collide]. now rewrite Hg.
Qed.

Lemma collideFrom_apart sel : forall s,
  Forall (fun i => exists g, ghosts s !! i = Some g /\
            Early.same (Early.player (earlier s)) (earlierGhost g) = false)
         sel ->
  collideFrom sel s = Done s.
Proof.
  induction sel as [|i sel IH]; intros s Hall; [reflexivity|].
  apply Forall_cons in Hall as [(g & Hg & Hfar) Hall].
  cbn [collideFrom]. rewrite (collideGhost_apart i s g Hg Hfar).
  cbn [mbind outcome_bind]. auto.
Qed.

Lemma collisions_apart s :
  ghostsAt (Early.player (earlier s)) (Early.ghosts (earlier s)) = 0%nat ->
  collisions s = Done s.
Proof.
  intros Hnone. apply ghostsAt_none in Hnone.
  cbn [earlier Early.ghosts] in Hnone. rewrite Forall_fmap in Hnone.
  apply collideFrom_apart. unfold allGhosts.
  apply Forall_forall. intros i Hi. apply elem_of_seq in Hi.
  destruct (lookup_lt_is_Some_2 (ghosts s) i ltac:(lia)) as [g Hg].
  exists g. split; [exact Hg|].
  rewrite Forall_lookup in Hnone. exact (Hnone i g Hg).
Qed.

(** A tick of the later revision against a tick of the earlier one. *)
Lemma tick_earlier draws s s' over :
  tick draws s = Done (s', over) ->
  (forall inp rest r c,
     sending s = inp :: rest ->
     makeMove (maze s) (row (player s)) (col (player s)) inp = Done (r, c) ->
     cell (maze s) r c <> Done "X"%char) ->
  exists e' over',
    Early.tick draws (earlier s) = Done (e', over') /\
    (ghostsAt (Early.player e') (Early.ghosts e') = 0%nat ->
     e' = earlier s' /\ over' = over).
Proof.
  intros Hrun Hpill. unfold tick in Hrun.
  apply bind_done in Hrun as (s1 & Hsel & Hrun).
  apply bind_done in Hrun as (s2 & Hmv & Hrun).
  apply bind_done in Hrun as (s3 & Hcoll & Hrun).
  apply bind_done in Hrun as (s4 & Hprint & Hcheck).
  assert (Hfirst :
    match Early.sending (earlier s) with
    | inp :: rest =>
        Early.movePlayer inp
          (Early.mkState (Early.maze (earlier s)) (Early.player (earlier s))
             (Early.ghosts (earlier s)) (Early.score (earlier s))
             (Early.numDots (earlier s))
             (if String.eqb inp "ESC" then 0 else Early.lives (earlier s))
             rest)
    | [] => Done (earlier s)
    end = Done (earlier s1)).
  { unfold selectInput in Hsel. cbn [earlier Early.sending].
    destruct (sending s) as [|inp rest] eqn:Hsend.
    - injection Hsel as <-. reflexivity.
    - unfold handleInput in Hsel.
      apply movePlayer_earlier in Hsel
        as (r & c & e1 & Hmove & _ & _ & Hearly & _ & Hsame & _).
      assert (Hcell : cell (maze s) r c <> Done "X"%char).
      { apply (Hpill inp rest); [reflexivity|].
        destruct (String.eqb inp "ESC"); exact Hmove. }
      rewrite <- Hsame.
      + rewrite <- Hearly. destruct (String.eqb inp "ESC"); reflexivity.
      + destruct (String.eqb inp "ESC"); exact Hcell. }
  unfold moveGhosts in Hmv.
  apply bind_done in Hmv as (gs & Hgs & [= <-]).
  apply moveEach_earlier in Hgs.
  unfold Early.tick. rewrite Hfirst. cbn [mbind outcome_bind].
  cbn [earlier Early.maze Early.ghosts]. rewrite Hgs.
  cbn [mbind outcome_bind]. eexists _, _. split; [reflexivity|].
  cbn [Early.player Early.ghosts Early.lives Early.numDots earlier].
  intros Hnone.
  pose proof (collisions_apart (set_ghosts gs s1) Hnone) as Hsame.
  rewrite Hsame in Hcoll. injection Hcoll as <-.
  rewrite (collide_none _ _ _ (ghostsAt_none _ _ Hnone)).
  unfold printScreen, RUnlock, RLock in Hprint. cbn in Hprint.
  injection Hprint as <-. unfold checkGameOver, gameOver in Hcheck.
  cbn [lives numDots set_ghostStatusMx emit set_ghosts] in Hcheck.
  destruct ((numDots s1 =? 0) || (lives s1 <=? 0));
    [destruct (lives s1 =? 0)|]; injection Hcheck as <- <-;
    split; reflexivity.
Qed.

Lemma scanLine_earlier line : forall r c s e,
  Early.maze e = maze s -> Early.player e = Early.player (earlier s) ->
  Early.ghosts e = Early.ghosts (earlier s) ->
  Early.score e = score s -> Early.numDots e = numDots s ->
  let s' := scanLine r c line s in
  let e' := Early.scanLine r c line e in
  Early.maze e' = maze s' /\ Early.player e' = Early.player (earlier s') /\
  Early.ghosts e' = Early.ghosts (earlier s') /\
  Early.score e' = score s' /\ Early.numDots e' = numDots s' /\
  Early.lives e' = Early.lives e /\ lives s' = lives s.
Proof.
  induction line as [|ch line IH]; intros r c s e Hm Hp Hg Hs Hn.
  - cbn. auto 10.
  - cbn [scanLine Early.scanLine].
    destruct (Ascii.eqb ch "P");
      [|destruct (Ascii.eqb ch "G"); [|destruct (Ascii.eqb ch ".")]].
    + edestruct (IH r (c + 1) (set_player (mkSprite r c r c) s)) as
        (? & ? & ? & ? & ? & Hl & Hl'); [..|rewrite Hl, Hl'; auto 10];
        cbn; auto.
    + edestruct (IH r (c + 1)
        (set_ghosts
           (ghosts s ++ [mkGhost (mkSprite r c r c) GhostStatusNormal]) s)) as
        (? & ? & ? & ? & ? & Hl & Hl'); [..|rewrite Hl, Hl'; auto 10];
        cbn; auto.
      rewrite fmap_app, Hg. reflexivity.
    + edestruct (IH r (c + 1) (set_numDots (Int.add (numDots s) 1) s)) as
        (? & ? & ? & ? & ? & Hl & Hl'); [..|rewrite Hl, Hl'; auto 10];
        cbn; auto.
      now rewrite Hn.
    + apply IH; auto.
Qed.

Lemma scanMaze_earlier lines : forall r s e,
  Early.maze e = maze s -> Early.player e = Early.player (earlier s) ->
  Early.ghosts e = Early.ghosts (earlier s) ->
  Early.score e = score s -> Early.numDots e = numDots s ->
  let s' := scanMaze r lines s in
  let e' := Early.scanMaze r lines e in
  Early.maze e' = maze s' /\ Early.player e' = Early.player (earlier s') /\
  Early.ghosts e' = Early.ghosts (earlier s') /\
  Early.score e' = score s' /\ Early.numDots e' = numDots s' /\
  Early.lives e' = Early.lives e /\ lives s' = lives s.
Proof.
  induction lines as [|line lines IH]; intros r s e Hm Hp Hg Hs Hn.
  - cbn. auto 10.
  - cbn [scanMaze Early.scanMaze].
    destruct (scanLine_earlier line r 0 s e Hm Hp Hg Hs Hn)
      as (Hm1 & Hp1 & Hg1 & Hs1 & Hn1 & Hl & Hl').
    destruct (IH (r + 1) _ _ Hm1 Hp1 Hg1 Hs1 Hn1)
      as (? & ? & ? & ? & ? & Hl2 & Hl2').
    rewrite Hl2, Hl2', Hl, Hl'. auto 10.
Qed.

(** X19. In the earlier revision every ghost that stands on the player's
    cell after the ghosts moved costs a life, all of them in the same
    iteration of the game loop: the lives after the iteration are those
    the poll of the input left (none after Escape) less the number of
    such ghosts. The loop is left exactly when no dot or no life is
    left; so with the single life this revision starts with, the first
    ghost met ends the game. *)
Theorem X19_early_each_ghost_costs_a_life
  (draws : list Z) (e e' : Early.state) (over : bool) :
  0 <= Early.lives e <= Int.max_int ->
  Z.of_nat (length (Early.ghosts e)) <= Int.max_int ->
  Early.tick draws e = Done (e', over) ->
  Early.lives e' =
    match Early.sending e with
    | inp :: _ => if String.eqb inp "ESC" then 0 else Early.lives e
    | [] => Early.lives e
    end - Z.of_nat (ghostsAt (Early.player e') (Early.ghosts e')) /\
  (over = true <-> Early.numDots e' = 0 \/ Early.lives e' <= 0) /\
  (Early.lives e <= 1 ->
   (0 < ghostsAt (Early.player e') (Early.ghosts e'))%nat -> over = true).
Proof.
  intros Hlives Hmany Hrun. unfold Early.tick in Hrun.
  apply bind_done in Hrun as (e1 & Hsel & Hrun).
  apply bind_done in Hrun as (gs & Hgs & [= <- <-]).
  cbn [Early.lives Early.player Early.ghosts Early.numDots].
  pose proof (early_moveEach_length _ _ _ _ Hgs) as Hlen.
  pose proof (ghostsAt_le (Early.player e1) gs) as Hle.
  assert (Hpoll : Early.lives e1 =
            match Early.sending e with
            | inp :: _ => if String.eqb inp "ESC" then 0 else Early.lives e
            | [] => Early.lives e
            end /\ Early.ghosts e1 = Early.ghosts e).
  { destruct (Early.sending e) as [|inp rest].
    - injection Hsel as <-. auto.
    - apply early_movePlayer_frame in Hsel as (-> & -> & _). auto. }
  destruct Hpoll as [Hpoll Hsame]. rewrite Hsame in Hlen.
  assert (Hrange : 0 <= Early.lives e1 <= Early.lives e).
  { rewrite Hpoll. destruct (Early.sending e) as [|inp rest]; [lia|].
    destruct (String.eqb inp "ESC"); lia. }
  rewrite collide_counts, <- Hpoll
    by (unfold Int.min_int, Int.max_int in *; lia).
  split; [reflexivity|]. split.
  - rewrite orb_true_iff, Z.eqb_eq, Z.leb_le. reflexivity.
  - intros Hone Hmet. rewrite orb_true_iff, Z.leb_le. right. lia.
Qed.

Lemma X19_early_each_ghost_costs_a_life_witness :
  exists e',
    Early.tick [3] (Early.boot alley) = Done (e', true) /\
    Early.lives e' =
      match Early.sending (Early.boot alley) with
      | inp :: _ =>
          if String.eqb inp "ESC" then 0 else Early.lives (Early.boot alley)
      | [] => Early.lives (Early.boot alley)
      end - Z.of_nat (ghostsAt (Early.player e') (Early.ghosts e')) /\
    (true = true <-> Early.numDots e' = 0 \/ Early.lives e' <= 0) /\
    (Early.lives (Early.boot alley) <= 1 ->
     (0 < ghostsAt (Early.player e') (Early.ghosts e'))%nat -> true = true).
Proof.
  eexists. split; [vm_compute; reflexivity|].
  apply (X19_early_each_ghost_costs_a_life [3] (Early.boot alley) _ true).
  - vm_compute. split; discriminate.
  - vm_compute. discriminate.
  - vm_compute. reflexivity.
Defined.

(** X20. The later revision moves the player as the earlier did, but for
    the pill. When [movePlayer] of the later revision returns, that of
    the earlier returns on the same maze, position, score and dots, and
    it leaves the player on the same cell; if that cell held no pill it
    leaves the same maze, score and number of dots as well, and if it
    held one the earlier revision leaves maze, score and dots as they
    were, where the later adds ten to the score and starts
    [processPill]. *)
Theorem X20_revisions_differ_by_the_pill (dir : string) (s s' : state) :
  movePlayer dir s = Done s' ->
  exists r c e',
    makeMove (maze s) (row (player s)) (col (player s)) dir = Done (r, c) /\
    Early.movePlayer dir (earlier s) = Done e' /\
    Early.player e' = Early.player (earlier s') /\
    (cell (maze s) r c <> Done "X"%char -> e' = earlier s') /\
    (cell (maze s) r c = Done "X"%char ->
     Early.maze e' = maze s /\ Early.score e' = score s /\
     Early.numDots e' = numDots s /\
     score s' = Int.add (score s) 10 /\ numDots s' = numDots s /\
     procs s' = procs s ++ [PillLock]).
Proof.
  intros Hrun. pose proof Hrun as Hlate.
  apply movePlayer_earlier in Hrun
    as (r & c & e' & Hmove & Hr & Hc & Hearly & Hat & Hsame & Hpill).
  exists r, c, e'. split; [exact Hmove|]. split; [exact Hearly|].
  split; [cbn [earlier Early.player]; now rewrite Hr, Hc|].
  split; [exact Hsame|]. intros Hcell.
  destruct (Hpill Hcell) as (Hm & Hs & Hn). do 3 (split; [assumption|]).
  unfold movePlayer in Hlate. rewrite Hmove in Hlate.
  cbn [mbind outcome_bind] in Hlate. cbn [maze set_player] in Hlate.
  rewrite Hcell in Hlate. cbn [mbind outcome_bind] in Hlate.
  change (Ascii.eqb "X" ".") with false in Hlate.
  change (Ascii.eqb "X" "X") with true in Hlate. cbv iota in Hlate.
  apply bind_done in Hlate as (s1 & Hlate & [= <-]).
  unfold removeDot in Hlate.
  apply bind_done in Hlate as (line & _ & Hlate).
  apply bind_done in Hlate as (before & _ & Hlate).
  apply bind_done in Hlate as (after & _ & Hlate).
  apply bind_done in Hlate as (m & _ & [= <-]).
  repeat split.
Qed.

Lemma X20_revisions_differ_by_the_pill_witness :
  exists s',
    movePlayer "RIGHT" (boot lane 10) = Done s' /\
    exists r c e',
      makeMove (maze (boot lane 10)) (row (player (boot lane 10)))
        (col (player (boot lane 10))) "RIGHT" = Done (r, c) /\
      Early.movePlayer "RIGHT" (earlier (boot lane 10)) = Done e' /\
      Early.player e' = Early.player (earlier s') /\
      (cell (maze (boot lane 10)) r c <> Done "X"%char -> e' = earlier s') /\
      (cell (maze (boot lane 10)) r c = Done "X"%char ->
       Early.maze e' = maze (boot lane 10) /\
       Early.score e' = score (boot lane 10) /\
       Early.numDots e' = numDots (boot lane 10) /\
       score s' = Int.add (score (boot lane 10)) 10 /\
       numDots s' = numDots (boot lane 10) /\
       procs s' = procs (boot lane 10) ++ [PillLock]).
Proof.
  eexists. split; [vm_compute; reflexivity|].
  apply (X20_revisions_differ_by_the_pill "RIGHT" (boot lane 10)).
  vm_compute. reflexivity.
Defined.

(** X21. An iteration of the game loop of the later revision in which
    the player is not led to a pill and, after the ghosts moved, no
    ghost stands on the player's cell, is an iteration of the earlier
    revision: from the same maze, positions, score, dots, lives and
    pending input, with the same random draws, the earlier loop returns,
    it leaves the same maze, positions, score, dots, lives and pending
    input, and it is left in the same cases. *)
Theorem X21_later_tick_is_earlier_tick
  (draws : list Z) (s s' : state) (over : bool) :
  tick draws s = Done (s', over) ->
  (forall inp rest r c,
     sending s = inp :: rest ->
     makeMove (maze s) (row (player s)) (col (player s)) inp = Done (r, c) ->
     cell (maze s) r c <> Done "X"%char) ->
  exists e' over',
    Early.tick draws (earlier s) = Done (e', over') /\
    (ghostsAt (Early.player e') (Early.ghosts e') = 0%nat ->
     e' = earlier s' /\ over' = over).
Proof. apply tick_earlier. Qed.

Lemma X21_later_tick_is_earlier_tick_witness :
  exists s',
    tick [0] (set_sending ["LEFT"%string] (boot alley 10)) = Done (s', false) /\
    exists e' over',
      Early.tick [0] (earlier (set_sending ["LEFT"%string] (boot alley 10)))
        = Done (e', over') /\
      (ghostsAt (Early.player e') (Early.ghosts e') = 0%nat ->
       e' = earlier s' /\ over' = false).
Proof.
  eexists. split; [vm_compute; reflexivity|].
  apply (X21_later_tick_is_earlier_tick [0]
           (set_sending ["LEFT"%string] (boot alley 10)) _ false).
  - vm_compute. reflexivity.
  - intros inp rest r c Hsend Hmove. vm_compute in Hsend.
    injection Hsend as <- <-. vm_compute in Hmove.
    injection Hmove as <- <-. vm_compute. discriminate.
Defined.

(** X22. Both revisions read a maze alike: after [loadMaze] the later
    revision has the maze, the position of the player, the positions of
    the ghosts in the same order, the score and the number of dots that
    the earlier has, and it starts the game with three lives where the
    earlier starts it with one. *)
Theorem X22_revisions_load_alike (lines : list string) (secs : Z) :
  Early.maze (Early.boot lines) = maze (boot lines secs) /\
  Early.player (Early.boot lines) =
    Early.player (earlier (boot lines secs)) /\
  Early.ghosts (Early.boot lines) =
    Early.ghosts (earlier (boot lines secs)) /\
  Early.score (Early.boot lines) = score (boot lines secs) /\
  Early.numDots (Early.boot lines) = numDots (boot lines secs) /\
  Early.lives (Early.boot lines) = 1 /\ lives (boot lines secs) = 3.
Proof.
  destruct (scanMaze_earlier lines 0 (set_maze lines initial)
              (Early.mkState lines (Early.player Early.initial)
                 (Early.ghosts Early.initial) (Early.score Early.initial)
                 (Early.numDots Early.initial) (Early.lives Early.initial)
                 (Early.sending Early.initial))
              eq_refl eq_refl eq_refl eq_refl eq_refl)
    as (Hm & Hp & Hg & Hs & Hn & Hl & Hl').
  split; [exact Hm|]. split; [exact Hp|]. split; [exact Hg|].
  split; [exact Hs|]. split; [exact Hn|]. split; [exact Hl|exact Hl'].
Qed.
